(** * hera/wasserstein/auction_runner_gs.hpp : the Gauss-Seidel auction runner

    A shallow embedding of [AuctionRunnerGS<R, AO, PC>] and the properties of
    its assignment ledger, phase engine and phase loop.

    - The class is a template over the scalar type [R], the oracle type [AO]
      and the point container [PC]: these are the type classes [RealType] and
      [AuctionOracle] and the type [Point] of the points.  Of the scalars
      only order laws are assumed ([RealLaws]), which hold of the
      comparisons of IEEE floating-point numbers, NaN included; nothing is
      assumed of the values that the arithmetic returns, so a division may
      underflow to zero and a bound may come out as a NaN.  The one
      exception is [0 + a = a] ([RealSum]), which only the comparison of the
      stored cost with the recomputed sum uses.
    - A member function is a function from the runner to an outcome [res]:
      the runner it leaves, or the way it did not return (an exception, a
      failed [assert], undefined behaviour).
    - What the file takes from headers that are not part of it (the sentinel
      [k_invalid_index], the macros [DEBUG_AUCTION], [FOR_R_TDA] and [NDEBUG],
      [dist_lp]) is a parameter, collected in [Declarations].
    - The bidding loop of a phase ends when the oracle lets it; the model
      follows it for a given number of rounds ([fuel]) and says [OutOfFuel]
      beyond.
    - Indices are [IdxType] values, modelled as [Z] without wrap-around, as
      are the two counters of the result. *)

From Stdlib Require Import ZArith String QArith Qabs Lia Bool.
From stdpp Require Import base list gmap sets pretty.

Local Open Scope Z_scope.

(** ** Outcomes of a member function *)

(** The two exception classes the file throws: [std::runtime_error] with its
    message, and the [std::out_of_range] of [std::vector::at]. *)
Inductive exn : Type :=
  | runtime_error (what : string)
  | out_of_range.

(** Ways a call can end without returning: a C++ exception, a failed
    [assert], undefined behaviour (an index outside a vector, the
    dereference of [end()]), or the bidding loop using up the fuel the model
    gives it. *)
Inductive fault : Type :=
  | Thrown (e : exn)
  | AssertionFailed
  | Undefined
  | OutOfFuel.

Inductive res (A : Type) : Type :=
  | Ok (a : A)
  | Fail (f : fault).
Arguments Ok {A} a.
Arguments Fail {A} f.

Definition res_bind {A B : Type} (k : A → res B) (m : res A) : res B :=
  match m with
  | Ok a => k a
  | Fail f => Fail f
  end.

#[export] Instance res_mbind : MBind res := @res_bind.
#[export] Instance res_mret : MRet res := @Ok.

(** ** The scalar type [R] *)

Class RealType (R : Type) : Type := {
  real_of_Z : Z → R;                 (* conversion of an integer value *)
  real_add : R → R → R;
  real_sub : R → R → R;
  real_mul : R → R → R;
  real_div : R → R → R;
  real_leb : R → R → bool;           (* a <= b *)
  real_ltb : R → R → bool;           (* a < b *)
  real_eqb : R → R → bool;           (* a == b *)
  real_pow : R → R → R;              (* std::pow *)
  real_max : R;                      (* std::numeric_limits<R>::max() *)
}.

Declare Scope real_scope.
Delimit Scope real_scope with real.
Infix "+" := real_add : real_scope.
Infix "-" := real_sub : real_scope.
Infix "*" := real_mul : real_scope.
Infix "/" := real_div : real_scope.
Infix "<=?" := real_leb : real_scope.
Infix "<?" := real_ltb : real_scope.
Infix "=?" := real_eqb : real_scope.

(** The order laws the proofs use.  They are laws of the comparisons of an
    IEEE floating-point type as well as of an ordered field: a comparison
    with a NaN is false, so it satisfies no hypothesis below, and the order
    is not assumed to be total.  Nothing is assumed of the results of the
    arithmetic, which rounds, overflows and underflows.  [real_of_Z_ltb] is
    stated on integers that every binary floating-point format holds
    exactly. *)
Class RealLaws (R : Type) {RT : RealType R} : Prop := {
  real_ltb_le : ∀ a b : R, (a <? b)%real = true → (a <=? b)%real = true;
  real_ltb_not_ge : ∀ a b : R,
    (a <? b)%real = true → (b <=? a)%real = false;
  real_leb_trans : ∀ a b c : R,
    (a <=? b)%real = true → (b <=? c)%real = true → (a <=? c)%real = true;
  real_ltb_leb_trans : ∀ a b c : R,
    (a <? b)%real = true → (b <=? c)%real = true → (a <? c)%real = true;
  real_leb_ltb_trans : ∀ a b c : R,
    (a <=? b)%real = true → (b <? c)%real = true → (a <? c)%real = true;
  real_eqb_leb : ∀ a b : R, (a =? b)%real = (a <=? b)%real && (b <=? a)%real;
  real_of_Z_ltb : ∀ m n : Z,
    -16777216 ≤ m → m < n → n ≤ 16777216 →
    (real_of_Z m <? real_of_Z n)%real = true;
}.

(** The sum [0 + a] with which the program starts the cost of a matching is
    [a].  In IEEE arithmetic this is so for every [a] but the negative
    zero. *)
Class RealSum (R : Type) {RT : RealType R} : Prop := {
  real_add_0_l : ∀ a : R, (real_of_Z 0 + a)%real = a;
}.

(** ** The oracle type [AO]

    The capability contract the runner uses: the calls made on [oracle] in
    this file.  [get_optimal_bid] is not const in the runner's use, so it
    returns the oracle it leaves behind. *)
Class AuctionOracle (R Point Params AO : Type) : Type := {
  oracle_make : list Point → list Point → Params → AO;
  oracle_set_prices : list R → AO → AO;
  oracle_get_prices : AO → list R;
  oracle_max_val_ : AO → R;
  oracle_adjust_prices : AO → AO;
  oracle_set_epsilon : R → AO → AO;
  oracle_get_epsilon : AO → R;
  oracle_get_optimal_bid : Z → AO → (Z * R) * AO;
  oracle_set_price : Z → R → AO → AO;
}.

(** Epsilon is a value the oracle stores: [set_epsilon] writes it and no
    other call of the contract changes it. *)
Class AuctionOracleLaws (R Point Params AO : Type)
    {OR : AuctionOracle R Point Params AO} : Prop := {
  get_set_epsilon : ∀ (e : R) (o : AO),
    oracle_get_epsilon (oracle_set_epsilon e o) = e;
  get_epsilon_adjust_prices : ∀ o : AO,
    oracle_get_epsilon (oracle_adjust_prices o) = oracle_get_epsilon o;
  get_epsilon_set_price : ∀ (i : Z) (v : R) (o : AO),
    oracle_get_epsilon (oracle_set_price i v o) = oracle_get_epsilon o;
  get_epsilon_get_optimal_bid : ∀ (b : Z) (o : AO),
    oracle_get_epsilon (oracle_get_optimal_bid b o).2 = oracle_get_epsilon o;
}.

(** ** Parameters and result *)

(** [AuctionParams<Real>]: the fields this file reads. *)
Record AuctionParams (R : Type) : Type := mkParams {
  wasserstein_power : R;
  internal_p : R;
  dim : Z;
  delta : R;
  initial_epsilon : R;
  epsilon_common_ratio : R;
  max_num_phases : Z;
  tolerate_max_iter_exceeded : bool;
  return_matching : bool;
}.
Arguments mkParams {R}.
Arguments wasserstein_power {R}.
Arguments internal_p {R}.
Arguments dim {R}.
Arguments delta {R}.
Arguments initial_epsilon {R}.
Arguments epsilon_common_ratio {R}.
Arguments max_num_phases {R}.
Arguments tolerate_max_iter_exceeded {R}.
Arguments return_matching {R}.

Definition set_initial_epsilon {R} (e : R) (p : AuctionParams R) :=
  mkParams p.(wasserstein_power) p.(internal_p) p.(dim) p.(delta) e
           p.(epsilon_common_ratio) p.(max_num_phases)
           p.(tolerate_max_iter_exceeded) p.(return_matching).

Definition set_epsilon_common_ratio {R} (c : R) (p : AuctionParams R) :=
  mkParams p.(wasserstein_power) p.(internal_p) p.(dim) p.(delta)
           p.(initial_epsilon) c p.(max_num_phases)
           p.(tolerate_max_iter_exceeded) p.(return_matching).

(** [AuctionResult<Real>]: the fields this file writes. *)
Record AuctionResult (R : Type) : Type := mkResult {
  cost : R;
  distance : R;
  final_relative_error : R;
  start_epsilon : R;
  final_epsilon : R;
  num_rounds : Z;
  num_phases : Z;
  prices : list R;
  matching : list (Z * Z);
}.
Arguments mkResult {R}.
Arguments cost {R}.
Arguments distance {R}.
Arguments final_relative_error {R}.
Arguments start_epsilon {R}.
Arguments final_epsilon {R}.
Arguments num_rounds {R}.
Arguments num_phases {R}.
Arguments prices {R}.
Arguments matching {R}.

Definition set_cost {R} (x : R) (r : AuctionResult R) :=
  mkResult x r.(distance) r.(final_relative_error) r.(start_epsilon)
           r.(final_epsilon) r.(num_rounds) r.(num_phases) r.(prices)
           r.(matching).
Definition set_distance {R} (x : R) (r : AuctionResult R) :=
  mkResult r.(cost) x r.(final_relative_error) r.(start_epsilon)
           r.(final_epsilon) r.(num_rounds) r.(num_phases) r.(prices)
           r.(matching).
Definition set_final_relative_error {R} (x : R) (r : AuctionResult R) :=
  mkResult r.(cost) r.(distance) x r.(start_epsilon)
           r.(final_epsilon) r.(num_rounds) r.(num_phases) r.(prices)
           r.(matching).
Definition set_start_epsilon {R} (x : R) (r : AuctionResult R) :=
  mkResult r.(cost) r.(distance) r.(final_relative_error) x
           r.(final_epsilon) r.(num_rounds) r.(num_phases) r.(prices)
           r.(matching).
Definition set_final_epsilon {R} (x : R) (r : AuctionResult R) :=
  mkResult r.(cost) r.(distance) r.(final_relative_error) r.(start_epsilon)
           x r.(num_rounds) r.(num_phases) r.(prices) r.(matching).
Definition set_num_rounds {R} (n : Z) (r : AuctionResult R) :=
  mkResult r.(cost) r.(distance) r.(final_relative_error) r.(start_epsilon)
           r.(final_epsilon) n r.(num_phases) r.(prices) r.(matching).
Definition set_num_phases {R} (n : Z) (r : AuctionResult R) :=
  mkResult r.(cost) r.(distance) r.(final_relative_error) r.(start_epsilon)
           r.(final_epsilon) r.(num_rounds) n r.(prices) r.(matching).
Definition set_prices {R} (ps : list R) (r : AuctionResult R) :=
  mkResult r.(cost) r.(distance) r.(final_relative_error) r.(start_epsilon)
           r.(final_epsilon) r.(num_rounds) r.(num_phases) ps r.(matching).
Definition set_matching {R} (m : list (Z * Z)) (r : AuctionResult R) :=
  mkResult r.(cost) r.(distance) r.(final_relative_error) r.(start_epsilon)
           r.(final_epsilon) r.(num_rounds) r.(num_phases) r.(prices) m.

(** ** Vectors indexed by [IdxType] *)

(** [v[i]]: outside the vector the behaviour is undefined. *)
Definition vec_get {A : Type} (v : list A) (i : Z) : res A :=
  if 0 <=? i then
    match v !! Z.to_nat i with
    | Some x => Ok x
    | None => Fail Undefined
    end
  else Fail Undefined.

(** [v[i] = x]. *)
Definition vec_set {A : Type} (v : list A) (i : Z) (x : A) : res (list A) :=
  if (0 <=? i) && (i <? Z.of_nat (length v)) then Ok (<[Z.to_nat i := x]> v)
  else Fail Undefined.

(** [v.at(i)]: outside the vector it throws [std::out_of_range]. *)
Definition vec_at {A : Type} (v : list A) (i : Z) : res A :=
  if 0 <=? i then
    match v !! Z.to_nat i with
    | Some x => Ok x
    | None => Fail (Thrown out_of_range)
    end
  else Fail (Thrown out_of_range).

(** [for (size_t i = 0; i < n; ++i) body(i)], as a fold over [seq 0 n]. *)
Fixpoint for_each {S : Type} (l : list nat) (body : nat → S → res S) (s : S)
  : res S :=
  match l with
  | [] => Ok s
  | i :: l' => s' ← body i s; for_each l' body s'
  end.

(** The order in which [std::unordered_set] hands out its elements is the
    implementation's; [uset_begin s] is [*s.begin()], [None] standing for the
    dereference of [end()]. *)
Class UnorderedSetBegin : Type := {
  uset_begin : gset Z → option Z;
  uset_begin_elem : ∀ s x, uset_begin s = Some x → x ∈ s;
}.

(** How the bidding loop of a phase left: by [break] (the error bound met
    [delta]) or by its condition (the phase cap). *)
Inductive loop_exit : Type := Converged | Exhausted.

(** What the phase loop did: how it left, and the epsilon each phase ran at
    (the value of [oracle.get_epsilon()] the loop body reads after the phase),
    first phase first. *)
Record phases_trace (R : Type) : Type := mkTrace {
  trace_exit : loop_exit;
  trace_epsilons : list R;
}.
Arguments mkTrace {R}.
Arguments trace_exit {R}.
Arguments trace_epsilons {R}.

(** Declared in headers that are not part of this file: the sentinel index,
    the two macros that decide whether the debug code is compiled, [NDEBUG]
    for [assert], the ground distance, the default of the parameter
    [tolerate_invalid_idx], and the two id accessors. *)
Class Declarations (R Point : Type) : Type := {
  k_invalid_index : Z;
  def_DEBUG_AUCTION : bool;
  FOR_R_TDA : bool;
  NDEBUG : bool;
  dist_lp : Point → Point → R → Z → R;
  tolerate_invalid_idx_default : bool;
  get_bidder_id : list Point → nat → Z;
  get_bidders_item_id : list Point → list Z → nat → Z;
}.

Section Runner.
Context {R : Type} {RT : RealType R} {Point AO : Type}.
Context {OR : AuctionOracle R Point (AuctionParams R) AO}.
Context {US : UnorderedSetBegin} {DC : Declarations R Point}.


(** [#ifdef FOR_R_TDA] / [#undef DEBUG_AUCTION]. *)
Definition DEBUG_AUCTION : bool := def_DEBUG_AUCTION && negb FOR_R_TDA.

Record AuctionRunnerGS : Type := mkRunner {
  bidders : list Point;
  items : list Point;
  num_bidders : nat;
  num_items : nat;
  items_to_bidders : list Z;
  bidders_to_items : list Z;
  params : AuctionParams R;
  oracle : AO;
  unassigned_bidders : gset Z;
  result : AuctionResult R;
  is_distance_computed : bool;
}.

Definition with_items_to_bidders (v : list Z) (st : AuctionRunnerGS) :=
  mkRunner st.(bidders) st.(items) st.(num_bidders) st.(num_items) v
           st.(bidders_to_items) st.(params) st.(oracle)
           st.(unassigned_bidders) st.(result) st.(is_distance_computed).
Definition with_bidders_to_items (v : list Z) (st : AuctionRunnerGS) :=
  mkRunner st.(bidders) st.(items) st.(num_bidders) st.(num_items)
           st.(items_to_bidders) v st.(params) st.(oracle)
           st.(unassigned_bidders) st.(result) st.(is_distance_computed).
Definition with_oracle (o : AO) (st : AuctionRunnerGS) :=
  mkRunner st.(bidders) st.(items) st.(num_bidders) st.(num_items)
           st.(items_to_bidders) st.(bidders_to_items) st.(params) o
           st.(unassigned_bidders) st.(result) st.(is_distance_computed).
Definition with_unassigned_bidders (u : gset Z) (st : AuctionRunnerGS) :=
  mkRunner st.(bidders) st.(items) st.(num_bidders) st.(num_items)
           st.(items_to_bidders) st.(bidders_to_items) st.(params)
           st.(oracle) u st.(result) st.(is_distance_computed).
Definition with_result (r : AuctionResult R) (st : AuctionRunnerGS) :=
  mkRunner st.(bidders) st.(items) st.(num_bidders) st.(num_items)
           st.(items_to_bidders) st.(bidders_to_items) st.(params)
           st.(oracle) st.(unassigned_bidders) r st.(is_distance_computed).
Definition with_is_distance_computed (b : bool) (st : AuctionRunnerGS) :=
  mkRunner st.(bidders) st.(items) st.(num_bidders) st.(num_items)
           st.(items_to_bidders) st.(bidders_to_items) st.(params)
           st.(oracle) st.(unassigned_bidders) st.(result) b.

(** [assert(c)]: compiled out under [NDEBUG], and then [c] is not
    evaluated. *)
Definition assert_ (c : res bool) : res unit :=
  if NDEBUG then Ok tt
  else b ← c; if b : bool then Ok tt else Fail AssertionFailed.

Definition throw {A : Type} (what : string) : res A :=
  Fail (Thrown (runtime_error what)).

(** Modelled from the spec: the declaration of [AuctionResult] is in a
    header that is not part of this file; a result starts with zero cost,
    zero counters and an empty matching. *)
Definition AuctionResult_default : AuctionResult R :=
  mkResult (real_of_Z 0) (real_of_Z 0) (real_of_Z 0) (real_of_Z 0)
           (real_of_Z 0) 0 0 [] [].

(** *** The constructor *)
Definition constructor (A B : list Point) (_params : AuctionParams R)
    (prices0 : list R) : res AuctionRunnerGS :=
  let o := oracle_make A B _params in
  let o := match prices0 with [] => o | _ => oracle_set_prices prices0 o end in
  let p := if (_params.(epsilon_common_ratio) =? real_of_Z 0)%real
           then set_epsilon_common_ratio (real_of_Z 5) _params
           else _params in
  let p := if (p.(initial_epsilon) =? real_of_Z 0)%real
           then set_initial_epsilon (oracle_max_val_ o / real_of_Z 4)%real p
           else p in
  assert_ (Ok (real_of_Z 0 <? p.(initial_epsilon))%real);;
  assert_ (Ok (real_of_Z 0 <? p.(epsilon_common_ratio))%real);;
  assert_ (Ok (bool_decide (length A = length B)));;
  Ok (mkRunner A B (length A) (length B)
               (replicate (length B) k_invalid_index)
               (replicate (length A) k_invalid_index)
               p o ∅ AuctionResult_default false).

(** *** sanity_check *)
Definition sanity_check_bidder (st : AuctionRunnerGS) (bidder_idx : nat)
    (_ : unit) : res unit :=
  let b2i := st.(bidders_to_items) in
  assert_ (x ← vec_get b2i (Z.of_nat bidder_idx);
           Ok ((x =? k_invalid_index)
               || ((x <? Z.of_nat st.(num_items)) && (0 <=? x))));;
  x ← vec_get b2i (Z.of_nat bidder_idx);
  if x =? k_invalid_index then Ok tt
  else if (1 <? count_occ Z.eq_dec b2i x)%nat
  then throw "Duplicate in bidders_to_items"
  else
    y ← vec_at st.(items_to_bidders) x;
    if y =? Z.of_nat bidder_idx then Ok tt else throw "inconsistent mapping".

Definition sanity_check_item (st : AuctionRunnerGS) (item_idx : nat)
    (_ : unit) : res unit :=
  let i2b := st.(items_to_bidders) in
  assert_ (x ← vec_get i2b (Z.of_nat item_idx);
           Ok ((x =? k_invalid_index)
               || ((x <? Z.of_nat st.(num_items)) && (0 <=? x))));;
  x ← vec_at i2b (Z.of_nat item_idx);
  if x =? k_invalid_index then Ok tt
  else if (1 <? count_occ Z.eq_dec i2b x)%nat
  then throw "Duplicate in items_to_bidders"
  else
    y ← vec_at st.(bidders_to_items) x;
    if y =? Z.of_nat item_idx then Ok tt else throw "inconsistent mapping".

Definition sanity_check (st : AuctionRunnerGS) : res unit :=
  if DEBUG_AUCTION then
    if negb (length st.(bidders_to_items) =? st.(num_bidders))%nat
    then throw "Wrong size of bidders_to_items"
    else if negb (length st.(items_to_bidders) =? st.(num_bidders))%nat
    then throw "Wrong size of items_to_bidders"
    else
      for_each (seq 0 st.(num_bidders)) (sanity_check_bidder st) tt;;
      for_each (seq 0 st.(num_bidders)) (sanity_check_item st) tt
  else Ok tt.

(** *** assign_item_to_bidder *)
Definition assign_item_to_bidder (item_idx bidder_idx : Z)
    (st : AuctionRunnerGS) : res AuctionRunnerGS :=
  let st := with_result
              (set_num_rounds (st.(result).(num_rounds) + 1) st.(result)) st in
  sanity_check st;;
  assert_ (x ← vec_get st.(bidders_to_items) bidder_idx;
           Ok (x =? k_invalid_index));;
  old_item_owner ← vec_get st.(items_to_bidders) item_idx;
  b2i ← vec_set st.(bidders_to_items) bidder_idx item_idx;
  i2b ← vec_set st.(items_to_bidders) item_idx bidder_idx;
  let st := with_unassigned_bidders (st.(unassigned_bidders) ∖ {[bidder_idx]})
              (with_items_to_bidders i2b (with_bidders_to_items b2i st)) in
  if negb (old_item_owner =? k_invalid_index) then
    b2i ← vec_set st.(bidders_to_items) old_item_owner k_invalid_index;
    Ok (with_unassigned_bidders (st.(unassigned_bidders) ∪ {[old_item_owner]})
          (with_bidders_to_items b2i st))
  else Ok st.

(** *** flush_assignment *)
Definition flush_assignment (st : AuctionRunnerGS) : res AuctionRunnerGS :=
  let st := with_bidders_to_items
              (replicate (length st.(bidders_to_items)) k_invalid_index) st in
  let st := with_items_to_bidders
              (replicate (length st.(items_to_bidders)) k_invalid_index) st in
  assert_ (Ok (bool_decide (st.(unassigned_bidders) = ∅)));;
  let st := with_unassigned_bidders
              (st.(unassigned_bidders)
               ∪ list_to_set (Z.of_nat <$> seq 0 st.(num_bidders))) st in
  assert_ (Ok (size st.(unassigned_bidders) =? length st.(bidders))%nat);;
  Ok (with_oracle (oracle_adjust_prices st.(oracle)) st).

(** *** get_item_bidder_cost *)
Definition invalid_idx_message (item_idx bidder_idx : Z) : string :=
  ("Invalid idx in get_item_bidder_cost, item_idx = " +:+ pretty item_idx
   +:+ ", bidder_idx = " +:+ pretty bidder_idx)%string.

Definition get_item_bidder_cost (item_idx bidder_idx : Z)
    (tolerate_invalid_idx : bool) (st : AuctionRunnerGS) : res R :=
  if negb (item_idx =? k_invalid_index) && negb (bidder_idx =? k_invalid_index)
  then
    b ← vec_get st.(bidders) bidder_idx;
    i ← vec_get st.(items) item_idx;
    Ok (real_pow (dist_lp b i st.(params).(internal_p) st.(params).(dim))
                 st.(params).(wasserstein_power))
  else if tolerate_invalid_idx then Ok (real_of_Z 0)
  else throw (invalid_idx_message item_idx bidder_idx).

(** *** getDistanceToQthPowerInternal *)
Definition add_bidder_cost (st : AuctionRunnerGS) (bIdx : nat) (r : R)
    : res R :=
  i ← vec_get st.(bidders_to_items) (Z.of_nat bIdx);
  c ← get_item_bidder_cost i (Z.of_nat bIdx) tolerate_invalid_idx_default st;
  Ok (r + c)%real.

Definition getDistanceToQthPowerInternal (st : AuctionRunnerGS)
    : res (R * AuctionRunnerGS) :=
  sanity_check st;;
  r ← for_each (seq 0 st.(num_bidders)) (add_bidder_cost st) (real_of_Z 0);
  let st := with_result (set_cost r st.(result)) st in
  Ok (st.(result).(cost), st).

(** *** run_auction_phase *)

(** One round of the [do ... while] loop. *)
Definition bidding_round (st : AuctionRunnerGS) : res AuctionRunnerGS :=
  match uset_begin st.(unassigned_bidders) with
  | None => Fail Undefined
  | Some bidder_idx =>
      let '(optimal_item_idx, bid_value, o) :=
        oracle_get_optimal_bid bidder_idx st.(oracle) in
      st ← assign_item_to_bidder optimal_item_idx bidder_idx
             (with_oracle o st);
      Ok (with_oracle
            (oracle_set_price optimal_item_idx bid_value st.(oracle)) st)
  end.

(** The loop itself; [fuel] bounds the number of rounds the model follows. *)
Fixpoint bidding_loop (fuel : nat) (st : AuctionRunnerGS)
    : res AuctionRunnerGS :=
  match fuel with
  | O => Fail OutOfFuel
  | S fuel' =>
      st ← bidding_round st;
      if bool_decide (st.(unassigned_bidders) = ∅) then Ok st
      else bidding_loop fuel' st
  end.

Definition check_bidder_has_item (st : AuctionRunnerGS) (bidder_idx : nat)
    (_ : unit) : res unit :=
  x ← vec_get st.(bidders_to_items) (Z.of_nat bidder_idx);
  if (x <? 0) || (Z.of_nat st.(num_bidders) <=? x)
  then throw "Auction did not give a perfect matching"
  else Ok tt.

Definition run_auction_phase (fuel : nat) (st : AuctionRunnerGS)
    : res AuctionRunnerGS :=
  let st := with_result
              (set_num_phases (st.(result).(num_phases) + 1) st.(result)) st in
  st ← bidding_loop fuel st;
  (if DEBUG_AUCTION
   then for_each (seq 0 st.(num_bidders)) (check_bidder_has_item st) tt
   else Ok tt);;
  Ok st.

(** *** run_auction_phases *)

(** "decrease epsilon for the next iteration" *)
Definition decrease_epsilon (st : AuctionRunnerGS) : AuctionRunnerGS :=
  let st := with_oracle
              (oracle_set_epsilon
                 (oracle_get_epsilon st.(oracle)
                  / st.(params).(epsilon_common_ratio))%real st.(oracle)) st in
  with_result (set_final_epsilon (oracle_get_epsilon st.(oracle)) st.(result))
              st.

(** The body of the [for] loop over [phase_num]: [true] when it leaves by
    [break]; the second component is the value of [oracle.get_epsilon()]
    the body reads after the phase. *)
Definition phase_iteration (fuel : nat) (st : AuctionRunnerGS)
    : res (bool * R * AuctionRunnerGS) :=
  st ← flush_assignment st;
  st ← run_auction_phase fuel st;
  '(current_result, st) ← getDistanceToQthPowerInternal st;
  let epsilon := oracle_get_epsilon st.(oracle) in
  let denominator :=
    (current_result - real_of_Z (Z.of_nat st.(num_bidders)) * epsilon)%real in
  let current_result :=
    real_pow current_result
             (real_of_Z 1 / st.(params).(wasserstein_power))%real in
  if (real_of_Z 0 <? denominator)%real then
    let denominator :=
      real_pow denominator
               (real_of_Z 1 / st.(params).(wasserstein_power))%real in
    let numerator := (current_result - denominator)%real in
    let st := with_result
                (set_final_relative_error (numerator / denominator)%real
                   st.(result)) st in
    if (st.(result).(final_relative_error) <=? st.(params).(delta))%real
    then Ok (true, epsilon, st)
    else Ok (false, epsilon, decrease_epsilon st)
  else Ok (false, epsilon, decrease_epsilon st).

(** [for (phase_num = 0; phase_num < max_num_phases; ++phase_num)], on the
    number of iterations left. *)
Fixpoint phase_loop (fuel : nat) (left : nat) (st : AuctionRunnerGS)
    : res (phases_trace R * AuctionRunnerGS) :=
  match left with
  | O => Ok (mkTrace Exhausted [], st)
  | S left' =>
      '(stop, epsilon, st) ← phase_iteration fuel st;
      if stop : bool then Ok (mkTrace Converged [epsilon], st)
      else
        '(tr, st) ← phase_loop fuel left' st;
        Ok (mkTrace tr.(trace_exit) (epsilon :: tr.(trace_epsilons)), st)
  end.

(** The statements before the loop. *)
Definition phases_prologue (st : AuctionRunnerGS) : res AuctionRunnerGS :=
  let st := with_result (set_final_relative_error real_max st.(result)) st in
  let st := with_oracle
              (oracle_set_epsilon st.(params).(initial_epsilon) st.(oracle))
              st in
  let st := with_result
              (set_start_epsilon (oracle_get_epsilon st.(oracle)) st.(result))
              st in
  let st := with_result
              (set_final_epsilon (oracle_get_epsilon st.(oracle)) st.(result))
              st in
  assert_ (Ok (real_of_Z 0 <? oracle_get_epsilon st.(oracle))%real);;
  Ok st.

(** [run_auction_phases] together with the trace of its loop. *)
Definition run_auction_phases_traced (fuel : nat) (st : AuctionRunnerGS)
    : res (phases_trace R * AuctionRunnerGS) :=
  st ← phases_prologue st;
  '(tr, st) ← phase_loop fuel (Z.to_nat st.(params).(max_num_phases)) st;
  Ok (tr, with_result (set_prices (oracle_get_prices st.(oracle)) st.(result))
            st).

Definition run_auction_phases (fuel : nat) (st : AuctionRunnerGS)
    : res AuctionRunnerGS :=
  '(_, st) ← run_auction_phases_traced fuel st; Ok st.

(** *** run_auction *)

(** Modelled from the spec: [AuctionResult::compute_distance] is not part of
    this file; it sets [distance = cost^(1/q)]. *)
Definition compute_distance (q : R) (r : AuctionResult R) : AuctionResult R :=
  set_distance (real_pow r.(cost) (real_of_Z 1 / q)%real) r.

(** The [#ifdef DEBUG_AUCTION] block after [run_auction_phases]. *)
Definition check_max_iter_exceeded (st : AuctionRunnerGS) : res unit :=
  if DEBUG_AUCTION then
    if (st.(params).(delta) <? st.(result).(final_relative_error))%real
       && negb st.(params).(tolerate_max_iter_exceeded)
    then
      if negb st.(params).(tolerate_max_iter_exceeded)
      then throw "Maximum iteration number exceeded"
      else Ok tt
    else Ok tt
  else Ok tt.

Definition fill_matching (st : AuctionRunnerGS) : AuctionRunnerGS :=
  if st.(params).(return_matching) then
    with_result
      (set_matching
         ((λ bidder_idx,
             (get_bidder_id st.(bidders) bidder_idx,
              get_bidders_item_id st.(items) st.(bidders_to_items) bidder_idx))
            <$> seq 0 st.(num_bidders))
         st.(result)) st
  else st.

Definition run_auction (fuel : nat) (st : AuctionRunnerGS)
    : res AuctionRunnerGS :=
  st ← (if (st.(num_bidders) =? 1)%nat then
          st ← assign_item_to_bidder 0 0 st;
          c ← get_item_bidder_cost 0 0 tolerate_invalid_idx_default st;
          Ok (with_result (set_cost c st.(result)) st)
        else
          st ← run_auction_phases fuel st;
          check_max_iter_exceeded st;;
          Ok st);
  let st := with_result
              (compute_distance st.(params).(wasserstein_power) st.(result))
              st in
  let st := with_is_distance_computed true st in
  Ok (fill_matching st).

(** *** The accessors *)
Definition get_wasserstein_cost (st : AuctionRunnerGS) : res R :=
  assert_ (Ok st.(is_distance_computed));;
  Ok st.(result).(cost).

Definition get_wasserstein_distance (st : AuctionRunnerGS) : res R :=
  assert_ (Ok st.(is_distance_computed));;
  c ← get_wasserstein_cost st;
  Ok (real_pow c (real_of_Z 1 / st.(params).(wasserstein_power))%real).

(** *** The ledger's invariants *)

(** [i] is an index of a vector of [n] entries. *)
Definition valid_index (n : nat) (i : Z) : Prop := 0 ≤ i < Z.of_nat n.

(** The two vectors have one entry per bidder, there are as many items as
    bidders, and the sentinel is not an index. *)
Record sized (st : AuctionRunnerGS) : Prop := {
  sized_num_items : st.(num_items) = st.(num_bidders);
  sized_bidders_to_items : length st.(bidders_to_items) = st.(num_bidders);
  sized_items_to_bidders : length st.(items_to_bidders) = st.(num_bidders);
  sized_sentinel : ¬ valid_index st.(num_bidders) k_invalid_index;
}.

(** What [sanity_check] tests: an entry that is not the sentinel is an
    index, and the two vectors are inverse to each other on such entries. *)
Record ledger_ok (st : AuctionRunnerGS) : Prop := {
  ledger_sized : sized st;
  ledger_bidders_to_items : ∀ (b : nat) (i : Z),
    st.(bidders_to_items) !! b = Some i → i ≠ k_invalid_index →
    0 ≤ i ∧ st.(items_to_bidders) !! Z.to_nat i = Some (Z.of_nat b);
  ledger_items_to_bidders : ∀ (i : nat) (b : Z),
    st.(items_to_bidders) !! i = Some b → b ≠ k_invalid_index →
    0 ≤ b ∧ st.(bidders_to_items) !! Z.to_nat b = Some (Z.of_nat i);
}.

(** During a phase the unassigned set holds every bidder without an item,
    and a bidder index in it has no item. *)
Record unassigned_ok (st : AuctionRunnerGS) : Prop := {
  unassigned_complete : ∀ b : nat,
    st.(bidders_to_items) !! b = Some k_invalid_index →
    Z.of_nat b ∈ st.(unassigned_bidders);
  unassigned_sound : ∀ b : Z,
    b ∈ st.(unassigned_bidders) → valid_index st.(num_bidders) b →
    st.(bidders_to_items) !! Z.to_nat b = Some k_invalid_index;
}.

(** The cost of the current matching, summed bidder by bidder from the
    points: the sum of [dist_lp(bidders[b], items[bidders_to_items[b]])^q].
    An entry outside the vectors contributes nothing. *)
Definition pair_cost (st : AuctionRunnerGS) (b : nat) : R :=
  match st.(bidders) !! b, st.(bidders_to_items) !! b with
  | Some pb, Some i =>
      match st.(items) !! Z.to_nat i with
      | Some pi =>
          real_pow (dist_lp pb pi st.(params).(internal_p) st.(params).(dim))
                   st.(params).(wasserstein_power)
      | None => real_of_Z 0
      end
  | _, _ => real_of_Z 0
  end.

Definition matching_cost (st : AuctionRunnerGS) : R :=
  foldl (λ r b, (r + pair_cost st b)%real) (real_of_Z 0)
        (seq 0 st.(num_bidders)).

(** Every bidder holds an item that is an index. *)
Definition complete_matching (st : AuctionRunnerGS) : Prop :=
  ∀ b : nat, (b < st.(num_bidders))%nat →
    ∃ i : Z, st.(bidders_to_items) !! b = Some i
             ∧ valid_index st.(num_bidders) i.

(** The certified bound of the specification, for a matching of cost
    [current_cost] found at [epsilon] with [N] bidders:
    [(current_cost^(1/q) - denominator^(1/q)) / denominator^(1/q)] with
    [denominator = current_cost - N * epsilon]. *)
Definition relative_error_bound (current_cost : R) (N : nat)
    (epsilon q : R) : R :=
  ((real_pow current_cost (real_of_Z 1 / q)
    - real_pow (current_cost - real_of_Z (Z.of_nat N) * epsilon)
               (real_of_Z 1 / q))
   / real_pow (current_cost - real_of_Z (Z.of_nat N) * epsilon)
              (real_of_Z 1 / q))%real.

(** Two results that differ in their counters only. *)
Definition same_but_counters (r r' : AuctionResult R) : Prop :=
  r'.(cost) = r.(cost) ∧ r'.(distance) = r.(distance)
  ∧ r'.(final_relative_error) = r.(final_relative_error)
  ∧ r'.(start_epsilon) = r.(start_epsilon)
  ∧ r'.(final_epsilon) = r.(final_epsilon)
  ∧ r'.(prices) = r.(prices) ∧ r'.(matching) = r.(matching).

(** Two runners with the same points, sizes and parameters. *)
Definition same_input (st st' : AuctionRunnerGS) : Prop :=
  st'.(bidders) = st.(bidders) ∧ st'.(items) = st.(items)
  ∧ st'.(num_bidders) = st.(num_bidders)
  ∧ st'.(num_items) = st.(num_items)
  ∧ st'.(params) = st.(params).

(** The epsilons of [n] successive phases that start at [epsilon], each the
    previous one divided by [ratio]. *)
Fixpoint epsilon_schedule (ratio epsilon : R) (n : nat) : list R :=
  match n with
  | 0%nat => []
  | S n' => epsilon :: epsilon_schedule ratio (epsilon / ratio)%real n'
  end.

(** A runner at the head of the phase loop: vectors of the right size, no
    unassigned bidder left over, and as many points as bidders on both
    sides. *)
Definition loop_ready (st : AuctionRunnerGS) : Prop :=
  sized st ∧ st.(unassigned_bidders) = ∅
  ∧ length st.(bidders) = st.(num_bidders)
  ∧ length st.(items) = st.(num_bidders).

(** The ratio and the first epsilon the constructor stores. *)
Definition effective_ratio (p : AuctionParams R) : R :=
  if (p.(epsilon_common_ratio) =? real_of_Z 0)%real then real_of_Z 5
  else p.(epsilon_common_ratio).

Definition effective_epsilon (A B : list Point) (p : AuctionParams R)
    (prices0 : list R) : R :=
  if (p.(initial_epsilon) =? real_of_Z 0)%real
  then (oracle_max_val_
          (match prices0 with
           | [] => oracle_make A B p
           | _ => oracle_set_prices prices0 (oracle_make A B p)
           end) / real_of_Z 4)%real
  else p.(initial_epsilon).

End Runner.

(** ** A concrete instantiation, for running the runner on inputs

    Scalars are rationals, points are rationals on a line, the unordered set
    hands out the first element of its enumeration, and the oracle is a test
    double that answers from a script of items and, when the script is used
    up, gives every bidder the item of its own index. *)
Module Instances.

(** [std::pow] on rationals, for exponents that are integers. *)
Definition Qpow_int (x y : Q) : Q :=
  Qred (Qpower x (Qnum y / Z.pos (Qden y))).

#[export] Instance Q_RealType : RealType Q := {|
  real_of_Z := inject_Z;
  real_add := Qplus;
  real_sub := Qminus;
  real_mul := Qmult;
  real_div := Qdiv;
  real_leb := Qle_bool;
  real_ltb := λ a b, negb (Qle_bool b a);
  real_eqb := λ a b, Qle_bool a b && Qle_bool b a;
  real_pow := Qpow_int;
  real_max := inject_Z (2 ^ 1024 - 2 ^ 971);
|}.

Record ScriptOracle : Type := mkScriptOracle {
  so_epsilon : Q;
  so_prices : list Q;
  so_max_val : Q;
  so_script : list Z;
}.

#[export] Instance Script_AuctionOracle
    : AuctionOracle Q Q (AuctionParams Q) ScriptOracle := {|
  oracle_make := λ A B _,
    mkScriptOracle (inject_Z 0) (replicate (length B) (inject_Z 0))
                   (inject_Z 8) [];
  oracle_set_prices := λ ps o,
    mkScriptOracle o.(so_epsilon) ps o.(so_max_val) o.(so_script);
  oracle_get_prices := so_prices;
  oracle_max_val_ := so_max_val;
  oracle_adjust_prices := λ o, o;
  oracle_set_epsilon := λ e o,
    mkScriptOracle e o.(so_prices) o.(so_max_val) o.(so_script);
  oracle_get_epsilon := so_epsilon;
  oracle_get_optimal_bid := λ b o,
    match o.(so_script) with
    | [] => ((b, inject_Z 0), o)
    | i :: script =>
        ((i, inject_Z 0),
         mkScriptOracle o.(so_epsilon) o.(so_prices) o.(so_max_val) script)
    end;
  oracle_set_price := λ i v o,
    mkScriptOracle o.(so_epsilon)
      (if bool_decide (0 ≤ i) then <[Z.to_nat i := v]> o.(so_prices)
       else o.(so_prices))
      o.(so_max_val) o.(so_script);
|}.

Definition with_script (script : list Z) (o : ScriptOracle) : ScriptOracle :=
  mkScriptOracle o.(so_epsilon) o.(so_prices) o.(so_max_val) script.

Definition first_element (s : gset Z) : option Z := head (elements s).

(** The ground distance of two points of the line. *)
Definition dist_line (a b : Q) (_ : Q) (_ : Z) : Q := Qred (Qabs (a - b)).

Definition test_params (ratio eps0 dlt : Q) (phases : Z) (tol : bool)
    : AuctionParams Q :=
  mkParams (inject_Z 1) (inject_Z 1) 1 dlt eps0 ratio phases tol false.

(** A build: the sentinel is the largest [int]; ids are indices. *)
Definition int_max : Z := 2147483647.

Definition test_build (debug ndebug : bool) : Declarations Q Q := {|
  k_invalid_index := int_max;
  def_DEBUG_AUCTION := debug;
  FOR_R_TDA := false;
  NDEBUG := ndebug;
  dist_lp := dist_line;
  tolerate_invalid_idx_default := false;
  get_bidder_id := λ _ b, Z.of_nat b;
  get_bidders_item_id := λ _ b2i b, default (-1) (b2i !! b);
|}.

(** Two bidders at 0 and 3, two items at 1 and 5. *)
Definition two_bidders : list Q := [inject_Z 0; inject_Z 3].
Definition two_items : list Q := [inject_Z 1; inject_Z 5].

(** A runner of the test build on these points, its oracle answering from
    [script]. *)
Definition test_runner (debug ndebug : bool) (p : AuctionParams Q)
    (script : list Z) : res (@AuctionRunnerGS Q Q ScriptOracle) :=
  st ← constructor (DC := test_build debug ndebug) two_bidders two_items p
         [];
  Ok (with_oracle (with_script script st.(oracle)) st).

(** Bidder 0 holds item 0, bidder 1 holds nothing. *)
Definition half_assigned : @AuctionRunnerGS Q Q ScriptOracle :=
  mkRunner two_bidders two_items 2 2 [0; int_max] [0; int_max]
    (test_params 5 1 (1 # 100) 3 false)
    (oracle_make two_bidders two_items (test_params 5 1 (1 # 100) 3 false))
    {[1]} AuctionResult_default false.

(** Bidder 0 holds item 1 and bidder 1 holds item 0. *)
Definition crossed : @AuctionRunnerGS Q Q ScriptOracle :=
  mkRunner two_bidders two_items 2 2 [1; 0] [1; 0]
    (test_params 5 1 (1 # 100) 3 false)
    (oracle_make two_bidders two_items (test_params 5 1 (1 # 100) 3 false))
    ∅ AuctionResult_default false.

End Instances.

(** * Properties *)

(** ** Inversion of the outcomes *)

Lemma bind_Ok {A B : Type} (m : res A) (k : A → res B) (b : B) :
  (m ≫= k) = Ok b ↔ ∃ a, m = Ok a ∧ k a = Ok b.
Proof.
  destruct m as [a|f]; simpl; split.
  - intros Hk. by exists a.
  - by intros (a' & [= ->] & Hk).
  - intros [=].
  - by intros (a' & [=] & _).
Qed.

Lemma vec_get_Ok {A : Type} (v : list A) (i : Z) (x : A) :
  vec_get v i = Ok x ↔ 0 ≤ i ∧ v !! Z.to_nat i = Some x.
Proof.
  unfold vec_get. destruct (Z.leb_spec 0 i) as [Hi|Hi].
  - destruct (v !! Z.to_nat i) as [y|]; split.
    + by intros [= ->].
    + by intros (_ & [= ->]).
    + intros [=].
    + by intros (_ & [=]).
  - split; [intros [=] | lia].
Qed.

Lemma vec_at_Ok {A : Type} (v : list A) (i : Z) (x : A) :
  vec_at v i = Ok x ↔ 0 ≤ i ∧ v !! Z.to_nat i = Some x.
Proof.
  unfold vec_at. destruct (Z.leb_spec 0 i) as [Hi|Hi].
  - destruct (v !! Z.to_nat i) as [y|]; split.
    + by intros [= ->].
    + by intros (_ & [= ->]).
    + intros [=].
    + by intros (_ & [=]).
  - split; [intros [=] | lia].
Qed.

Lemma vec_set_Ok {A : Type} (v : list A) (i : Z) (x : A) (v' : list A) :
  vec_set v i x = Ok v'
  ↔ 0 ≤ i < Z.of_nat (length v) ∧ v' = <[Z.to_nat i := x]> v.
Proof.
  unfold vec_set.
  destruct (Z.leb_spec 0 i) as [Hi|Hi];
    [destruct (Z.ltb_spec i (Z.of_nat (length v))) as [Hl|Hl]|]; simpl; split.
  - intros [= <-]. split; [lia|done].
  - by intros [_ ->].
  - intros [=].
  - intros [? _]. lia.
  - intros [=].
  - intros [? _]. lia.
Qed.

Lemma vec_get_of_nat {A : Type} (v : list A) (i : nat) (x : A) :
  v !! i = Some x → vec_get v (Z.of_nat i) = Ok x.
Proof. intros Hx. apply vec_get_Ok. rewrite Nat2Z.id. split; [lia|done]. Qed.

Lemma vec_at_of_nat {A : Type} (v : list A) (i : nat) (x : A) :
  v !! i = Some x → vec_at v (Z.of_nat i) = Ok x.
Proof. intros Hx. apply vec_at_Ok. rewrite Nat2Z.id. split; [lia|done]. Qed.

(** A loop whose body succeeds on every index without changing the state
    succeeds. *)
Lemma for_each_unit_Ok (l : list nat) (body : nat → unit → res unit) :
  (∀ i, i ∈ l → body i tt = Ok tt) → for_each l body tt = Ok tt.
Proof.
  induction l as [|i l IH]; intros Hbody; simpl; [done|].
  rewrite Hbody by left. simpl. apply IH. intros j Hj. apply Hbody. by right.
Qed.

(** An element found at one position only occurs once. *)
Lemma count_occ_le_1 (l : list Z) (x : Z) :
  (∀ i j : nat, l !! i = Some x → l !! j = Some x → i = j) →
  (count_occ Z.eq_dec l x ≤ 1)%nat.
Proof.
  induction l as [|y l IH]; intros Hinj; simpl; [lia|].
  destruct (Z.eq_dec y x) as [->|Hne].
  - assert (count_occ Z.eq_dec l x = 0%nat) as ->; [|lia].
    apply count_occ_not_In. intros Hin.
    apply list_elem_of_In, list_elem_of_lookup in Hin as [j Hj].
    by specialize (Hinj 0%nat (S j) eq_refl Hj).
  - apply IH. intros i j Hi Hj.
    by specialize (Hinj (S i) (S j) Hi Hj) as [= ->].
Qed.

(** ** The ledger *)

Section LedgerFacts.
Context {R : Type} {RT : RealType R} {Point AO : Type}.
Context {OR : AuctionOracle R Point (AuctionParams R) AO}.
Context {US : UnorderedSetBegin} {DC : Declarations R Point}.

Implicit Types st : @AuctionRunnerGS R Point AO.

Lemma assert_Ok (c : res bool) :
  assert_ c = Ok tt ↔ NDEBUG = true ∨ c = Ok true.
Proof.
  unfold assert_. destruct NDEBUG.
  - split; [by left|done].
  - destruct c as [[]|]; simpl; split; intros Hc;
      try done; try (by right); by destruct Hc.
Qed.

Lemma assert_true (c : bool) : c = true → assert_ (Ok c) = Ok tt.
Proof. intros ->. apply assert_Ok. by right. Qed.

Lemma ledger_entry_valid st (b : nat) (i : Z) :
  ledger_ok st → st.(bidders_to_items) !! b = Some i → i ≠ k_invalid_index →
  valid_index st.(num_bidders) i.
Proof.
  intros Hok Hb Hi. destruct (ledger_bidders_to_items _ Hok b i Hb Hi) as [? Hl].
  apply lookup_lt_Some in Hl.
  rewrite (sized_items_to_bidders _ (ledger_sized _ Hok)) in Hl.
  unfold valid_index. lia.
Qed.

Lemma ledger_owner_valid st (i : nat) (b : Z) :
  ledger_ok st → st.(items_to_bidders) !! i = Some b → b ≠ k_invalid_index →
  valid_index st.(num_bidders) b.
Proof.
  intros Hok Hb Hi. destruct (ledger_items_to_bidders _ Hok i b Hb Hi) as [? Hl].
  apply lookup_lt_Some in Hl.
  rewrite (sized_bidders_to_items _ (ledger_sized _ Hok)) in Hl.
  unfold valid_index. lia.
Qed.

Lemma sanity_check_bidder_Ok st (b : nat) :
  ledger_ok st → (b < st.(num_bidders))%nat → sanity_check_bidder st b tt = Ok tt.
Proof.
  intros Hok Hb. pose proof (ledger_sized _ Hok) as Hsz.
  destruct (lookup_lt_is_Some_2 st.(bidders_to_items) b) as [x Hx].
  { by rewrite (sized_bidders_to_items _ Hsz). }
  unfold sanity_check_bidder. rewrite (vec_get_of_nat _ _ _ Hx). simpl.
  destruct (Z.eqb_spec x k_invalid_index) as [->|Hx'].
  { rewrite assert_true by done. done. }
  pose proof (ledger_entry_valid _ _ _ Hok Hx Hx') as [Hx0 HxN].
  destruct (ledger_bidders_to_items _ Hok b x Hx Hx') as [_ Hback].
  rewrite assert_true; simpl.
  2:{ rewrite (sized_num_items _ Hsz).
      apply andb_true_iff; split; [by apply Z.ltb_lt | by apply Z.leb_le]. }
  assert (count_occ Z.eq_dec st.(bidders_to_items) x ≤ 1)%nat as Hcount.
  { apply count_occ_le_1. intros i j Hi Hj.
    destruct (ledger_bidders_to_items _ Hok i x Hi Hx') as [_ Hi'].
    destruct (ledger_bidders_to_items _ Hok j x Hj Hx') as [_ Hj'].
    rewrite Hi' in Hj'. injection Hj' as Hij. lia. }
  destruct (Nat.ltb_spec 1 (count_occ Z.eq_dec st.(bidders_to_items) x));
    [lia|].
  assert (vec_at st.(items_to_bidders) x = Ok (Z.of_nat b)) as ->.
  { by apply vec_at_Ok. }
  simpl. by rewrite Z.eqb_refl.
Qed.

Lemma sanity_check_item_Ok st (i : nat) :
  ledger_ok st → (i < st.(num_bidders))%nat → sanity_check_item st i tt = Ok tt.
Proof.
  intros Hok Hb. pose proof (ledger_sized _ Hok) as Hsz.
  destruct (lookup_lt_is_Some_2 st.(items_to_bidders) i) as [x Hx].
  { by rewrite (sized_items_to_bidders _ Hsz). }
  unfold sanity_check_item. rewrite (vec_get_of_nat _ _ _ Hx).
  rewrite (vec_at_of_nat _ _ _ Hx). simpl.
  destruct (Z.eqb_spec x k_invalid_index) as [->|Hx'].
  { rewrite assert_true by done. done. }
  pose proof (ledger_owner_valid _ _ _ Hok Hx Hx') as [Hx0 HxN].
  destruct (ledger_items_to_bidders _ Hok i x Hx Hx') as [_ Hback].
  rewrite assert_true; simpl.
  2:{ rewrite (sized_num_items _ Hsz).
      apply andb_true_iff; split; [by apply Z.ltb_lt | by apply Z.leb_le]. }
  assert (count_occ Z.eq_dec st.(items_to_bidders) x ≤ 1)%nat as Hcount.
  { apply count_occ_le_1. intros j k Hj Hk.
    destruct (ledger_items_to_bidders _ Hok j x Hj Hx') as [_ Hj'].
    destruct (ledger_items_to_bidders _ Hok k x Hk Hx') as [_ Hk'].
    rewrite Hj' in Hk'. injection Hk' as Hjk. lia. }
  destruct (Nat.ltb_spec 1 (count_occ Z.eq_dec st.(items_to_bidders) x));
    [lia|].
  assert (vec_at st.(bidders_to_items) x = Ok (Z.of_nat i)) as ->.
  { by apply vec_at_Ok. }
  simpl. by rewrite Z.eqb_refl.
Qed.

(** On a consistent ledger [sanity_check] returns, in every build. *)
Lemma sanity_check_Ok st : ledger_ok st → sanity_check st = Ok tt.
Proof.
  intros Hok. pose proof (ledger_sized _ Hok) as Hsz.
  unfold sanity_check. destruct DEBUG_AUCTION; [|done].
  rewrite (sized_bidders_to_items _ Hsz), (sized_items_to_bidders _ Hsz).
  rewrite Nat.eqb_refl. simpl.
  rewrite (for_each_unit_Ok _ (sanity_check_bidder st)); simpl.
  - apply for_each_unit_Ok. intros i Hi%elem_of_seq.
    apply sanity_check_item_Ok; [done|lia].
  - intros b Hb%elem_of_seq. apply sanity_check_bidder_Ok; [done|lia].
Qed.

(** What a returning call of [assign_item_to_bidder] did. *)
Lemma assign_item_to_bidder_inv st st' (item_idx bidder_idx : Z) :
  assign_item_to_bidder item_idx bidder_idx st = Ok st' →
  ∃ old : Z,
    0 ≤ bidder_idx < Z.of_nat (length st.(bidders_to_items))
    ∧ 0 ≤ item_idx < Z.of_nat (length st.(items_to_bidders))
    ∧ st.(items_to_bidders) !! Z.to_nat item_idx = Some old
    ∧ (old ≠ k_invalid_index →
       0 ≤ old < Z.of_nat (length st.(bidders_to_items)))
    ∧ st'.(items_to_bidders)
      = <[Z.to_nat item_idx := bidder_idx]> st.(items_to_bidders)
    ∧ st'.(bidders_to_items)
      = (if old =? k_invalid_index
         then <[Z.to_nat bidder_idx := item_idx]> st.(bidders_to_items)
         else <[Z.to_nat old := k_invalid_index]>
                (<[Z.to_nat bidder_idx := item_idx]> st.(bidders_to_items)))
    ∧ st'.(unassigned_bidders)
      = (if old =? k_invalid_index
         then st.(unassigned_bidders) ∖ {[bidder_idx]}
         else st.(unassigned_bidders) ∖ {[bidder_idx]} ∪ {[old]})
    ∧ st'.(result)
      = set_num_rounds (st.(result).(num_rounds) + 1) st.(result)
    ∧ st'.(bidders) = st.(bidders) ∧ st'.(items) = st.(items)
    ∧ st'.(num_bidders) = st.(num_bidders)
    ∧ st'.(num_items) = st.(num_items)
    ∧ st'.(params) = st.(params) ∧ st'.(oracle) = st.(oracle)
    ∧ st'.(is_distance_computed) = st.(is_distance_computed).
Proof.
  unfold assign_item_to_bidder. intros Hrun.
  apply bind_Ok in Hrun as (_ & _ & Hrun).
  apply bind_Ok in Hrun as (_ & _ & Hrun).
  apply bind_Ok in Hrun as (old & Hold & Hrun).
  apply bind_Ok in Hrun as (b2i & Hb2i & Hrun).
  apply bind_Ok in Hrun as (i2b & Hi2b & Hrun).
  apply vec_get_Ok in Hold as [? Hold].
  apply vec_set_Ok in Hb2i as [? ->]. apply vec_set_Ok in Hi2b as [? ->].
  simpl in *. exists old.
  destruct (Z.eqb_spec old k_invalid_index) as [->|Hne]; simpl in Hrun.
  - injection Hrun as <-. simpl. repeat split; try done; lia.
  - apply bind_Ok in Hrun as (b2i' & Hb2i' & Hrun).
    apply vec_set_Ok in Hb2i' as [Hlen ->]. injection Hrun as <-. simpl.
    rewrite length_insert in Hlen. repeat split; try done; lia.
Qed.

Lemma sentinel_not_index st (b : nat) :
  sized st → (b < st.(num_bidders))%nat → Z.of_nat b ≠ k_invalid_index.
Proof.
  intros Hsz Hb Heq. apply (sized_sentinel _ Hsz). rewrite <- Heq.
  unfold valid_index. lia.
Qed.

(** [assign_item_to_bidder] keeps the ledger consistent when the bidder
    holds no item. *)
Lemma assign_item_to_bidder_ledger_ok st st' (item_idx bidder_idx : Z) :
  ledger_ok st →
  st.(bidders_to_items) !! Z.to_nat bidder_idx = Some k_invalid_index →
  assign_item_to_bidder item_idx bidder_idx st = Ok st' →
  ledger_ok st'.
Proof.
  intros Hok Hfree Hrun. pose proof (ledger_sized _ Hok) as Hsz.
  destruct (assign_item_to_bidder_inv _ _ _ _ Hrun)
    as (old & Hb & Hi & Hold & Holdv & Hi2b & Hb2i & _ & _ & _ & _
        & HN & HNi & _).
  pose proof (sized_bidders_to_items _ Hsz) as Hlb.
  pose proof (sized_items_to_bidders _ Hsz) as Hli.
  assert (Hitem : item_idx ≠ k_invalid_index).
  { intros ->. apply (sized_sentinel _ Hsz). unfold valid_index. lia. }
  assert (Hbid : bidder_idx ≠ k_invalid_index).
  { intros ->. apply (sized_sentinel _ Hsz). unfold valid_index. lia. }
  assert (Hown : old ≠ k_invalid_index →
                 0 ≤ old ∧ st.(bidders_to_items) !! Z.to_nat old
                           = Some item_idx).
  { intros Hne.
    destruct (ledger_items_to_bidders _ Hok _ _ Hold Hne) as [? Hl].
    split; [done|]. rewrite Hl. f_equal. lia. }
  assert (Hneq : old ≠ bidder_idx).
  { intros ->. destruct (Hown Hbid) as [_ Hl]. congruence. }
  split.
  - split; rewrite ?HN, ?HNi; try apply Hsz.
    + rewrite Hb2i. destruct (old =? k_invalid_index);
        by rewrite ?length_insert.
    + by rewrite Hi2b, length_insert.
  - intros b i Hl Hne. rewrite Hi2b.
    assert (Hcases : (b = Z.to_nat bidder_idx ∧ i = item_idx)
                     ∨ (b ≠ Z.to_nat bidder_idx ∧ Z.of_nat b ≠ old
                        ∧ st.(bidders_to_items) !! b = Some i)).
    { rewrite Hb2i in Hl.
      destruct (Z.eqb_spec old k_invalid_index) as [->|Hne'].
      - apply list_lookup_insert_Some in Hl as [(<- & <- & _)|[? Hl]];
          [by left|right]. split; [done|]. split; [|done].
        apply (sentinel_not_index st); [done|].
        apply lookup_lt_Some in Hl. lia.
      - apply list_lookup_insert_Some in Hl as [(_ & <- & _)|[? Hl]];
          [done|].
        apply list_lookup_insert_Some in Hl as [(<- & <- & _)|[? Hl]];
          [by left|right]. split; [done|]. split; [lia|done]. }
    destruct Hcases as [[-> ->]|(Hb1 & Hb2 & Hl')].
    + split; [lia|]. rewrite list_lookup_insert_eq by lia. f_equal. lia.
    + destruct (ledger_bidders_to_items _ Hok _ _ Hl' Hne) as [Hi0 Hback].
      split; [done|]. rewrite list_lookup_insert_ne; [done|].
      intros Heq. rewrite <- Heq, Hold in Hback. congruence.
  - intros i b Hl Hne. rewrite Hi2b in Hl.
    apply list_lookup_insert_Some in Hl as [(<- & <- & _)|[Hi' Hl]].
    + split; [lia|]. rewrite Hb2i, Z2Nat.id by lia.
      destruct (Z.eqb_spec old k_invalid_index) as [->|Hne'].
      * by rewrite list_lookup_insert_eq by lia.
      * destruct (Hown Hne') as [Hold0 _].
        rewrite list_lookup_insert_ne by lia.
        by rewrite list_lookup_insert_eq by lia.
    + destruct (ledger_items_to_bidders _ Hok _ _ Hl Hne) as [Hb0 Hback].
      split; [done|].
      assert (Z.to_nat b ≠ Z.to_nat bidder_idx) as Hnb.
      { intros Heq. rewrite Heq, Hfree in Hback.
        injection Hback as Hback. apply lookup_lt_Some in Hl.
        by apply (sentinel_not_index st i Hsz); [lia|]. }
      rewrite Hb2i.
      destruct (Z.eqb_spec old k_invalid_index) as [->|Hne'].
      * by rewrite list_lookup_insert_ne.
      * destruct (Hown Hne') as [Hold0 Hold'].
        rewrite list_lookup_insert_ne.
        { by rewrite list_lookup_insert_ne. }
        intros Heq. rewrite <- Heq, Hold' in Hback.
        injection Hback as Hback. lia.
Qed.

(** ... and the unassigned set in step with it. *)
Lemma assign_item_to_bidder_unassigned_ok st st' (item_idx bidder_idx : Z) :
  ledger_ok st → unassigned_ok st →
  st.(bidders_to_items) !! Z.to_nat bidder_idx = Some k_invalid_index →
  assign_item_to_bidder item_idx bidder_idx st = Ok st' →
  unassigned_ok st'.
Proof.
  intros Hok [Hcomplete Hsound] Hfree Hrun.
  pose proof (ledger_sized _ Hok) as Hsz.
  destruct (assign_item_to_bidder_inv _ _ _ _ Hrun)
    as (old & Hb & Hi & Hold & Holdv & _ & Hb2i & Hun & _ & _ & _
        & HN & _).
  pose proof (sized_bidders_to_items _ Hsz) as Hlb.
  pose proof (sized_items_to_bidders _ Hsz) as Hli.
  assert (Hitem : item_idx ≠ k_invalid_index).
  { intros ->. apply (sized_sentinel _ Hsz). unfold valid_index. lia. }
  split.
  - intros b Hl. rewrite Hun. rewrite Hb2i in Hl.
    destruct (Z.eqb_spec old k_invalid_index) as [->|Hne'].
    + apply list_lookup_insert_Some in Hl as [(_ & ? & _)|[? Hl]]; [done|].
      apply elem_of_difference. split; [by apply Hcomplete|].
      rewrite elem_of_singleton. lia.
    + apply list_lookup_insert_Some in Hl as [(Hbo & _ & _)|[? Hl]].
      { apply elem_of_union_r, elem_of_singleton. specialize (Holdv Hne'). lia. }
      apply list_lookup_insert_Some in Hl as [(_ & ? & _)|[? Hl]]; [done|].
      apply elem_of_union_l, elem_of_difference.
      split; [by apply Hcomplete|]. rewrite elem_of_singleton. lia.
  - intros b Hin Hv. rewrite HN in Hv. rewrite Hun in Hin. rewrite Hb2i.
    destruct Hv as [Hv0 HvN].
    destruct (Z.eqb_spec old k_invalid_index) as [->|Hne'].
    + apply elem_of_difference in Hin as [Hin Hnb].
      rewrite elem_of_singleton in Hnb.
      rewrite list_lookup_insert_ne by lia. by apply Hsound.
    + apply elem_of_union in Hin as [Hin|Hin].
      * apply elem_of_difference in Hin as [Hin Hnb].
        rewrite elem_of_singleton in Hnb.
        destruct (decide (Z.to_nat old = Z.to_nat b)) as [Heq|Hneq].
        { rewrite Heq. rewrite list_lookup_insert_eq; [done|].
          rewrite length_insert. lia. }
        rewrite !list_lookup_insert_ne by lia. by apply Hsound.
      * apply elem_of_singleton in Hin as ->.
        rewrite list_lookup_insert_eq; [done|]. rewrite length_insert. lia.
Qed.

Lemma vec_set_valid {A : Type} (v : list A) (i : Z) (x : A) :
  0 ≤ i < Z.of_nat (length v) → vec_set v i x = Ok (<[Z.to_nat i := x]> v).
Proof. intros Hi. by apply vec_set_Ok. Qed.

Lemma ledger_ok_with_result st (r : AuctionResult R) :
  ledger_ok st → ledger_ok (with_result r st).
Proof.
  intros [Hs Hb Hi]. split; [|exact Hb|exact Hi].
  destruct Hs. by split.
Qed.

(** On a consistent ledger, a call with indices of the vectors and a bidder
    that holds no item returns. *)
Lemma assign_item_to_bidder_returns st (item_idx bidder_idx : Z) :
  ledger_ok st →
  valid_index st.(num_bidders) item_idx →
  valid_index st.(num_bidders) bidder_idx →
  st.(bidders_to_items) !! Z.to_nat bidder_idx = Some k_invalid_index →
  ∃ st', assign_item_to_bidder item_idx bidder_idx st = Ok st'.
Proof.
  intros Hok [Hi0 HiN] [Hb0 HbN] Hfree.
  pose proof (ledger_sized _ Hok) as Hsz.
  pose proof (sized_bidders_to_items _ Hsz) as Hlb.
  pose proof (sized_items_to_bidders _ Hsz) as Hli.
  destruct (lookup_lt_is_Some_2 st.(items_to_bidders) (Z.to_nat item_idx))
    as [old Hold]; [lia|].
  unfold assign_item_to_bidder.
  rewrite sanity_check_Ok; [|by apply ledger_ok_with_result].
  simpl.
  assert (vec_get st.(bidders_to_items) bidder_idx = Ok k_invalid_index)
    as Hget; [by apply vec_get_Ok|].
  rewrite (proj2 (assert_Ok _)).
  2:{ right. rewrite Hget. simpl. by rewrite Z.eqb_refl. }
  simpl.
  assert (vec_get st.(items_to_bidders) item_idx = Ok old) as ->;
    [by apply vec_get_Ok|].
  simpl. rewrite !vec_set_valid by lia. simpl.
  destruct (Z.eqb_spec old k_invalid_index) as [->|Hne]; simpl.
  { eauto. }
  destruct (ledger_owner_valid _ _ _ Hok Hold Hne) as [Ho0 HoN].
  rewrite vec_set_valid by (rewrite length_insert; lia). simpl. eauto.
Qed.

(** C6. [assign_item_to_bidder(item, bidder)] on a consistent ledger, with
    both indices in range and a bidder that holds no item: the call
    returns; a previous holder [old] of the item loses it (its entry is the
    sentinel, and it is in the unassigned set); the two vectors record the
    new pair; the bidder is not in the unassigned set; the round counter is
    one larger; no other entry of the two vectors changes; and the
    unassigned set is exactly the old one without the bidder and, when the
    item was held, with its previous holder: nothing else enters or leaves
    it.  The rest of the result, the oracle, the parameters and the points
    are as before. *)
Theorem assign_item_to_bidder_effect st (item_idx bidder_idx old : Z) :
  ledger_ok st →
  valid_index st.(num_bidders) item_idx →
  valid_index st.(num_bidders) bidder_idx →
  st.(bidders_to_items) !! Z.to_nat bidder_idx = Some k_invalid_index →
  st.(items_to_bidders) !! Z.to_nat item_idx = Some old →
  ∃ st',
    assign_item_to_bidder item_idx bidder_idx st = Ok st'
    ∧ (old ≠ k_invalid_index →
       (old ≠ bidder_idx)
       ∧ st'.(bidders_to_items) !! Z.to_nat old = Some k_invalid_index
       ∧ old ∈ st'.(unassigned_bidders))
    ∧ st'.(bidders_to_items) !! Z.to_nat bidder_idx = Some item_idx
    ∧ st'.(items_to_bidders) !! Z.to_nat item_idx = Some bidder_idx
    ∧ (bidder_idx ∉ st'.(unassigned_bidders))
    ∧ st'.(result).(num_rounds) = st.(result).(num_rounds) + 1
    ∧ (∀ b : nat, Z.of_nat b ≠ bidder_idx →
         (old ≠ k_invalid_index → Z.of_nat b ≠ old) →
         st'.(bidders_to_items) !! b = st.(bidders_to_items) !! b)
    ∧ (∀ i : nat, Z.of_nat i ≠ item_idx →
         st'.(items_to_bidders) !! i = st.(items_to_bidders) !! i)
    ∧ (∀ b : Z,
         b ∈ st'.(unassigned_bidders)
         ↔ b ≠ bidder_idx
           ∧ (b ∈ st.(unassigned_bidders)
              ∨ (old ≠ k_invalid_index ∧ b = old)))
    ∧ st'.(result)
      = set_num_rounds (st.(result).(num_rounds) + 1) st.(result)
    ∧ st'.(oracle) = st.(oracle) ∧ st'.(params) = st.(params)
    ∧ st'.(bidders) = st.(bidders) ∧ st'.(items) = st.(items).
Proof.
  intros Hok Hiv Hbv Hfree Hold.
  destruct (assign_item_to_bidder_returns _ _ _ Hok Hiv Hbv Hfree)
    as [st' Hrun].
  exists st'. split; [done|].
  pose proof (assign_item_to_bidder_ledger_ok _ _ _ _ Hok Hfree Hrun) as Hok'.
  destruct (assign_item_to_bidder_inv _ _ _ _ Hrun)
    as (old' & Hb & Hi & Hold' & Holdv & Hi2b & Hb2i & Hun & Hres & HA
        & HB & _ & _ & Hpar & Hor & _).
  rewrite Hold in Hold'. injection Hold' as <-.
  pose proof (ledger_sized _ Hok) as Hsz.
  assert (Hbid : bidder_idx ≠ k_invalid_index).
  { intros ->. by apply (sized_sentinel _ Hsz). }
  assert (Hneq : old ≠ k_invalid_index → old ≠ bidder_idx).
  { intros Hne ->.
    destruct (ledger_items_to_bidders _ Hok _ _ Hold Hne) as [_ Hl].
    rewrite Hfree in Hl. injection Hl as Hl.
    apply (sized_sentinel _ Hsz). rewrite Hl. destruct Hiv.
    unfold valid_index. lia. }
  rewrite Hi2b, Hb2i, Hun, Hres.
  destruct (Z.eqb_spec old k_invalid_index) as [->|Hne].
  - split; [done|].
    split; [apply list_lookup_insert_eq; lia|].
    split; [apply list_lookup_insert_eq; lia|].
    split; [set_solver|]. split; [done|].
    split; [intros b Hb1 _; apply list_lookup_insert_ne; lia|].
    split; [intros i Hi1; apply list_lookup_insert_ne; lia|].
    split; [intros b; set_solver|]. done.
  - specialize (Hneq Hne). specialize (Holdv Hne).
    split.
    { intros _. split; [done|].
      split; [apply list_lookup_insert_eq; rewrite length_insert; lia|].
      set_solver. }
    split.
    { rewrite list_lookup_insert_ne by lia.
      apply list_lookup_insert_eq. lia. }
    split; [apply list_lookup_insert_eq; lia|].
    split; [set_solver|]. split; [done|].
    split.
    { intros b Hb1 Hb2. specialize (Hb2 Hne).
      rewrite !list_lookup_insert_ne by lia. done. }
    split; [intros i Hi1; apply list_lookup_insert_ne; lia|].
    split; [intros b; set_solver|]. done.
Qed.

(** ** The phase engine *)

Lemma ledger_ok_with_oracle st (o : AO) :
  ledger_ok st → ledger_ok (with_oracle o st).
Proof.
  intros [Hs Hb Hi]. split; [|exact Hb|exact Hi].
  destruct Hs. by split.
Qed.

Lemma unassigned_ok_with_oracle st (o : AO) :
  unassigned_ok st → unassigned_ok (with_oracle o st).
Proof. intros [Hc Hs]. split; [exact Hc|exact Hs]. Qed.

Lemma unassigned_ok_with_result st (r : AuctionResult R) :
  unassigned_ok st → unassigned_ok (with_result r st).
Proof. intros [Hc Hs]. split; [exact Hc|exact Hs]. Qed.

(** What a returning call of [flush_assignment] did. *)
Lemma flush_assignment_inv st st' :
  flush_assignment st = Ok st' →
  st'.(bidders_to_items)
  = replicate (length st.(bidders_to_items)) k_invalid_index
  ∧ st'.(items_to_bidders)
    = replicate (length st.(items_to_bidders)) k_invalid_index
  ∧ st'.(unassigned_bidders)
    = st.(unassigned_bidders)
      ∪ list_to_set (Z.of_nat <$> seq 0 st.(num_bidders))
  ∧ st'.(oracle) = oracle_adjust_prices st.(oracle)
  ∧ st'.(result) = st.(result)
  ∧ st'.(bidders) = st.(bidders) ∧ st'.(items) = st.(items)
  ∧ st'.(num_bidders) = st.(num_bidders)
  ∧ st'.(num_items) = st.(num_items)
  ∧ st'.(params) = st.(params)
  ∧ st'.(is_distance_computed) = st.(is_distance_computed).
Proof.
  unfold flush_assignment. intros Hrun.
  apply bind_Ok in Hrun as (_ & _ & Hrun).
  apply bind_Ok in Hrun as (_ & _ & Hrun).
  injection Hrun as <-. by repeat split.
Qed.

(** After [flush_assignment] the ledger is empty and consistent, and every
    bidder is in the unassigned set. *)
Lemma flush_assignment_ledger_ok st st' :
  sized st → flush_assignment st = Ok st' →
  ledger_ok st' ∧ unassigned_ok st'.
Proof.
  intros [HNi Hlb Hli Hsent] Hrun.
  destruct (flush_assignment_inv _ _ Hrun)
    as (Hb2i & Hi2b & Hun & _ & _ & _ & _ & HN & HNi' & _).
  split; split.
  - split; rewrite ?HN, ?HNi', ?Hb2i, ?Hi2b, ?length_replicate; done.
  - intros b i Hl Hne. rewrite Hb2i in Hl.
    by apply lookup_replicate in Hl as [-> _].
  - intros i b Hl Hne. rewrite Hi2b in Hl.
    by apply lookup_replicate in Hl as [-> _].
  - intros b Hl. rewrite Hb2i in Hl. apply lookup_replicate in Hl as [_ Hb].
    rewrite Hun. apply elem_of_union_r, elem_of_list_to_set.
    apply list_elem_of_fmap. exists b. split; [done|].
    apply elem_of_seq. lia.
  - intros b _ [Hb0 HbN]. rewrite Hb2i. apply lookup_replicate_2.
    rewrite HN in HbN. lia.
Qed.

(** A round keeps both invariants. *)
Lemma bidding_round_ledger_ok st st' :
  ledger_ok st → unassigned_ok st → bidding_round st = Ok st' →
  ledger_ok st' ∧ unassigned_ok st'.
Proof.
  intros Hok Hun Hrun. unfold bidding_round in Hrun.
  destruct (uset_begin st.(unassigned_bidders)) as [bidder_idx|] eqn:Hbegin;
    [|done].
  apply uset_begin_elem in Hbegin.
  destruct (oracle_get_optimal_bid bidder_idx st.(oracle))
    as [[optimal_item_idx bid_value] o].
  apply bind_Ok in Hrun as (st1 & Hassign & Hrun). injection Hrun as <-.
  apply (ledger_ok_with_oracle _ o) in Hok.
  apply (unassigned_ok_with_oracle _ o) in Hun.
  destruct (assign_item_to_bidder_inv _ _ _ _ Hassign) as (_ & Hb & _).
  assert ((with_oracle o st).(bidders_to_items) !! Z.to_nat bidder_idx
          = Some k_invalid_index) as Hfree.
  { apply (unassigned_sound _ Hun); [done|].
    rewrite (sized_bidders_to_items _ (ledger_sized _ Hok)) in Hb.
    exact Hb. }
  split.
  - apply ledger_ok_with_oracle.
    apply (assign_item_to_bidder_ledger_ok _ _ _ _ Hok Hfree Hassign).
  - apply unassigned_ok_with_oracle.
    apply (assign_item_to_bidder_unassigned_ok _ _ _ _ Hok Hun Hfree
             Hassign).
Qed.

(** A bidding loop that returns leaves a consistent ledger and an empty
    unassigned set. *)
Lemma bidding_loop_ledger_ok (fuel : nat) st st' :
  ledger_ok st → unassigned_ok st → bidding_loop fuel st = Ok st' →
  ledger_ok st' ∧ unassigned_ok st' ∧ st'.(unassigned_bidders) = ∅.
Proof.
  revert st. induction fuel as [|fuel IH]; intros st Hok Hun Hrun;
    simpl in Hrun; [done|].
  apply bind_Ok in Hrun as (st1 & Hround & Hrun).
  destruct (bidding_round_ledger_ok _ _ Hok Hun Hround) as [Hok1 Hun1].
  destruct (bool_decide (st1.(unassigned_bidders) = ∅)) eqn:Hempty.
  - injection Hrun as <-. apply bool_decide_eq_true in Hempty. done.
  - by apply (IH st1).
Qed.

Lemma run_auction_phase_inv (fuel : nat) st st' :
  run_auction_phase fuel st = Ok st' →
  bidding_loop fuel
    (with_result (set_num_phases (st.(result).(num_phases) + 1) st.(result))
                 st) = Ok st'.
Proof.
  unfold run_auction_phase. intros Hrun.
  apply bind_Ok in Hrun as (st1 & Hloop & Hrun).
  apply bind_Ok in Hrun as (_ & _ & Hrun). by injection Hrun as <-.
Qed.

Lemma run_auction_phase_ledger_ok (fuel : nat) st st' :
  ledger_ok st → unassigned_ok st → run_auction_phase fuel st = Ok st' →
  ledger_ok st' ∧ unassigned_ok st' ∧ st'.(unassigned_bidders) = ∅.
Proof.
  intros Hok Hun Hrun%run_auction_phase_inv.
  apply (bidding_loop_ledger_ok fuel _ _
           (ledger_ok_with_result _ _ Hok)
           (unassigned_ok_with_result _ _ Hun) Hrun).
Qed.

(** A consistent ledger with no unassigned bidder is a perfect matching. *)
Lemma ledger_ok_perfect_matching st :
  ledger_ok st → unassigned_ok st → st.(unassigned_bidders) = ∅ →
  (∀ b : nat, (b < st.(num_bidders))%nat →
     ∃ i : Z, st.(bidders_to_items) !! b = Some i
              ∧ valid_index st.(num_bidders) i
              ∧ st.(items_to_bidders) !! Z.to_nat i = Some (Z.of_nat b))
  ∧ st.(bidders_to_items) ≡ₚ seqZ 0 (Z.of_nat st.(num_bidders)).
Proof.
  intros Hok Hun Hempty. pose proof (ledger_sized _ Hok) as Hsz.
  assert (Hheld : ∀ (b : nat) (i : Z),
            st.(bidders_to_items) !! b = Some i → i ≠ k_invalid_index).
  { intros b i Hl ->. apply (unassigned_complete _ Hun) in Hl.
    rewrite Hempty in Hl. by apply not_elem_of_empty in Hl. }
  split.
  - intros b Hb.
    destruct (lookup_lt_is_Some_2 st.(bidders_to_items) b) as [i Hi].
    { by rewrite (sized_bidders_to_items _ Hsz). }
    exists i. split; [done|]. split.
    + apply (ledger_entry_valid _ _ _ Hok Hi (Hheld _ _ Hi)).
    + apply (ledger_bidders_to_items _ Hok _ _ Hi (Hheld _ _ Hi)).
  - apply submseteq_length_Permutation.
    + apply NoDup_submseteq.
      * apply NoDup_alt. intros b1 b2 i Hi1 Hi2.
        destruct (ledger_bidders_to_items _ Hok _ _ Hi1 (Hheld _ _ Hi1))
          as [_ H1'].
        destruct (ledger_bidders_to_items _ Hok _ _ Hi2 (Hheld _ _ Hi2))
          as [_ H2'].
        rewrite H1' in H2'. injection H2' as H2'. lia.
      * intros i [b Hi]%list_elem_of_lookup. apply elem_of_seqZ.
        destruct (ledger_entry_valid _ _ _ Hok Hi (Hheld _ _ Hi)). lia.
    + rewrite length_seqZ, (sized_bidders_to_items _ Hsz). lia.
Qed.

(** C5. After a phase that completes ([flush_assignment], then the bidding
    loop leaving with the unassigned set empty), the assignment is a perfect
    matching: every bidder [b] holds an item [i] of [[0,N)] with
    [items_to_bidders[i] = b], and [bidders_to_items] holds each value of
    [[0,N)] exactly once. *)
Theorem completed_phase_perfect_matching (fuel : nat) st st1 st' :
  sized st →
  flush_assignment st = Ok st1 →
  run_auction_phase fuel st1 = Ok st' →
  st'.(unassigned_bidders) = ∅
  ∧ (∀ b : nat, (b < st'.(num_bidders))%nat →
       ∃ i : Z, st'.(bidders_to_items) !! b = Some i
                ∧ valid_index st'.(num_bidders) i
                ∧ st'.(items_to_bidders) !! Z.to_nat i = Some (Z.of_nat b))
  ∧ st'.(bidders_to_items) ≡ₚ seqZ 0 (Z.of_nat st'.(num_bidders)).
Proof.
  intros Hsz Hflush Hphase.
  destruct (flush_assignment_ledger_ok _ _ Hsz Hflush) as [Hok1 Hun1].
  destruct (run_auction_phase_ledger_ok _ _ _ Hok1 Hun1 Hphase)
    as (Hok & Hun & Hempty).
  split; [done|]. by apply ledger_ok_perfect_matching.
Qed.
End LedgerFacts.

(** ** Costs, the constructor and the single-point run *)

Section CostFacts.
Context {R : Type} {RT : RealType R} {RL : RealLaws R} {Point AO : Type}.
Context {OR : AuctionOracle R Point (AuctionParams R) AO}.
Context {US : UnorderedSetBegin} {DC : Declarations R Point}.

Implicit Types st : @AuctionRunnerGS R Point AO.

(** On indices of the point vectors that are not the sentinel the cost is
    the distance to the power [q]. *)
Lemma get_item_bidder_cost_valid st (item_idx bidder_idx : Z)
    (tolerate_invalid_idx : bool) (pb pi : Point) :
  item_idx ≠ k_invalid_index → bidder_idx ≠ k_invalid_index →
  0 ≤ item_idx → 0 ≤ bidder_idx →
  st.(bidders) !! Z.to_nat bidder_idx = Some pb →
  st.(items) !! Z.to_nat item_idx = Some pi →
  get_item_bidder_cost item_idx bidder_idx tolerate_invalid_idx st
  = Ok (real_pow (dist_lp pb pi st.(params).(internal_p) st.(params).(dim))
                 st.(params).(wasserstein_power)).
Proof.
  intros Hi Hb Hi0 Hb0 Hpb Hpi. unfold get_item_bidder_cost.
  apply Z.eqb_neq in Hi, Hb. rewrite Hi, Hb. simpl.
  rewrite (proj2 (vec_get_Ok _ _ _) (conj Hb0 Hpb)). simpl.
  rewrite (proj2 (vec_get_Ok _ _ _) (conj Hi0 Hpi)). done.
Qed.

(** C9. [get_item_bidder_cost]: when the item index or the bidder index is
    the sentinel, the call throws a [runtime_error] if
    [tolerate_invalid_idx] is false and returns zero if it is true; when
    both are indices of the point vectors (and so not the sentinel) it
    returns [dist_lp(bidders[bidder_idx], items[item_idx], internal_p,
    dim)^wasserstein_power]. *)
Theorem get_item_bidder_cost_cases st (item_idx bidder_idx : Z) :
  (item_idx = k_invalid_index ∨ bidder_idx = k_invalid_index →
   get_item_bidder_cost item_idx bidder_idx false st
   = Fail (Thrown (runtime_error (invalid_idx_message item_idx bidder_idx)))
   ∧ get_item_bidder_cost item_idx bidder_idx true st = Ok (real_of_Z 0))
  ∧ (item_idx ≠ k_invalid_index → bidder_idx ≠ k_invalid_index →
     valid_index (length st.(items)) item_idx →
     valid_index (length st.(bidders)) bidder_idx →
     ∀ tolerate_invalid_idx : bool,
     ∃ (pb pi : Point),
       st.(bidders) !! Z.to_nat bidder_idx = Some pb
       ∧ st.(items) !! Z.to_nat item_idx = Some pi
       ∧ get_item_bidder_cost item_idx bidder_idx tolerate_invalid_idx st
         = Ok (real_pow
                 (dist_lp pb pi st.(params).(internal_p) st.(params).(dim))
                 st.(params).(wasserstein_power))).
Proof.
  split.
  - intros Hinv. unfold get_item_bidder_cost.
    assert (negb (item_idx =? k_invalid_index)
            && negb (bidder_idx =? k_invalid_index) = false) as ->; [|done].
    destruct Hinv as [->| ->]; rewrite Z.eqb_refl; simpl;
      [done|apply andb_false_r].
  - intros Hi Hb [Hi0 HiN] [Hb0 HbN] tol.
    destruct (lookup_lt_is_Some_2 st.(bidders) (Z.to_nat bidder_idx))
      as [pb Hpb]; [lia|].
    destruct (lookup_lt_is_Some_2 st.(items) (Z.to_nat item_idx))
      as [pi Hpi]; [lia|].
    exists pb, pi. split; [done|]. split; [done|].
    by apply get_item_bidder_cost_valid.
Qed.

(** What a returning constructor built. *)
Lemma constructor_inv (A B : list Point) (p : AuctionParams R)
    (prices0 : list R) st :
  constructor A B p prices0 = Ok st →
  st.(bidders) = A ∧ st.(items) = B
  ∧ st.(num_bidders) = length A ∧ st.(num_items) = length B
  ∧ st.(items_to_bidders) = replicate (length B) k_invalid_index
  ∧ st.(bidders_to_items) = replicate (length A) k_invalid_index
  ∧ st.(unassigned_bidders) = ∅
  ∧ st.(result) = AuctionResult_default
  ∧ st.(oracle)
    = match prices0 with
      | [] => oracle_make A B p
      | _ => oracle_set_prices prices0 (oracle_make A B p)
      end
  ∧ st.(params).(epsilon_common_ratio)
    = (if (p.(epsilon_common_ratio) =? real_of_Z 0)%real then real_of_Z 5
       else p.(epsilon_common_ratio))
  ∧ st.(params).(initial_epsilon)
    = (if (p.(initial_epsilon) =? real_of_Z 0)%real
       then (oracle_max_val_ st.(oracle) / real_of_Z 4)%real
       else p.(initial_epsilon))
  ∧ st.(params).(wasserstein_power) = p.(wasserstein_power)
  ∧ st.(params).(internal_p) = p.(internal_p)
  ∧ st.(params).(dim) = p.(dim)
  ∧ st.(params).(delta) = p.(delta)
  ∧ st.(params).(max_num_phases) = p.(max_num_phases)
  ∧ st.(params).(tolerate_max_iter_exceeded)
    = p.(tolerate_max_iter_exceeded)
  ∧ st.(params).(return_matching) = p.(return_matching)
  ∧ (NDEBUG = false →
     (real_of_Z 0 <? st.(params).(initial_epsilon))%real = true
     ∧ (real_of_Z 0 <? st.(params).(epsilon_common_ratio))%real = true
     ∧ length A = length B).
Proof.
  unfold constructor. intros Hrun.
  destruct (p.(epsilon_common_ratio) =? real_of_Z 0)%real eqn:Hratio;
    simpl in Hrun;
    destruct (p.(initial_epsilon) =? real_of_Z 0)%real eqn:Heps;
    simpl in Hrun;
    apply bind_Ok in Hrun as ([] & Ha1 & Hrun);
    apply bind_Ok in Hrun as ([] & Ha2 & Hrun);
    apply bind_Ok in Hrun as ([] & Ha3 & Hrun);
    injection Hrun as <-; simpl;
    (repeat (split; [done|])); intros Hnd;
    (apply assert_Ok in Ha1 as [?|[= Ha1]]; [congruence|]);
    (apply assert_Ok in Ha2 as [?|[= Ha2]]; [congruence|]);
    (apply assert_Ok in Ha3 as [?|[= Ha3]]; [congruence|]);
    apply bool_decide_eq_true in Ha3; done.
Qed.

(** A constructed runner on sets of equal size has an empty, consistent
    ledger. *)
Lemma constructor_ledger_ok (A B : list Point) (p : AuctionParams R)
    (prices0 : list R) st :
  length A = length B → ¬ valid_index (length A) k_invalid_index →
  constructor A B p prices0 = Ok st →
  ledger_ok st.
Proof.
  intros Hlen Hsent Hrun.
  destruct (constructor_inv _ _ _ _ _ Hrun)
    as (_ & _ & HN & HNi & Hi2b & Hb2i & _).
  split; [split|..].
  - by rewrite HN, HNi.
  - by rewrite Hb2i, length_replicate.
  - by rewrite Hi2b, length_replicate, HN.
  - by rewrite HN.
  - intros b i Hl Hne. rewrite Hb2i in Hl.
    by apply lookup_replicate in Hl as [-> _].
  - intros i b Hl Hne. rewrite Hi2b in Hl.
    by apply lookup_replicate in Hl as [-> _].
Qed.

(** The run on one bidder and one item. *)
Lemma single_point_run (fuel : nat) (a b : Point)
    (p : AuctionParams R) (prices0 : list R) st :
  k_invalid_index ≠ 0 →
  constructor [a] [b] p prices0 = Ok st →
  ∃ st',
    run_auction fuel st = Ok st'
    ∧ st'.(bidders_to_items) = [0]
    ∧ st'.(items_to_bidders) = [0]
    ∧ st'.(result).(cost)
      = real_pow (dist_lp a b p.(internal_p) p.(dim)) p.(wasserstein_power)
    ∧ st'.(result).(num_phases) = 0
    ∧ st'.(result).(num_rounds) = 1
    ∧ st'.(oracle) = st.(oracle)
    ∧ st'.(bidders) = [a] ∧ st'.(items) = [b]
    ∧ st'.(num_bidders) = 1%nat
    ∧ st'.(params) = st.(params).
Proof.
  intros Hsent Hctor.
  assert (¬ valid_index 1 k_invalid_index) as Hsent'.
  { unfold valid_index. lia. }
  pose proof (constructor_ledger_ok [a] [b] p prices0 st eq_refl Hsent' Hctor)
    as Hok.
  destruct (constructor_inv _ _ _ _ _ Hctor)
    as (HA & HB & HN & HNi & Hi2b & Hb2i & Hun & Hres & _ & _ & _
        & Hq & Hp & Hdim & _).
  simpl in HN, HNi, Hi2b, Hb2i.
  destruct (assign_item_to_bidder_returns st 0 0 Hok) as [st1 Hassign].
  { rewrite HN. unfold valid_index. lia. }
  { rewrite HN. unfold valid_index. lia. }
  { by rewrite Hb2i. }
  destruct (assign_item_to_bidder_inv _ _ _ _ Hassign)
    as (old & _ & _ & Hold & _ & Hi2b1 & Hb2i1 & _ & Hres1 & HA1 & HB1
        & HN1 & _ & Hpar1 & Hor1 & _).
  rewrite Hi2b in Hold. injection Hold as <-.
  rewrite Z.eqb_refl, Hb2i in Hb2i1. rewrite Hi2b in Hi2b1.
  simpl in Hb2i1, Hi2b1.
  assert (get_item_bidder_cost 0 0 tolerate_invalid_idx_default st1
          = Ok (real_pow
                  (dist_lp a b st1.(params).(internal_p) st1.(params).(dim))
                  st1.(params).(wasserstein_power))) as Hcost.
  { apply get_item_bidder_cost_valid; try done; try lia.
    - by rewrite HA1, HA.
    - by rewrite HB1, HB. }
  unfold run_auction. rewrite HN. simpl. rewrite Hassign. simpl.
  rewrite Hcost. simpl. eexists. split; [done|].
  unfold fill_matching.
  destruct (return_matching _); simpl;
    rewrite ?Hb2i1, ?Hi2b1, ?Hres1, ?Hres, ?Hpar1, ?Hq, ?Hp, ?Hdim, ?Hor1,
      ?HA1, ?HB1, ?HA, ?HB, ?HN1, ?HN;
    done.
Qed.

(** C7. With one bidder and one item, [run_auction] does not enter the
    phase loop: it assigns item 0 to bidder 0, the cost is
    [dist_lp(A[0], B[0], internal_p, dim)^wasserstein_power], [num_phases]
    is still 0, and the oracle has not been touched. *)
Theorem run_auction_single_point (fuel : nat) (a b : Point)
    (p : AuctionParams R) (prices0 : list R) st :
  k_invalid_index ≠ 0 →
  constructor [a] [b] p prices0 = Ok st →
  ∃ st',
    run_auction fuel st = Ok st'
    ∧ st'.(bidders_to_items) = [0]
    ∧ st'.(items_to_bidders) = [0]
    ∧ st'.(result).(cost)
      = real_pow (dist_lp a b p.(internal_p) p.(dim)) p.(wasserstein_power)
    ∧ st'.(result).(num_phases) = 0
    ∧ st'.(result).(num_rounds) = 1
    ∧ st'.(oracle) = st.(oracle).
Proof.
  intros Hsent Hctor.
  destruct (single_point_run fuel a b p prices0 st Hsent Hctor)
    as (st' & ? & ? & ? & ? & ? & ? & ? & _).
  by exists st'.
Qed.
End CostFacts.

(** ** The phase loop *)

Section PhaseLoopFacts.
Context {R : Type} {RT : RealType R} {RL : RealLaws R} {RS : RealSum R}.
Context {Point AO : Type}.
Context {OR : AuctionOracle R Point (AuctionParams R) AO}.
Context {OL : AuctionOracleLaws R Point (AuctionParams R) AO}.
Context {US : UnorderedSetBegin} {DC : Declarations R Point}.

Implicit Types st : @AuctionRunnerGS R Point AO.

Lemma same_input_refl st : same_input st st.
Proof. by repeat split. Qed.

Lemma same_input_trans st1 st2 st3 :
  same_input st1 st2 → same_input st2 st3 → same_input st1 st3.
Proof.
  intros (? & ? & ? & ? & ?) (? & ? & ? & ? & ?).
  repeat split; congruence.
Qed.

Lemma same_but_counters_refl (r : AuctionResult R) : same_but_counters r r.
Proof. by repeat split. Qed.

Lemma same_but_counters_trans (r1 r2 r3 : AuctionResult R) :
  same_but_counters r1 r2 → same_but_counters r2 r3 →
  same_but_counters r1 r3.
Proof.
  intros (? & ? & ? & ? & ? & ? & ?) (? & ? & ? & ? & ? & ? & ?).
  repeat split; congruence.
Qed.

(** A round leaves the input, the epsilon of the oracle and every field of
    the result but the counters as they were. *)
Lemma bidding_round_frame st st' :
  bidding_round st = Ok st' →
  same_input st st'
  ∧ same_but_counters st.(result) st'.(result)
  ∧ st'.(result).(num_phases) = st.(result).(num_phases)
  ∧ oracle_get_epsilon st'.(oracle) = oracle_get_epsilon st.(oracle).
Proof.
  unfold bidding_round. intros Hrun.
  destruct (uset_begin st.(unassigned_bidders)) as [bidder_idx|]; [|done].
  pose proof (get_epsilon_get_optimal_bid bidder_idx st.(oracle)) as Heps.
  destruct (oracle_get_optimal_bid bidder_idx st.(oracle))
    as [[optimal_item_idx bid_value] o].
  apply bind_Ok in Hrun as (st1 & Hassign & Hrun). injection Hrun as <-.
  destruct (assign_item_to_bidder_inv _ _ _ _ Hassign)
    as (_ & _ & _ & _ & _ & _ & _ & _ & Hres & HA & HB & HN & HNi & Hpar
        & Hor & _).
  simpl in *. rewrite get_epsilon_set_price, Hor, Hres.
  repeat split; done.
Qed.

Lemma bidding_loop_frame (fuel : nat) st st' :
  bidding_loop fuel st = Ok st' →
  same_input st st'
  ∧ same_but_counters st.(result) st'.(result)
  ∧ st'.(result).(num_phases) = st.(result).(num_phases)
  ∧ oracle_get_epsilon st'.(oracle) = oracle_get_epsilon st.(oracle).
Proof.
  revert st. induction fuel as [|fuel IH]; intros st Hrun; simpl in Hrun;
    [done|].
  apply bind_Ok in Hrun as (st1 & Hround & Hrun).
  destruct (bidding_round_frame _ _ Hround) as (Hi1 & Hr1 & Hp1 & He1).
  destruct (bool_decide (st1.(unassigned_bidders) = ∅)).
  - by injection Hrun as <-.
  - destruct (IH _ Hrun) as (Hi2 & Hr2 & Hp2 & He2).
    split; [by eapply same_input_trans|].
    split; [by eapply same_but_counters_trans|].
    split; congruence.
Qed.

Lemma run_auction_phase_frame (fuel : nat) st st' :
  run_auction_phase fuel st = Ok st' →
  same_input st st'
  ∧ same_but_counters st.(result) st'.(result)
  ∧ st'.(result).(num_phases) = st.(result).(num_phases) + 1
  ∧ oracle_get_epsilon st'.(oracle) = oracle_get_epsilon st.(oracle).
Proof.
  intros Hrun%run_auction_phase_inv.
  destruct (bidding_loop_frame _ _ _ Hrun) as (Hi & Hr & Hp & He).
  done.
Qed.

Lemma flush_assignment_frame st st' :
  flush_assignment st = Ok st' →
  same_input st st' ∧ st'.(result) = st.(result)
  ∧ oracle_get_epsilon st'.(oracle) = oracle_get_epsilon st.(oracle).
Proof.
  intros Hrun.
  destruct (flush_assignment_inv _ _ Hrun)
    as (_ & _ & _ & Hor & Hres & ? & ? & ? & ? & ? & _).
  rewrite Hor, get_epsilon_adjust_prices. by repeat split.
Qed.

(** What a returning call of [getDistanceToQthPowerInternal] did. *)
Lemma getDistanceToQthPowerInternal_inv st st' (C : R) :
  getDistanceToQthPowerInternal st = Ok (C, st') →
  for_each (seq 0 st.(num_bidders)) (add_bidder_cost st) (real_of_Z 0)
  = Ok C
  ∧ st' = with_result (set_cost C st.(result)) st.
Proof.
  unfold getDistanceToQthPowerInternal. intros Hrun.
  apply bind_Ok in Hrun as (_ & _ & Hrun).
  apply bind_Ok in Hrun as (r & Hsum & Hrun).
  simpl in Hrun. by injection Hrun as <- <-.
Qed.

(** What a returning iteration of the phase loop did. *)
Lemma phase_iteration_inv (fuel : nat) st st' (stop : bool) (e : R) :
  phase_iteration fuel st = Ok (stop, e, st') →
  ∃ st1 st2 st3 (C : R),
    flush_assignment st = Ok st1
    ∧ run_auction_phase fuel st1 = Ok st2
    ∧ getDistanceToQthPowerInternal st2 = Ok (C, st3)
    ∧ e = oracle_get_epsilon st3.(oracle)
    ∧ let d := (C - real_of_Z (Z.of_nat st3.(num_bidders)) * e)%real in
      let rel := relative_error_bound C st3.(num_bidders) e
                   st3.(params).(wasserstein_power) in
      let st4 := if (real_of_Z 0 <? d)%real
                 then with_result
                        (set_final_relative_error rel st3.(result)) st3
                 else st3 in
      stop = (real_of_Z 0 <? d)%real && (rel <=? st3.(params).(delta))%real
      ∧ st' = if stop then st4 else decrease_epsilon st4.
Proof.
  unfold phase_iteration. intros Hrun.
  apply bind_Ok in Hrun as (st1 & Hflush & Hrun).
  apply bind_Ok in Hrun as (st2 & Hphase & Hrun).
  apply bind_Ok in Hrun as ([C st3] & Hcost & Hrun).
  exists st1, st2, st3, C. do 3 (split; [done|]).
  unfold relative_error_bound. simpl in *.
  destruct (real_of_Z 0 <? _)%real eqn:Hd; simpl in *.
  - destruct (_ <=? _)%real eqn:Hrel; injection Hrun as <- <- <-;
      by rewrite Hd, Hrel.
  - injection Hrun as <- <- <-. by rewrite Hd.
Qed.

(** *** Order facts of the scalars *)

Lemma real_ltb_irrefl (a : R) : (a <? a)%real = false.
Proof.
  destruct (a <? a)%real eqn:Hlt; [|done].
  pose proof (real_ltb_le _ _ Hlt) as Hle.
  by rewrite (real_ltb_not_ge _ _ Hlt) in Hle.
Qed.

Lemma real_ltb_trans (a b c : R) :
  (a <? b)%real = true → (b <? c)%real = true → (a <? c)%real = true.
Proof. intros Hab Hbc. eapply real_ltb_leb_trans, real_ltb_le; done. Qed.

Lemma real_ltb_neq (a b : R) : (a <? b)%real = true → a ≠ b.
Proof. intros Hlt ->. by rewrite real_ltb_irrefl in Hlt. Qed.

(** A value below zero is not [== 0]. *)
Lemma real_ltb_eqb (a b : R) :
  (a <? b)%real = true → (a =? b)%real = false.
Proof.
  intros Hlt. rewrite real_eqb_leb, (real_ltb_not_ge _ _ Hlt).
  apply andb_false_r.
Qed.

(** *** The schedule of epsilons *)

Lemma length_epsilon_schedule (ratio e : R) (n : nat) :
  length (epsilon_schedule ratio e n) = n.
Proof. revert e. induction n as [|n IH]; intros e; simpl; [done|]. by rewrite IH. Qed.

Lemma epsilon_schedule_snoc (ratio e : R) (n : nat) :
  ∃ x : R, epsilon_schedule ratio e (S n) = epsilon_schedule ratio e n ++ [x].
Proof.
  revert e. induction n as [|n IH]; intros e.
  - by exists e.
  - destruct (IH (e / ratio)%real) as [x Hx]. exists x.
    change (epsilon_schedule ratio e (S (S n)))
      with (e :: epsilon_schedule ratio (e / ratio)%real (S n)).
    by rewrite Hx.
Qed.


(** In a list in which no value is above the one before it, the last value
    is at most every other one. *)
Lemma last_below_all (l : list R) (e x : R) :
  (∀ (i : nat) (a b : R), l !! i = Some a → l !! S i = Some b →
     (b <=? a)%real = true) →
  last l = Some e → x ∈ l → x = e ∨ (e <=? x)%real = true.
Proof.
  revert x. induction l as [|a l IH]; intros x Hmono Hlast Hin; [done|].
  destruct l as [|b l].
  { simpl in Hlast. injection Hlast as <-.
    apply list_elem_of_singleton in Hin. by left. }
  rewrite last_cons_cons in Hlast.
  assert (b = e ∨ (e <=? b)%real = true) as Hb.
  { apply IH; [|done|by left].
    intros i a' b' Ha' Hb'. by apply (Hmono (S i)). }
  apply elem_of_cons in Hin as [->|Hin].
  - right. pose proof (Hmono 0%nat a b eq_refl eq_refl) as Hba.
    destruct Hb as [->|Hb]; [done|]. by eapply real_leb_trans.
  - apply IH; [|done..].
    intros i a' b' Ha' Hb'. by apply (Hmono (S i)).
Qed.

(** *** One iteration, then the loop *)

Lemma phase_iteration_facts (fuel : nat) st st' (stop : bool) (e : R) :
  phase_iteration fuel st = Ok (stop, e, st') →
  same_input st st'
  ∧ e = oracle_get_epsilon st.(oracle)
  ∧ oracle_get_epsilon st'.(oracle)
    = (if stop then e else (e / st.(params).(epsilon_common_ratio))%real)
  ∧ st'.(result).(final_epsilon)
    = (if stop then st.(result).(final_epsilon)
       else (e / st.(params).(epsilon_common_ratio))%real)
  ∧ (if stop
     then (st'.(result).(final_relative_error) <=? st.(params).(delta))%real
          = true
     else st'.(result).(final_relative_error)
          = st.(result).(final_relative_error)
          ∨ (st'.(result).(final_relative_error) <=? st.(params).(delta))%real
            = false)
  ∧ st'.(result).(num_phases) = st.(result).(num_phases) + 1.
Proof.
  intros Hrun.
  destruct (phase_iteration_inv _ _ _ _ _ Hrun)
    as (st1 & st2 & st3 & C & Hflush & Hphase & Hcost & He & Hstop & Hst').
  destruct (flush_assignment_frame _ _ Hflush) as (Hi1 & Hr1 & He1).
  destruct (run_auction_phase_frame _ _ _ Hphase) as (Hi2 & Hr2 & Hp2 & He2).
  destruct (getDistanceToQthPowerInternal_inv _ _ _ Hcost) as [_ ->].
  pose proof (same_input_trans _ _ _ Hi1 Hi2) as (HA & HB & HN & HNi & Hpar).
  destruct Hr2 as (_ & _ & Hfre & _ & Hfin & _).
  simpl in *. rewrite He1 in He2. rewrite He2 in He.
  rewrite Hr1 in Hfre, Hfin, Hp2. rewrite Hpar in *.
  set (rel := relative_error_bound C st2.(num_bidders) e
                st.(params).(wasserstein_power)) in *.
  destruct (real_of_Z 0 <? C - _ * e)%real eqn:Hd; simpl in Hstop;
    [destruct (rel <=? st.(params).(delta))%real eqn:Hrel|];
    subst stop st'; simpl; rewrite ?get_set_epsilon, ?Hpar, ?He2;
    repeat split; try done; try congruence; auto.
Qed.

Lemma phase_loop_facts (fuel left : nat) st st' (tr : phases_trace R) :
  phase_loop fuel left st = Ok (tr, st') →
  same_input st st'
  ∧ tr.(trace_epsilons)
    = epsilon_schedule st.(params).(epsilon_common_ratio)
        (oracle_get_epsilon st.(oracle)) (length tr.(trace_epsilons))
  ∧ (st.(result).(final_epsilon) = oracle_get_epsilon st.(oracle) →
     st'.(result).(final_epsilon) = oracle_get_epsilon st'.(oracle))
  ∧ st'.(result).(num_phases)
    = st.(result).(num_phases) + Z.of_nat (length tr.(trace_epsilons))
  ∧ match tr.(trace_exit) with
    | Converged =>
        last tr.(trace_epsilons) = Some (oracle_get_epsilon st'.(oracle))
        ∧ (st'.(result).(final_relative_error) <=? st.(params).(delta))%real
          = true
    | Exhausted =>
        length tr.(trace_epsilons) = left
        ∧ epsilon_schedule st.(params).(epsilon_common_ratio)
            (oracle_get_epsilon st.(oracle)) (S left)
          = tr.(trace_epsilons) ++ [oracle_get_epsilon st'.(oracle)]
        ∧ (st'.(result).(final_relative_error)
           = st.(result).(final_relative_error)
           ∨ (st'.(result).(final_relative_error)
              <=? st.(params).(delta))%real = false)
    end.
Proof.
  revert st tr st'. induction left as [|left IH]; intros st tr st' Hrun;
    simpl in Hrun.
  { injection Hrun as <- <-. simpl. split; [apply same_input_refl|].
    repeat split; try done; try lia. by left. }
  apply bind_Ok in Hrun as ([[stop e] st1] & Hiter & Hrun).
  destruct (phase_iteration_facts _ _ _ _ _ Hiter)
    as (Hi1 & He & He1 & Hfin1 & Hfre1 & Hp1).
  destruct stop.
  { injection Hrun as <- <-. simpl. split; [exact Hi1|].
    rewrite He1, <- He. repeat split; try done; try lia; congruence. }
  apply bind_Ok in Hrun as ([tr1 st2] & Hloop & Hrun).
  injection Hrun as <- <-. simpl.
  destruct (IH _ _ _ Hloop) as (Hi2 & Hsched & Hfin2 & Hp2 & Hexit).
  pose proof Hi1 as (_ & _ & _ & _ & Hpar1). rewrite Hpar1 in *.
  rewrite He1 in Hsched, Hexit.
  split; [by eapply same_input_trans|].
  split; [by rewrite <- He; f_equal|].
  split; [intros _; apply Hfin2; by rewrite Hfin1, He1|].
  split; [lia|].
  destruct tr1.(trace_exit).
  - destruct Hexit as [Hlast Hfre2]. split; [|done].
    rewrite last_cons. by rewrite Hlast.
  - destruct Hexit as (Hlen & Hnext & Hfre2).
    split; [by rewrite Hlen|]. split; [by rewrite <- He, <- Hnext|].
    destruct Hfre2 as [Hfre2|Hfre2]; [|by right].
    rewrite Hfre2. done.
Qed.

(** The number of phases the loop ran. *)
Lemma phase_loop_length (fuel left : nat) st st' (tr : phases_trace R) :
  phase_loop fuel left st = Ok (tr, st') →
  (length tr.(trace_epsilons) ≤ left)%nat
  ∧ (tr.(trace_exit) = Converged → (1 ≤ length tr.(trace_epsilons))%nat)
  ∧ (tr.(trace_exit) = Exhausted → length tr.(trace_epsilons) = left).
Proof.
  revert st tr st'. induction left as [|left IH]; intros st tr st' Hrun;
    simpl in Hrun.
  { injection Hrun as <- <-. simpl. repeat split; done. }
  apply bind_Ok in Hrun as ([[stop e] st1] & _ & Hrun).
  destruct stop.
  { injection Hrun as <- <-. simpl. repeat split; try done; lia. }
  apply bind_Ok in Hrun as ([tr1 st2] & Hloop & Hrun).
  injection Hrun as <- <-. simpl.
  destruct (IH _ _ _ Hloop) as (Hle & Hconv & Hexh).
  repeat split; try lia. intros Hexit. by rewrite (Hexh Hexit).
Qed.


(** What a returning prologue did. *)
Lemma phases_prologue_inv st st' :
  phases_prologue st = Ok st' →
  same_input st st'
  ∧ oracle_get_epsilon st'.(oracle) = st.(params).(initial_epsilon)
  ∧ st'.(result).(final_epsilon) = st.(params).(initial_epsilon)
  ∧ st'.(result).(start_epsilon) = st.(params).(initial_epsilon)
  ∧ st'.(result).(final_relative_error) = real_max
  ∧ st'.(result).(num_phases) = st.(result).(num_phases)
  ∧ st'.(result).(cost) = st.(result).(cost)
  ∧ st'.(bidders_to_items) = st.(bidders_to_items)
  ∧ st'.(items_to_bidders) = st.(items_to_bidders)
  ∧ st'.(unassigned_bidders) = st.(unassigned_bidders).
Proof.
  unfold phases_prologue. intros Hrun.
  apply bind_Ok in Hrun as (_ & _ & Hrun). injection Hrun as <-. simpl.
  rewrite get_set_epsilon. by repeat split.
Qed.

(** What a returning [run_auction_phases] did, in terms of its loop. *)
Lemma run_auction_phases_traced_inv (fuel : nat) st st'
    (tr : phases_trace R) :
  run_auction_phases_traced fuel st = Ok (tr, st') →
  ∃ st0 st1,
    phases_prologue st = Ok st0
    ∧ phase_loop fuel (Z.to_nat st.(params).(max_num_phases)) st0
      = Ok (tr, st1)
    ∧ st' = with_result
              (set_prices (oracle_get_prices st1.(oracle)) st1.(result)) st1.
Proof.
  unfold run_auction_phases_traced. intros Hrun.
  apply bind_Ok in Hrun as (st0 & Hpro & Hrun).
  apply bind_Ok in Hrun as ([tr1 st1] & Hloop & Hrun).
  injection Hrun as <- <-. exists st0, st1.
  destruct (phases_prologue_inv _ _ Hpro) as ((_ & _ & _ & _ & Hpar) & _).
  by rewrite <- Hpar.
Qed.

Lemma epsilon_schedule_next (ratio e0 x e : R) (n : nat) (l : list R) :
  epsilon_schedule ratio e0 (S n) = l ++ [x] → last l = Some e →
  x = (e / ratio)%real.
Proof.
  revert e0 l. induction n as [|n IH]; intros e0 l Hl Hlast.
  - destruct l as [|? [|? ?]]; simplify_eq/=.
  - pose proof (length_epsilon_schedule ratio (e0 / ratio)%real (S n))
      as Hlen.
    change (epsilon_schedule ratio e0 (S (S n)))
      with (e0 :: epsilon_schedule ratio (e0 / ratio)%real (S n)) in Hl.
    set (s := epsilon_schedule ratio (e0 / ratio)%real (S n)) in *.
    destruct l as [|a l].
    { apply (f_equal length) in Hl. simpl in Hl. lia. }
    injection Hl as <- Hl.
    destruct l as [|b l].
    + simpl in Hlast. injection Hlast as <-.
      destruct n as [|n]; [by injection Hl as <-|].
      apply (f_equal length) in Hl. simpl in Hl. lia.
    + apply (IH (e0 / ratio)%real (b :: l)); [done|].
      by rewrite last_cons_cons in Hlast.
Qed.

(** C10, as the code has it. After a phase loop that used up
    [max_num_phases], [final_epsilon] is the epsilon of the last phase
    divided by [epsilon_common_ratio] (and [initial_epsilon] when no phase
    ran); no phase ran at that value when it compares below the epsilon of
    the last phase and no phase ran at an epsilon above that of the phase
    before it.  After a loop that converged, [final_epsilon] is the
    epsilon of the phase that converged.  Nothing is assumed of the
    division. *)
Theorem final_epsilon_after_phases (fuel : nat) st st'
    (tr : phases_trace R) :
  run_auction_phases_traced fuel st = Ok (tr, st') →
  run_auction_phases fuel st = Ok st'
  ∧ match tr.(trace_exit) with
  | Converged => last tr.(trace_epsilons) = Some st'.(result).(final_epsilon)
  | Exhausted =>
      (∀ e : R, last tr.(trace_epsilons) = Some e →
         st'.(result).(final_epsilon)
         = (e / st.(params).(epsilon_common_ratio))%real)
      ∧ (tr.(trace_epsilons) = [] →
         st'.(result).(final_epsilon) = st.(params).(initial_epsilon))
      ∧ (∀ e : R, last tr.(trace_epsilons) = Some e →
           (st'.(result).(final_epsilon) <? e)%real = true →
           (∀ (i : nat) (a b : R),
              tr.(trace_epsilons) !! i = Some a →
              tr.(trace_epsilons) !! S i = Some b →
              (b <=? a)%real = true) →
           st'.(result).(final_epsilon) ∉ tr.(trace_epsilons))
  end.
Proof.
  intros Hrun.
  split; [unfold run_auction_phases; by rewrite Hrun|].
  destruct (run_auction_phases_traced_inv _ _ _ _ Hrun)
    as (st0 & st1 & Hpro & Hloop & ->).
  destruct (phases_prologue_inv _ _ Hpro)
    as ((_ & _ & _ & _ & Hpar) & He0 & Hfin0 & _).
  destruct (phase_loop_facts _ _ _ _ _ Hloop)
    as (_ & Hsched & Hfin & _ & Hexit).
  rewrite Hpar, He0 in *. specialize (Hfin Hfin0). simpl.
  destruct tr.(trace_exit).
  - destruct Hexit as [Hlast _]. by rewrite Hfin.
  - destruct Hexit as (Hlen & Hnext & _). rewrite Hfin.
    split; [|split].
    + intros e Hlast. by apply (epsilon_schedule_next _ _ _ _ _ _ Hnext).
    + intros Hnil. rewrite Hnil in Hlen, Hnext. simpl in Hlen.
      rewrite <- Hlen in Hnext. simpl in Hnext. by injection Hnext as <-.
    + intros e Hlast Hlt Hmono Hin.
      destruct (last_below_all _ _ _ Hmono Hlast Hin) as [Heq|Hle].
      * rewrite Heq in Hlt. by rewrite real_ltb_irrefl in Hlt.
      * pose proof (real_ltb_leb_trans _ _ _ Hlt Hle) as Habs.
        by rewrite real_ltb_irrefl in Habs.
Qed.


(** C1, as the code has it. After a phase loop that used up
    [max_num_phases], [final_relative_error] is the largest scalar (no
    phase computed it) or a value for which the loop's test
    [final_relative_error <= delta] was false; when that value and [delta]
    are comparable (one of [<=] and [>] holds of them, as of any two
    scalars but a NaN) and [delta] is below the largest scalar, it is
    above [delta].  A build with [DEBUG_AUCTION] then throws
    "Maximum iteration number exceeded" when [tolerate_max_iter_exceeded]
    is false and the test [final_relative_error > delta] of [run_auction]
    holds; in every other case (a build without [DEBUG_AUCTION], the flag
    set, or a value that the test does not find above [delta]) the run
    returns with the error, the cost and the matching the loop left. *)
Theorem run_auction_max_iter_exceeded (fuel : nat) st st1
    (tr : phases_trace R) :
  st.(num_bidders) ≠ 1%nat →
  run_auction_phases_traced fuel st = Ok (tr, st1) →
  tr.(trace_exit) = Exhausted →
  (st1.(result).(final_relative_error) = real_max
   ∨ (st1.(result).(final_relative_error) <=? st.(params).(delta))%real
     = false)
  ∧ ((st.(params).(delta) <? real_max)%real = true →
     (st1.(result).(final_relative_error) <=? st.(params).(delta))%real
     = true
     ∨ (st.(params).(delta) <? st1.(result).(final_relative_error))%real
       = true →
     (st.(params).(delta) <? st1.(result).(final_relative_error))%real
     = true)
  ∧ (DEBUG_AUCTION = true →
     st.(params).(tolerate_max_iter_exceeded) = false →
     (st.(params).(delta) <? st1.(result).(final_relative_error))%real
     = true →
     run_auction fuel st
     = Fail (Thrown (runtime_error "Maximum iteration number exceeded")))
  ∧ (DEBUG_AUCTION = false
     ∨ st.(params).(tolerate_max_iter_exceeded) = true
     ∨ (st.(params).(delta) <? st1.(result).(final_relative_error))%real
       = false →
     ∃ st',
       run_auction fuel st = Ok st'
       ∧ st'.(result).(final_relative_error)
         = st1.(result).(final_relative_error)
       ∧ st'.(result).(cost) = st1.(result).(cost)
       ∧ st'.(bidders_to_items) = st1.(bidders_to_items)
       ∧ st'.(items_to_bidders) = st1.(items_to_bidders)).
Proof.
  intros HN Hrun Hexit.
  destruct (run_auction_phases_traced_inv _ _ _ _ Hrun)
    as (st0 & st2 & Hpro & Hloop & Hst1).
  destruct (phases_prologue_inv _ _ Hpro)
    as ((_ & _ & _ & _ & Hpar0) & _ & _ & _ & Hfre0 & _).
  destruct (phase_loop_facts _ _ _ _ _ Hloop)
    as ((_ & _ & _ & _ & Hpar2) & _ & _ & _ & Hfacts).
  rewrite Hexit in Hfacts. destruct Hfacts as (_ & _ & Hfre).
  rewrite Hpar0, Hfre0 in Hfre.
  assert (st1.(params) = st.(params)) as Hpar1.
  { rewrite Hst1. simpl. congruence. }
  assert (st1.(result).(final_relative_error) = real_max
          ∨ (st1.(result).(final_relative_error)
             <=? st.(params).(delta))%real = false) as Hfre1.
  { by rewrite Hst1. }
  split; [done|]. split.
  { intros Hdelta [Hle|Hgt]; [|done].
    destruct Hfre1 as [->|Hnle]; [done|congruence]. }
  unfold run_auction, run_auction_phases.
  apply Nat.eqb_neq in HN. rewrite HN, Hrun. simpl.
  unfold check_max_iter_exceeded. rewrite Hpar1.
  split.
  - intros -> -> ->. done.
  - intros Hcase.
    assert ((if DEBUG_AUCTION
             then if (st.(params).(delta)
                      <? st1.(result).(final_relative_error))%real
                     && negb st.(params).(tolerate_max_iter_exceeded)
                  then if negb st.(params).(tolerate_max_iter_exceeded)
                       then throw "Maximum iteration number exceeded"
                       else Ok ()
                  else Ok ()
             else Ok ()) = Ok ()) as ->.
    { destruct Hcase as [-> |[-> | ->]]; [done|..].
      - destruct DEBUG_AUCTION; [|done]. by rewrite andb_false_r.
      - by destruct DEBUG_AUCTION. }
    simpl. eexists. split; [done|].
    unfold fill_matching. by destruct (return_matching _).
Qed.

(** *** The constructor's epsilon *)

(** C2, as the code has it. A configured [initial_epsilon] equal to zero is
    replaced by [oracle.max_val_ / 4], and the constructor then asserts
    that the stored value is above zero: with assertions it returns only
    when the quotient compares above zero, and fails the assertion when it
    does not; nothing makes the quotient positive by itself.  A negative
    [initial_epsilon] is not replaced: the constructor keeps it, fails the
    assertion, and returns only in a build without assertions. *)
Theorem constructor_initial_epsilon (A B : list Point) (p : AuctionParams R)
    (prices0 : list R) :
  let o := match prices0 with
           | [] => oracle_make A B p
           | _ => oracle_set_prices prices0 (oracle_make A B p)
           end in
  ((p.(initial_epsilon) =? real_of_Z 0)%real = true →
   (∀ st, constructor A B p prices0 = Ok st →
      st.(params).(initial_epsilon)
      = (oracle_max_val_ o / real_of_Z 4)%real
      ∧ (NDEBUG = false →
         (real_of_Z 0 <? st.(params).(initial_epsilon))%real = true))
   ∧ (NDEBUG = false →
      (real_of_Z 0 <? oracle_max_val_ o / real_of_Z 4)%real = false →
      constructor A B p prices0 = Fail AssertionFailed)
   ∧ ((real_of_Z 0 <? oracle_max_val_ o / real_of_Z 4)%real = true →
      (p.(epsilon_common_ratio) =? real_of_Z 0)%real = true
      ∨ (real_of_Z 0 <? p.(epsilon_common_ratio))%real = true →
      length A = length B →
      ∃ st, constructor A B p prices0 = Ok st))
  ∧ ((p.(initial_epsilon) <? real_of_Z 0)%real = true →
     (∀ st, constructor A B p prices0 = Ok st →
        st.(params).(initial_epsilon) = p.(initial_epsilon)
        ∧ NDEBUG = true)
     ∧ (NDEBUG = false →
        constructor A B p prices0 = Fail AssertionFailed)).
Proof.
  intros o. split.
  - intros Hzero.
    assert (Hstored : ∀ st, constructor A B p prices0 = Ok st →
              st.(params).(initial_epsilon)
              = (oracle_max_val_ o / real_of_Z 4)%real).
    { intros st Hctor.
      destruct (constructor_inv _ _ _ _ _ Hctor)
        as (_ & _ & _ & _ & _ & _ & _ & _ & Hor & _ & Heps & _).
      rewrite Hzero in Heps. by rewrite Heps, Hor. }
    split; [|split].
    + intros st Hctor. split; [by apply Hstored|]. intros HND.
      destruct (constructor_inv _ _ _ _ _ Hctor)
        as (_ & _ & _ & _ & _ & _ & _ & _ & _ & _ & _ & _ & _ & _ & _ & _
            & _ & _ & Hassert).
      by destruct (Hassert HND) as [Hpos _].
    + intros HND Hnpos. unfold constructor.
      destruct (p.(epsilon_common_ratio) =? real_of_Z 0)%real; simpl;
        rewrite Hzero; simpl; unfold assert_; rewrite HND; simpl;
        fold o; by rewrite Hnpos.
    + intros Hpos Hratio Hlen. unfold constructor.
      assert ((real_of_Z 0 <? real_of_Z 5)%real = true) as H5
        by (apply real_of_Z_ltb; lia).
      destruct (p.(epsilon_common_ratio) =? real_of_Z 0)%real eqn:Hr; simpl;
        rewrite Hzero; simpl; fold o.
      * rewrite !assert_true; simpl; eauto.
        by apply bool_decide_eq_true.
      * destruct Hratio as [?|Hratio]; [done|].
        rewrite !assert_true; simpl; eauto.
        by apply bool_decide_eq_true.
  - intros Hneg. pose proof (real_ltb_eqb _ _ Hneg) as Hne.
    assert ((real_of_Z 0 <? p.(initial_epsilon))%real = false) as Hnpos.
    { destruct (real_of_Z 0 <? p.(initial_epsilon))%real eqn:Hpos; [|done].
      pose proof (real_ltb_trans _ _ _ Hpos Hneg) as Habs.
      by rewrite real_ltb_irrefl in Habs. }
    split.
    + intros st Hctor.
      destruct (constructor_inv _ _ _ _ _ Hctor)
        as (_ & _ & _ & _ & _ & _ & _ & _ & _ & _ & Heps & _ & _ & _ & _
            & _ & _ & _ & Hassert).
      rewrite Hne in Heps. split; [done|].
      destruct NDEBUG; [done|]. destruct (Hassert eq_refl) as [Hpos _].
      by rewrite Heps, Hnpos in Hpos.
    + intros HND. unfold constructor.
      destruct (p.(epsilon_common_ratio) =? real_of_Z 0)%real; simpl;
        rewrite Hne; simpl; unfold assert_; rewrite HND; simpl;
        by rewrite Hnpos.
Qed.

(** *** The cost of the matching *)

Lemma sized_ext st st' :
  st'.(num_bidders) = st.(num_bidders) →
  st'.(num_items) = st.(num_items) →
  st'.(bidders_to_items) = st.(bidders_to_items) →
  st'.(items_to_bidders) = st.(items_to_bidders) →
  sized st → sized st'.
Proof. intros HN HNi Hb Hi [? ? ? ?]. split; congruence. Qed.

Lemma ledger_ok_ext st st' :
  st'.(num_bidders) = st.(num_bidders) →
  st'.(num_items) = st.(num_items) →
  st'.(bidders_to_items) = st.(bidders_to_items) →
  st'.(items_to_bidders) = st.(items_to_bidders) →
  ledger_ok st → ledger_ok st'.
Proof.
  intros HN HNi Hb Hi [Hs Hbi Hib].
  split; [by eapply sized_ext|rewrite Hb, Hi; exact Hbi
         |rewrite Hb, Hi; exact Hib].
Qed.

Lemma unassigned_ok_ext st st' :
  st'.(num_bidders) = st.(num_bidders) →
  st'.(bidders_to_items) = st.(bidders_to_items) →
  st'.(unassigned_bidders) = st.(unassigned_bidders) →
  unassigned_ok st → unassigned_ok st'.
Proof.
  intros HN Hb Hu [Hc Hs].
  split; rewrite ?HN, Hb, Hu; [exact Hc|exact Hs].
Qed.

Lemma matching_cost_ext st st' :
  st'.(num_bidders) = st.(num_bidders) →
  st'.(bidders) = st.(bidders) → st'.(items) = st.(items) →
  st'.(bidders_to_items) = st.(bidders_to_items) →
  st'.(params) = st.(params) →
  matching_cost st' = matching_cost st.
Proof.
  intros HN HA HB Hb Hp. unfold matching_cost, pair_cost.
  by rewrite HN, HA, HB, Hb, Hp.
Qed.

Lemma add_bidder_cost_pair_cost st (b : nat) (i : Z) (r r' : R) :
  sized st → (b < st.(num_bidders))%nat →
  st.(bidders_to_items) !! b = Some i → i ≠ k_invalid_index →
  add_bidder_cost st b r = Ok r' →
  r' = (r + pair_cost st b)%real.
Proof.
  intros Hsz Hb Hi Hne Hrun. unfold add_bidder_cost in Hrun.
  rewrite (vec_get_of_nat _ _ _ Hi) in Hrun. simpl in Hrun.
  apply bind_Ok in Hrun as (c & Hc & Hrun). injection Hrun as <-.
  f_equal. unfold get_item_bidder_cost in Hc.
  apply Z.eqb_neq in Hne. rewrite Hne in Hc.
  pose proof (sentinel_not_index st b Hsz Hb) as Hb'.
  apply Z.eqb_neq in Hb'. rewrite Hb' in Hc. simpl in Hc.
  apply bind_Ok in Hc as (pb & Hpb & Hc).
  apply bind_Ok in Hc as (pi & Hpi & Hc). injection Hc as <-.
  apply vec_get_Ok in Hpb as [_ Hpb]. apply vec_get_Ok in Hpi as [_ Hpi].
  rewrite Nat2Z.id in Hpb. unfold pair_cost. by rewrite Hpb, Hi, Hpi.
Qed.

Lemma for_each_add_bidder_cost st (l : list nat) (r0 C : R) :
  sized st →
  (∀ b : nat, b ∈ l →
     (b < st.(num_bidders))%nat
     ∧ ∃ i : Z, st.(bidders_to_items) !! b = Some i ∧ i ≠ k_invalid_index) →
  for_each l (add_bidder_cost st) r0 = Ok C →
  C = foldl (λ r b, (r + pair_cost st b)%real) r0 l.
Proof.
  intros Hsz. revert r0. induction l as [|b l IH]; intros r0 Hl Hrun;
    simpl in *.
  - by injection Hrun as <-.
  - apply bind_Ok in Hrun as (r1 & Hstep & Hrun).
    destruct (Hl b) as (Hb & i & Hi & Hne); [by left|].
    rewrite (add_bidder_cost_pair_cost _ _ _ _ _ Hsz Hb Hi Hne Hstep)
      in Hrun.
    apply IH; [|done]. intros b' Hb'. apply Hl. by right.
Qed.

(** After an iteration of the phase loop the ledger is a perfect matching
    and [cost] is its cost. *)
Lemma phase_iteration_matching (fuel : nat) st st' (stop : bool) (e : R) :
  sized st → phase_iteration fuel st = Ok (stop, e, st') →
  ledger_ok st' ∧ unassigned_ok st' ∧ st'.(unassigned_bidders) = ∅
  ∧ st'.(result).(cost) = matching_cost st'.
Proof.
  intros Hsz Hrun.
  destruct (phase_iteration_inv _ _ _ _ _ Hrun)
    as (st1 & st2 & st3 & C & Hflush & Hphase & Hcost & _ & _ & Hst').
  destruct (flush_assignment_ledger_ok _ _ Hsz Hflush) as [Hok1 Hun1].
  destruct (run_auction_phase_ledger_ok _ _ _ Hok1 Hun1 Hphase)
    as (Hok2 & Hun2 & Hempty).
  destruct (getDistanceToQthPowerInternal_inv _ _ _ Hcost) as [Hsum ->].
  destruct (ledger_ok_perfect_matching _ Hok2 Hun2 Hempty) as [Hheld _].
  assert (C = matching_cost st2) as HC.
  { apply (for_each_add_bidder_cost st2 _ _ _ (ledger_sized _ Hok2));
      [|done].
    intros b Hb%elem_of_seq. split; [lia|].
    destruct (Hheld b) as (i & Hi & Hv & _); [lia|].
    exists i. split; [done|]. intros ->.
    by apply (sized_sentinel _ (ledger_sized _ Hok2)). }
  simpl in Hst'.
  split; [|split; [|split]].
  - apply (ledger_ok_ext st2); [..|done];
      rewrite Hst'; by repeat case_match.
  - apply (unassigned_ok_ext st2); [..|done];
      rewrite Hst'; by repeat case_match.
  - rewrite Hst'. by repeat case_match.
  - rewrite (matching_cost_ext st2 st'), <- HC;
      rewrite Hst'; by repeat case_match.
Qed.

Lemma phase_loop_matching (fuel left : nat) st st' (tr : phases_trace R) :
  sized st → phase_loop fuel left st = Ok (tr, st') →
  (tr.(trace_epsilons) = [] → st' = st)
  ∧ (tr.(trace_epsilons) ≠ [] →
     ledger_ok st' ∧ unassigned_ok st' ∧ st'.(unassigned_bidders) = ∅
     ∧ st'.(result).(cost) = matching_cost st').
Proof.
  revert st tr st'. induction left as [|left IH]; intros st tr st' Hsz Hrun;
    simpl in Hrun.
  { injection Hrun as <- <-. by split. }
  apply bind_Ok in Hrun as ([[stop e] st1] & Hiter & Hrun).
  pose proof (phase_iteration_matching _ _ _ _ _ Hsz Hiter) as Hm1.
  destruct stop.
  { injection Hrun as <- <-. simpl. by split. }
  apply bind_Ok in Hrun as ([tr1 st2] & Hloop & Hrun).
  injection Hrun as <- <-. simpl. split; [done|]. intros _.
  destruct Hm1 as (Hok1 & Hrest).
  destruct (IH _ _ _ (ledger_sized _ Hok1) Hloop) as [Hnil Hcons].
  destruct tr1.(trace_epsilons) as [|e1 es].
  - by rewrite Hnil.
  - by apply Hcons.
Qed.

(** C8. After a run on a constructed runner (sets of equal size, the
    sentinel not an index) that returns: when the final matching is
    complete, [result.cost] is the sum over the bidders [b] of
    [dist_lp(bidders[b], items[bidders_to_items[b]])^q]; and the matching
    is complete when there is one bidder or at least one phase ran. *)
Theorem run_auction_cost_consistent (fuel : nat) (A B : list Point)
    (p : AuctionParams R) (prices0 : list R) st st' :
  length A = length B → ¬ valid_index (length A) k_invalid_index →
  constructor A B p prices0 = Ok st →
  run_auction fuel st = Ok st' →
  (complete_matching st' → st'.(result).(cost) = matching_cost st')
  ∧ (length A = 1%nat ∨ 0 < p.(max_num_phases) → complete_matching st').
Proof.
  intros Hlen Hsent Hctor Hrun.
  pose proof (constructor_ledger_ok _ _ _ _ _ Hlen Hsent Hctor) as Hok.
  destruct (constructor_inv _ _ _ _ _ Hctor)
    as (HA & HB & HN & HNi & Hi2b & Hb2i & Hun & Hres & _ & _ & _ & _ & _
        & _ & _ & Hmax & _).
  destruct (decide (length A = 1%nat)) as [Hone|Hone].
  - destruct A as [|a [|? ?]]; try done. destruct B as [|b [|? ?]]; try done.
    assert (k_invalid_index ≠ 0) as Hsent0.
    { intros Heq. apply Hsent. rewrite Heq. unfold valid_index. simpl. lia. }
    destruct (single_point_run fuel a b p prices0 st Hsent0 Hctor)
      as (st'' & Hrun' & Hb2i' & _ & Hcost & _ & _ & _ & HA' & HB' & HN'
          & Hpar').
    rewrite Hrun in Hrun'. injection Hrun' as <-.
    assert (st'.(result).(cost) = matching_cost st') as Heq.
    { unfold matching_cost, pair_cost. rewrite HN', HA', HB', Hb2i'. simpl.
      rewrite real_add_0_l, Hcost, Hpar'.
      destruct (constructor_inv _ _ _ _ _ Hctor)
        as (_ & _ & _ & _ & _ & _ & _ & _ & _ & _ & _ & -> & -> & -> & _).
      done. }
    split; [done|]. intros _ b' Hb'. rewrite HN' in *. exists 0.
    assert (b' = 0%nat) as -> by lia. rewrite Hb2i'.
    split; [done|]. unfold valid_index. lia.
  - unfold run_auction, run_auction_phases in Hrun.
    rewrite HN in Hrun.
    rewrite (proj2 (Nat.eqb_neq _ _) Hone) in Hrun.
    apply bind_Ok in Hrun as (st2 & Hrun & Hfin).
    apply bind_Ok in Hrun as (st1 & Hrun & Hcheck).
    apply bind_Ok in Hrun as ([tr st1'] & Hphases & Hrun).
    injection Hrun as ->.
    apply bind_Ok in Hcheck as (_ & _ & Hcheck). injection Hcheck as <-.
    injection Hfin as <-.
    destruct (run_auction_phases_traced_inv _ _ _ _ Hphases)
      as (st0 & stl & Hpro & Hloop & ->).
    destruct (phases_prologue_inv _ _ Hpro)
      as ((HA0 & HB0 & HN0 & HNi0 & Hpar0) & _ & _ & _ & _ & _ & Hcost0
          & Hb2i0 & Hi2b0 & Hun0).
    assert (sized st0) as Hsz0.
    { by apply (sized_ext st); [..|apply Hok]. }
    destruct (phase_loop_matching _ _ _ _ _ Hsz0 Hloop) as [Hnil Hcons].
    destruct (phase_loop_facts _ _ _ _ _ Hloop)
      as (_ & _ & _ & _ & Hexit).
    set (stf := fill_matching _).
    assert (stf.(num_bidders) = stl.(num_bidders)
            ∧ stf.(bidders) = stl.(bidders) ∧ stf.(items) = stl.(items)
            ∧ stf.(bidders_to_items) = stl.(bidders_to_items)
            ∧ stf.(params) = stl.(params)
            ∧ stf.(result).(cost) = stl.(result).(cost))
      as (HNf & HAf & HBf & Hbf & Hpf & Hcf).
    { subst stf. unfold fill_matching. simpl.
      by destruct (return_matching _). }
    destruct (decide (tr.(trace_epsilons) = [])) as [Hempty|Hne].
    + rewrite (Hnil Hempty) in *. split.
      * intros Hcomplete.
        assert (st.(num_bidders) = 0%nat) as Hzero.
        { destruct (decide (st.(num_bidders) = 0%nat)) as [?|Hnz];
            [done|exfalso].
          destruct (Hcomplete 0%nat) as (i & Hi & Hv).
          { rewrite HNf, HN0. lia. }
          rewrite Hbf, Hb2i0, Hb2i in Hi.
          apply lookup_replicate in Hi as [-> _].
          rewrite HNf, HN0, HN in Hv. done. }
        rewrite Hcf, Hcost0, Hres. unfold matching_cost.
        by rewrite HNf, HN0, Hzero.
      * intros [?|Hpos]; [done|].
        rewrite Hempty in Hexit. destruct tr.(trace_exit).
        -- by destruct Hexit as [? _].
        -- destruct Hexit as [Hl _]. simpl in Hl. rewrite Hmax in Hl. lia.
    + destruct (Hcons Hne) as (Hokl & Hunl & Hemptyl & Hcostl).
      assert (complete_matching stf) as Hcomplete.
      { intros b Hb. rewrite HNf in *.
        destruct (ledger_ok_perfect_matching _ Hokl Hunl Hemptyl)
          as [Hheld _].
        destruct (Hheld b Hb) as (i & Hi & Hv & _).
        exists i. by rewrite Hbf. }
      split; [|done]. intros _.
      by rewrite Hcf, Hcostl, (matching_cost_ext stl stf).
Qed.
End PhaseLoopFacts.

(** ** Fuel

    The fuel only bounds how far the model follows the bidding loop: a run
    that returns with some fuel returns the same state with any larger
    amount. *)

Section FuelFacts.
Context {R : Type} {RT : RealType R} {Point AO : Type}.
Context {OR : AuctionOracle R Point (AuctionParams R) AO}.
Context {US : UnorderedSetBegin} {DC : Declarations R Point}.

Implicit Types st : @AuctionRunnerGS R Point AO.

Lemma bidding_loop_fuel_mono (fuel fuel' : nat) st st' :
  (fuel ≤ fuel')%nat → bidding_loop fuel st = Ok st' →
  bidding_loop fuel' st = Ok st'.
Proof.
  revert fuel' st. induction fuel as [|fuel IH]; intros fuel' st Hle Hrun;
    [done|].
  destruct fuel' as [|fuel']; [lia|]. simpl in *.
  apply bind_Ok in Hrun as (st1 & Hround & Hrun). rewrite Hround. simpl.
  destruct (bool_decide (st1.(unassigned_bidders) = ∅)); [done|].
  apply IH; [lia|done].
Qed.

Lemma run_auction_phase_fuel_mono (fuel fuel' : nat) st st' :
  (fuel ≤ fuel')%nat → run_auction_phase fuel st = Ok st' →
  run_auction_phase fuel' st = Ok st'.
Proof.
  unfold run_auction_phase. intros Hle Hrun.
  apply bind_Ok in Hrun as (st1 & Hloop & Hrun).
  by rewrite (bidding_loop_fuel_mono _ _ _ _ Hle Hloop).
Qed.

Lemma phase_iteration_fuel_mono (fuel fuel' : nat) st
    (r : bool * R * AuctionRunnerGS) :
  (fuel ≤ fuel')%nat → phase_iteration fuel st = Ok r →
  phase_iteration fuel' st = Ok r.
Proof.
  unfold phase_iteration. intros Hle Hrun.
  apply bind_Ok in Hrun as (st1 & Hflush & Hrun). rewrite Hflush. simpl.
  apply bind_Ok in Hrun as (st2 & Hphase & Hrun).
  by rewrite (run_auction_phase_fuel_mono _ _ _ _ Hle Hphase).
Qed.

Lemma phase_loop_fuel_mono (fuel fuel' left : nat) st
    (r : phases_trace R * AuctionRunnerGS) :
  (fuel ≤ fuel')%nat → phase_loop fuel left st = Ok r →
  phase_loop fuel' left st = Ok r.
Proof.
  intros Hle. revert st r. induction left as [|left IH]; intros st r Hrun;
    [done|].
  simpl in *. apply bind_Ok in Hrun as ([[stop e] st1] & Hiter & Hrun).
  rewrite (phase_iteration_fuel_mono _ _ _ _ Hle Hiter). simpl.
  destruct stop; [done|].
  apply bind_Ok in Hrun as ([tr st2] & Hloop & Hrun).
  by rewrite (IH _ _ Hloop).
Qed.

Lemma run_auction_phases_traced_fuel_mono (fuel fuel' : nat) st
    (r : phases_trace R * AuctionRunnerGS) :
  (fuel ≤ fuel')%nat → run_auction_phases_traced fuel st = Ok r →
  run_auction_phases_traced fuel' st = Ok r.
Proof.
  unfold run_auction_phases_traced. intros Hle Hrun.
  apply bind_Ok in Hrun as (st0 & Hpro & Hrun). rewrite Hpro. simpl.
  apply bind_Ok in Hrun as ([tr st1] & Hloop & Hrun).
  by rewrite (phase_loop_fuel_mono _ _ _ _ _ Hle Hloop).
Qed.

Lemma run_auction_fuel_mono (fuel fuel' : nat) st st' :
  (fuel ≤ fuel')%nat → run_auction fuel st = Ok st' →
  run_auction fuel' st = Ok st'.
Proof.
  unfold run_auction, run_auction_phases. intros Hle Hrun.
  destruct (st.(num_bidders) =? 1)%nat; [done|].
  apply bind_Ok in Hrun as (st2 & Hrun & Hfin).
  apply bind_Ok in Hrun as (st1 & Hrun & Hcheck).
  apply bind_Ok in Hrun as ([tr st1'] & Hphases & Hrun).
  rewrite (run_auction_phases_traced_fuel_mono _ _ _ _ Hle Hphases).
  simpl in *. injection Hrun as ->. by rewrite Hcheck.
Qed.

End FuelFacts.

(** * Further properties of the runner *)

(** ** [sanity_check] and the ledger operations *)

Section LedgerChecks.
Context {R : Type} {RT : RealType R} {Point AO : Type}.
Context {OR : AuctionOracle R Point (AuctionParams R) AO}.
Context {US : UnorderedSetBegin} {DC : Declarations R Point}.

Implicit Types st : @AuctionRunnerGS R Point AO.

(** A loop over checks that returns has passed every check. *)
Lemma for_each_unit_inv (l : list nat) (body : nat → unit → res unit) :
  for_each l body tt = Ok tt → ∀ i, i ∈ l → body i tt = Ok tt.
Proof.
  induction l as [|j l IH]; intros Hrun i Hi; [by apply elem_of_nil in Hi|].
  simpl in Hrun. apply bind_Ok in Hrun as ([] & Hj & Hrun).
  apply elem_of_cons in Hi as [->|Hi]; [done|by apply IH].
Qed.

Lemma sanity_check_bidder_inv st (b : nat) (i : Z) :
  sanity_check_bidder st b tt = Ok tt →
  st.(bidders_to_items) !! b = Some i → i ≠ k_invalid_index →
  0 ≤ i ∧ st.(items_to_bidders) !! Z.to_nat i = Some (Z.of_nat b).
Proof.
  unfold sanity_check_bidder. intros Hrun Hi Hne.
  apply bind_Ok in Hrun as (_ & _ & Hrun).
  rewrite (vec_get_of_nat _ _ _ Hi) in Hrun. simpl in Hrun.
  apply Z.eqb_neq in Hne. rewrite Hne in Hrun.
  destruct (1 <? count_occ Z.eq_dec _ i)%nat; [done|].
  apply bind_Ok in Hrun as (y & Hy & Hrun).
  apply vec_at_Ok in Hy as [Hi0 Hy].
  destruct (Z.eqb_spec y (Z.of_nat b)) as [->|]; [done|discriminate].
Qed.

Lemma sanity_check_item_inv st (i : nat) (b : Z) :
  sanity_check_item st i tt = Ok tt →
  st.(items_to_bidders) !! i = Some b → b ≠ k_invalid_index →
  0 ≤ b ∧ st.(bidders_to_items) !! Z.to_nat b = Some (Z.of_nat i).
Proof.
  unfold sanity_check_item. intros Hrun Hi Hne.
  apply bind_Ok in Hrun as (_ & _ & Hrun).
  rewrite (vec_at_of_nat _ _ _ Hi) in Hrun. simpl in Hrun.
  apply Z.eqb_neq in Hne. rewrite Hne in Hrun.
  destruct (1 <? count_occ Z.eq_dec _ b)%nat; [done|].
  apply bind_Ok in Hrun as (y & Hy & Hrun).
  apply vec_at_Ok in Hy as [Hb0 Hy].
  destruct (Z.eqb_spec y (Z.of_nat i)) as [->|]; [done|discriminate].
Qed.

(** X1. In a build with [DEBUG_AUCTION], a [sanity_check] that returns has
    established the ledger invariant: both vectors have [num_bidders]
    entries, and on entries that are not the sentinel they are inverse to
    each other. *)
Theorem sanity_check_sound st :
  DEBUG_AUCTION = true → sanity_check st = Ok tt →
  length st.(bidders_to_items) = st.(num_bidders)
  ∧ length st.(items_to_bidders) = st.(num_bidders)
  ∧ (∀ (b : nat) (i : Z),
       st.(bidders_to_items) !! b = Some i → i ≠ k_invalid_index →
       0 ≤ i ∧ st.(items_to_bidders) !! Z.to_nat i = Some (Z.of_nat b))
  ∧ (∀ (i : nat) (b : Z),
       st.(items_to_bidders) !! i = Some b → b ≠ k_invalid_index →
       0 ≤ b ∧ st.(bidders_to_items) !! Z.to_nat b = Some (Z.of_nat i)).
Proof.
  unfold sanity_check. intros -> Hrun.
  destruct (Nat.eqb_spec (length st.(bidders_to_items)) st.(num_bidders))
    as [Hlb|]; [|done].
  destruct (Nat.eqb_spec (length st.(items_to_bidders)) st.(num_bidders))
    as [Hli|]; [|done].
  simpl in Hrun. apply bind_Ok in Hrun as ([] & Hbidders & Hitems).
  do 2 (split; [done|]). split.
  - intros b i Hb Hne. apply sanity_check_bidder_inv; [|done..].
    apply (for_each_unit_inv _ _ Hbidders), elem_of_seq.
    apply lookup_lt_Some in Hb. lia.
  - intros i b Hi Hne. apply sanity_check_item_inv; [|done..].
    apply (for_each_unit_inv _ _ Hitems), elem_of_seq.
    apply lookup_lt_Some in Hi. lia.
Qed.

(** X2. On a consistent ledger [sanity_check] returns, whatever the build:
    it throws none of its five errors and fails none of its assertions. *)
Theorem sanity_check_complete st : ledger_ok st → sanity_check st = Ok tt.
Proof. apply sanity_check_Ok. Qed.

(** X3. With assertions compiled in, [assign_item_to_bidder] for a bidder
    that already holds an item fails the assertion "only unassigned bidders
    should submit bids" instead of changing the ledger. *)
Theorem assign_item_to_bidder_held st (item_idx bidder_idx i : Z) :
  ledger_ok st → NDEBUG = false → 0 ≤ bidder_idx →
  st.(bidders_to_items) !! Z.to_nat bidder_idx = Some i →
  i ≠ k_invalid_index →
  assign_item_to_bidder item_idx bidder_idx st = Fail AssertionFailed.
Proof.
  intros Hok Hnd Hb0 Hheld Hne. unfold assign_item_to_bidder.
  rewrite sanity_check_Ok; [|by apply ledger_ok_with_result]. simpl.
  unfold assert_. rewrite Hnd.
  rewrite (proj2 (vec_get_Ok _ _ _) (conj Hb0 Hheld)). simpl.
  apply Z.eqb_neq in Hne. by rewrite Hne.
Qed.

(** X4. [assign_item_to_bidder] keeps the invariants: when the bidder held
    no item, a consistent ledger stays consistent, and an unassigned set
    that holds exactly the bidders without an item (bidder indices only)
    still does afterwards: a value is in the set if and only if it is a
    bidder index whose entry is the sentinel. *)
Theorem assign_item_to_bidder_invariant st st' (item_idx bidder_idx : Z) :
  ledger_ok st → unassigned_ok st →
  (∀ b : Z, b ∈ st.(unassigned_bidders) → valid_index st.(num_bidders) b) →
  st.(bidders_to_items) !! Z.to_nat bidder_idx = Some k_invalid_index →
  assign_item_to_bidder item_idx bidder_idx st = Ok st' →
  ledger_ok st' ∧ unassigned_ok st'
  ∧ (∀ b : Z,
       b ∈ st'.(unassigned_bidders)
       ↔ valid_index st'.(num_bidders) b
         ∧ st'.(bidders_to_items) !! Z.to_nat b = Some k_invalid_index).
Proof.
  intros Hok Hun Hsub Hfree Hrun.
  pose proof (assign_item_to_bidder_ledger_ok _ _ _ _ Hok Hfree Hrun)
    as Hok'.
  pose proof (assign_item_to_bidder_unassigned_ok _ _ _ _ Hok Hun Hfree
                Hrun) as Hun'.
  split; [done|]. split; [done|].
  destruct (assign_item_to_bidder_inv _ _ _ _ Hrun)
    as (old & _ & _ & Hold & Holdv & _ & _ & Hset & _ & _ & _ & HN & _).
  pose proof (sized_bidders_to_items _ (ledger_sized _ Hok)) as Hlen.
  intros b. split.
  - intros Hb.
    assert (valid_index st'.(num_bidders) b) as Hv.
    { rewrite HN. rewrite Hset in Hb.
      destruct (Z.eqb_spec old k_invalid_index) as [->|Hne].
      - apply Hsub. set_solver.
      - apply elem_of_union in Hb as [Hb|Hb%elem_of_singleton].
        + apply Hsub. set_solver.
        + subst b. specialize (Holdv Hne). unfold valid_index. lia. }
    split; [done|]. by apply (unassigned_sound _ Hun').
  - intros [[Hb0 _] Hl].
    rewrite <- (Z2Nat.id b Hb0). by apply (unassigned_complete _ Hun').
Qed.

(** How a call changes the number of unassigned bidders. *)
Lemma assign_item_to_bidder_size st st' (item_idx bidder_idx old : Z) :
  ledger_ok st → unassigned_ok st →
  bidder_idx ∈ st.(unassigned_bidders) →
  st.(items_to_bidders) !! Z.to_nat item_idx = Some old →
  assign_item_to_bidder item_idx bidder_idx st = Ok st' →
  size st'.(unassigned_bidders)
  = if old =? k_invalid_index
    then (size st.(unassigned_bidders) - 1)%nat
    else size st.(unassigned_bidders).
Proof.
  intros Hok Hun Hin Hold Hrun. pose proof (ledger_sized _ Hok) as Hsz.
  destruct (assign_item_to_bidder_inv _ _ _ _ Hrun)
    as (old' & Hb & Hi & Hold' & Holdv & _ & _ & Hun' & _).
  rewrite Hold in Hold'. injection Hold' as <-. rewrite Hun'.
  assert (size (st.(unassigned_bidders) ∖ {[bidder_idx]})
          = (size st.(unassigned_bidders) - 1)%nat) as Hminus.
  { rewrite size_difference by set_solver. by rewrite size_singleton. }
  destruct (Z.eqb_spec old k_invalid_index) as [->|Hne]; [done|].
  assert (st.(bidders_to_items) !! Z.to_nat bidder_idx
          = Some k_invalid_index) as Hfree.
  { apply (unassigned_sound _ Hun); [done|].
    rewrite (sized_bidders_to_items _ Hsz) in Hb. exact Hb. }
  destruct (ledger_items_to_bidders _ Hok _ _ Hold Hne) as [Hold0 Hback].
  assert (old ∉ st.(unassigned_bidders)) as Hnotin.
  { intros Hoin.
    pose proof (ledger_owner_valid _ _ _ Hok Hold Hne) as Hv.
    rewrite (unassigned_sound _ Hun _ Hoin Hv) in Hback.
    injection Hback as Hback.
    apply (sized_sentinel _ Hsz). rewrite Hback.
    rewrite (sized_items_to_bidders _ Hsz) in Hi.
    unfold valid_index. lia. }
  rewrite size_union by set_solver. rewrite Hminus, size_singleton.
  assert (size st.(unassigned_bidders) ≠ 0%nat); [|lia].
  intros Hzero%size_empty_inv. set_solver.
Qed.

(** X5. A bid by an unassigned bidder on a free item takes one bidder out
    of the unassigned set; a bid on a held item leaves its size unchanged
    (the previous holder replaces the bidder). *)
Theorem assign_item_to_bidder_unassigned_size st st'
    (item_idx bidder_idx old : Z) :
  ledger_ok st → unassigned_ok st →
  bidder_idx ∈ st.(unassigned_bidders) →
  st.(items_to_bidders) !! Z.to_nat item_idx = Some old →
  assign_item_to_bidder item_idx bidder_idx st = Ok st' →
  size st'.(unassigned_bidders)
  = if old =? k_invalid_index
    then (size st.(unassigned_bidders) - 1)%nat
    else size st.(unassigned_bidders).
Proof. apply assign_item_to_bidder_size. Qed.

(** *** flush_assignment *)

Lemma size_all_bidders (n : nat) :
  size (list_to_set (Z.of_nat <$> seq 0 n) : gset Z) = n.
Proof.
  rewrite size_list_to_set.
  - by rewrite length_fmap, length_seq.
  - apply NoDup_fmap_2; [apply _|apply NoDup_seq].
Qed.

Lemma elem_of_all_bidders (n : nat) (b : Z) :
  b ∈ (list_to_set (Z.of_nat <$> seq 0 n) : gset Z) ↔ valid_index n b.
Proof.
  rewrite elem_of_list_to_set, list_elem_of_fmap. unfold valid_index. split.
  - intros (k & -> & Hk%elem_of_seq). lia.
  - intros [Hb0 Hbn]. exists (Z.to_nat b). split; [lia|].
    apply elem_of_seq. lia.
Qed.

Lemma flush_assignment_returns st :
  st.(unassigned_bidders) = ∅ → length st.(bidders) = st.(num_bidders) →
  ∃ st', flush_assignment st = Ok st'.
Proof.
  intros Hempty Hlen. unfold flush_assignment. simpl.
  rewrite (assert_true (bool_decide _));
    [|by apply bool_decide_eq_true_2].
  simpl. rewrite assert_true; [simpl; eauto|].
  rewrite Hempty, (left_id_L ∅ (∪)), size_all_bidders, Hlen.
  apply Nat.eqb_refl.
Qed.

(** X6. With assertions compiled in, [flush_assignment] returns exactly
    when the unassigned set is empty (the previous phase is complete) and
    there are [num_bidders] bidder points; otherwise it fails an
    assertion. *)
Theorem flush_assignment_asserts st :
  NDEBUG = false →
  (st.(unassigned_bidders) = ∅ ∧ length st.(bidders) = st.(num_bidders) →
   ∃ st', flush_assignment st = Ok st')
  ∧ (¬ (st.(unassigned_bidders) = ∅
        ∧ length st.(bidders) = st.(num_bidders)) →
     flush_assignment st = Fail AssertionFailed).
Proof.
  intros Hnd. unfold flush_assignment, assert_. rewrite Hnd. simpl.
  destruct (decide (st.(unassigned_bidders) = ∅)) as [Hempty|Hne].
  - rewrite bool_decide_eq_true_2 by done. simpl.
    rewrite Hempty, (left_id_L ∅ (∪)), size_all_bidders.
    destruct (Nat.eqb_spec st.(num_bidders) (length st.(bidders)))
      as [Heq|Hneq]; simpl.
    + split; [eauto|]. intros Hnot. destruct Hnot. by split.
    + split; [|done]. intros [_ Heq]. by destruct Hneq.
  - rewrite bool_decide_eq_false_2 by done. simpl.
    split; [|done]. by intros [? _].
Qed.

(** X7. After a completed phase (unassigned set empty), a
    [flush_assignment] that returns has reset the ledger: every entry of
    both vectors is the sentinel, the unassigned set is exactly the
    [num_bidders] bidder indices, the oracle has adjusted its prices, and
    the result is untouched. *)
Theorem flush_assignment_resets st st' :
  sized st → st.(unassigned_bidders) = ∅ →
  flush_assignment st = Ok st' →
  ledger_ok st'
  ∧ st'.(bidders_to_items) = replicate st.(num_bidders) k_invalid_index
  ∧ st'.(items_to_bidders) = replicate st.(num_bidders) k_invalid_index
  ∧ (∀ b : Z, b ∈ st'.(unassigned_bidders) ↔ valid_index st.(num_bidders) b)
  ∧ size st'.(unassigned_bidders) = st.(num_bidders)
  ∧ st'.(oracle) = oracle_adjust_prices st.(oracle)
  ∧ st'.(result) = st.(result).
Proof.
  intros Hsz Hempty Hrun.
  destruct (flush_assignment_ledger_ok _ _ Hsz Hrun) as [Hok _].
  destruct (flush_assignment_inv _ _ Hrun)
    as (Hb2i & Hi2b & Hun & Hor & Hres & _).
  rewrite Hempty, (left_id_L ∅ (∪)) in Hun.
  rewrite (sized_bidders_to_items _ Hsz) in Hb2i.
  rewrite (sized_items_to_bidders _ Hsz) in Hi2b.
  do 3 (split; [done|]). split; [|split; [|done]].
  - intros b. rewrite Hun. apply elem_of_all_bidders.
  - rewrite Hun. apply size_all_bidders.
Qed.

(** *** run_auction_phase *)

Lemma bidding_round_rounds st st' :
  ledger_ok st → unassigned_ok st → bidding_round st = Ok st' →
  st'.(result).(num_rounds) = st.(result).(num_rounds) + 1
  ∧ (size st.(unassigned_bidders) ≤ size st'.(unassigned_bidders) + 1)%nat.
Proof.
  intros Hok Hun Hrun. unfold bidding_round in Hrun.
  destruct (uset_begin st.(unassigned_bidders)) as [bidder_idx|] eqn:Hbegin;
    [|done].
  apply uset_begin_elem in Hbegin.
  destruct (oracle_get_optimal_bid bidder_idx st.(oracle))
    as [[optimal_item_idx bid_value] o].
  apply bind_Ok in Hrun as (st1 & Hassign & Hrun). injection Hrun as <-.
  apply (ledger_ok_with_oracle _ o) in Hok.
  apply (unassigned_ok_with_oracle _ o) in Hun.
  destruct (assign_item_to_bidder_inv _ _ _ _ Hassign)
    as (old & _ & _ & Hold & _ & _ & _ & _ & Hres & _).
  pose proof (assign_item_to_bidder_size _ _ _ _ _ Hok Hun Hbegin Hold
                Hassign) as Hsize.
  simpl in *. rewrite Hres. split; [done|].
  rewrite Hsize. destruct (old =? k_invalid_index); lia.
Qed.

Lemma bidding_loop_rounds (fuel : nat) st st' :
  ledger_ok st → unassigned_ok st → bidding_loop fuel st = Ok st' →
  st.(result).(num_rounds) + Z.of_nat (size st.(unassigned_bidders))
  ≤ st'.(result).(num_rounds)
  ∧ st.(result).(num_rounds) < st'.(result).(num_rounds)
  ∧ st'.(result).(num_rounds) ≤ st.(result).(num_rounds) + Z.of_nat fuel.
Proof.
  revert st. induction fuel as [|fuel IH]; intros st Hok Hun Hrun;
    simpl in Hrun; [done|].
  apply bind_Ok in Hrun as (st1 & Hround & Hrun).
  destruct (bidding_round_ledger_ok _ _ Hok Hun Hround) as [Hok1 Hun1].
  destruct (bidding_round_rounds _ _ Hok Hun Hround) as [Hr Hs].
  destruct (bool_decide (st1.(unassigned_bidders) = ∅)) eqn:Hempty.
  - injection Hrun as <-. apply bool_decide_eq_true in Hempty.
    rewrite Hempty, size_empty in Hs. lia.
  - destruct (IH _ Hok1 Hun1 Hrun) as (? & ? & ?). lia.
Qed.

Lemma bidding_loop_num_phases (fuel : nat) st st' :
  bidding_loop fuel st = Ok st' →
  st'.(result).(num_phases) = st.(result).(num_phases).
Proof.
  revert st. induction fuel as [|fuel IH]; intros st Hrun; simpl in Hrun;
    [done|].
  apply bind_Ok in Hrun as (st1 & Hround & Hrun).
  assert (st1.(result).(num_phases) = st.(result).(num_phases)) as Hp.
  { unfold bidding_round in Hround.
    destruct (uset_begin st.(unassigned_bidders)) as [bidder_idx|];
      [|done].
    destruct (oracle_get_optimal_bid bidder_idx st.(oracle))
      as [[optimal_item_idx bid_value] o].
    apply bind_Ok in Hround as (st2 & Hassign & Hround).
    injection Hround as <-.
    destruct (assign_item_to_bidder_inv _ _ _ _ Hassign)
      as (_ & _ & _ & _ & _ & _ & _ & _ & Hres & _).
    simpl. by rewrite Hres. }
  destruct (bool_decide (st1.(unassigned_bidders) = ∅)).
  - by injection Hrun as <-.
  - by rewrite (IH _ Hrun).
Qed.

Lemma completed_phase_rounds (fuel : nat) st st1 st2 :
  sized st → flush_assignment st = Ok st1 →
  run_auction_phase fuel st1 = Ok st2 →
  st2.(result).(num_phases) = st.(result).(num_phases) + 1
  ∧ st.(result).(num_rounds) + Z.of_nat st.(num_bidders)
    ≤ st2.(result).(num_rounds)
  ∧ st.(result).(num_rounds) < st2.(result).(num_rounds)
  ∧ st2.(result).(num_rounds) ≤ st.(result).(num_rounds) + Z.of_nat fuel.
Proof.
  intros Hsz Hflush Hphase.
  destruct (flush_assignment_ledger_ok _ _ Hsz Hflush) as [Hok1 Hun1].
  destruct (flush_assignment_inv _ _ Hflush)
    as (_ & _ & Hun & _ & Hres & _).
  pose proof Hphase as Hloop%run_auction_phase_inv.
  destruct (bidding_loop_rounds _ _ _ (ledger_ok_with_result _ _ Hok1)
              (unassigned_ok_with_result _ _ Hun1) Hloop)
    as (Hlow & Hpos & Hhigh).
  pose proof (bidding_loop_num_phases _ _ _ Hloop) as Hphases.
  simpl in *. rewrite Hres in *.
  assert (st.(num_bidders) ≤ size st1.(unassigned_bidders))%nat as Hsize.
  { rewrite <- (size_all_bidders st.(num_bidders)), Hun.
    apply subseteq_size. set_solver. }
  repeat split; try lia.
Qed.

(** X8. A phase that completes after [flush_assignment] counts itself once
    in [num_phases] and takes at least [num_bidders] rounds, and at least
    one: every bidder has to bid at least once. *)
Theorem run_auction_phase_rounds (fuel : nat) st st1 st2 :
  sized st → flush_assignment st = Ok st1 →
  run_auction_phase fuel st1 = Ok st2 →
  st2.(result).(num_phases) = st.(result).(num_phases) + 1
  ∧ st.(result).(num_rounds) + Z.of_nat st.(num_bidders)
    ≤ st2.(result).(num_rounds)
  ∧ st.(result).(num_rounds) < st2.(result).(num_rounds)
  ∧ st2.(result).(num_rounds) ≤ st.(result).(num_rounds) + Z.of_nat fuel.
Proof. apply completed_phase_rounds. Qed.

(** *** What a phase cannot do *)

Lemma bind_Fail {A B : Type} (m : res A) (k : A → res B) (f : fault) :
  (m ≫= k) = Fail f ↔ m = Fail f ∨ ∃ a, m = Ok a ∧ k a = Fail f.
Proof.
  destruct m as [a|f']; simpl; split.
  - intros Hk. right. by exists a.
  - by intros [[=]|(a' & [= ->] & Hk)].
  - intros [= ->]. by left.
  - by intros [[= ->]|(a' & [=] & _)].
Qed.

Lemma vec_get_Fail {A : Type} (v : list A) (i : Z) (f : fault) :
  vec_get v i = Fail f → f = Undefined.
Proof.
  unfold vec_get. destruct (0 <=? i); [|by intros [= <-]].
  destruct (v !! Z.to_nat i); [done|by intros [= <-]].
Qed.

Lemma vec_set_Fail {A : Type} (v : list A) (i : Z) (x : A) (f : fault) :
  vec_set v i x = Fail f → f = Undefined.
Proof.
  unfold vec_set. destruct (_ && _); [done|by intros [= <-]].
Qed.

(** On a consistent ledger, a call for a bidder without an item can only
    fail by leaving the vectors. *)
Lemma assign_item_to_bidder_failure st (item_idx bidder_idx : Z)
    (f : fault) :
  ledger_ok st →
  (valid_index st.(num_bidders) bidder_idx →
   st.(bidders_to_items) !! Z.to_nat bidder_idx = Some k_invalid_index) →
  assign_item_to_bidder item_idx bidder_idx st = Fail f →
  f = Undefined.
Proof.
  intros Hok Hfree. unfold assign_item_to_bidder.
  rewrite sanity_check_Ok; [|by apply ledger_ok_with_result]. simpl.
  intros Hrun. apply bind_Fail in Hrun as [Hassert|([] & _ & Hrun)].
  { unfold assert_ in Hassert. destruct NDEBUG; [done|].
    destruct (vec_get st.(bidders_to_items) bidder_idx) as [x|f'] eqn:Hget;
      simpl in Hassert.
    - apply vec_get_Ok in Hget as [Hb0 Hget].
      rewrite Hfree in Hget.
      + injection Hget as <-. by rewrite Z.eqb_refl in Hassert.
      + apply lookup_lt_Some in Hget.
        rewrite (sized_bidders_to_items _ (ledger_sized _ Hok)) in Hget.
        unfold valid_index. lia.
    - injection Hassert as <-. by apply vec_get_Fail in Hget. }
  apply bind_Fail in Hrun as [Hget|(old & _ & Hrun)];
    [by apply vec_get_Fail in Hget|].
  apply bind_Fail in Hrun as [Hset|(b2i & _ & Hrun)];
    [by apply vec_set_Fail in Hset|].
  apply bind_Fail in Hrun as [Hset|(i2b & _ & Hrun)];
    [by apply vec_set_Fail in Hset|].
  destruct (negb (old =? k_invalid_index)); [|done].
  apply bind_Fail in Hrun as [Hset|(b2i' & _ & Hrun)];
    [by apply vec_set_Fail in Hset|done].
Qed.

Lemma bidding_round_failure st (f : fault) :
  ledger_ok st → unassigned_ok st → bidding_round st = Fail f →
  f = Undefined.
Proof.
  intros Hok Hun Hrun. unfold bidding_round in Hrun.
  destruct (uset_begin st.(unassigned_bidders)) as [bidder_idx|] eqn:Hbegin;
    [|by injection Hrun as <-].
  apply uset_begin_elem in Hbegin.
  destruct (oracle_get_optimal_bid bidder_idx st.(oracle))
    as [[optimal_item_idx bid_value] o].
  apply bind_Fail in Hrun as [Hassign|(st1 & _ & Hrun)]; [|done].
  apply (assign_item_to_bidder_failure _ _ _ _
           (ledger_ok_with_oracle _ o Hok)) in Hassign; [done|].
  intros Hv. by apply (unassigned_sound _ Hun).
Qed.

Lemma bidding_loop_failure (fuel : nat) st (f : fault) :
  ledger_ok st → unassigned_ok st → bidding_loop fuel st = Fail f →
  f = Undefined ∨ f = OutOfFuel.
Proof.
  revert st. induction fuel as [|fuel IH]; intros st Hok Hun Hrun;
    simpl in Hrun.
  { injection Hrun as <-. by right. }
  apply bind_Fail in Hrun as [Hround|(st1 & Hround & Hrun)].
  { left. by apply (bidding_round_failure _ _ Hok Hun). }
  destruct (bidding_round_ledger_ok _ _ Hok Hun Hround) as [Hok1 Hun1].
  destruct (bool_decide (st1.(unassigned_bidders) = ∅)); [done|].
  by apply (IH st1).
Qed.

(** The debug check after the bidding loop passes on a perfect matching. *)
Lemma check_bidder_has_item_Ok st :
  ledger_ok st → unassigned_ok st → st.(unassigned_bidders) = ∅ →
  for_each (seq 0 st.(num_bidders)) (check_bidder_has_item st) tt = Ok tt.
Proof.
  intros Hok Hun Hempty.
  destruct (ledger_ok_perfect_matching _ Hok Hun Hempty) as [Hheld _].
  apply for_each_unit_Ok. intros b Hb%elem_of_seq.
  destruct (Hheld b) as (i & Hi & [Hi0 HiN] & _); [lia|].
  unfold check_bidder_has_item. rewrite (vec_get_of_nat _ _ _ Hi). simpl.
  destruct (Z.ltb_spec i 0); [lia|].
  destruct (Z.leb_spec (Z.of_nat st.(num_bidders)) i); [lia|done].
Qed.

Lemma phase_failures (fuel : nat) st st1 (f : fault) :
  sized st → flush_assignment st = Ok st1 →
  run_auction_phase fuel st1 = Fail f →
  f = Undefined ∨ f = OutOfFuel.
Proof.
  intros Hsz Hflush Hrun.
  destruct (flush_assignment_ledger_ok _ _ Hsz Hflush) as [Hok1 Hun1].
  unfold run_auction_phase in Hrun.
  apply bind_Fail in Hrun as [Hloop|(st2 & Hloop & Hrun)].
  - apply (bidding_loop_failure _ _ _ (ledger_ok_with_result _ _ Hok1)
             (unassigned_ok_with_result _ _ Hun1) Hloop).
  - destruct (bidding_loop_ledger_ok _ _ _ (ledger_ok_with_result _ _ Hok1)
                (unassigned_ok_with_result _ _ Hun1) Hloop)
      as (Hok2 & Hun2 & Hempty).
    rewrite (check_bidder_has_item_Ok _ Hok2 Hun2 Hempty) in Hrun.
    by destruct DEBUG_AUCTION.
Qed.

(** X9. A phase run after [flush_assignment] never throws and never fails
    an assertion, in any build: when it does not return, the oracle named
    an item outside the vector or there is no bidder at all (undefined
    behaviour), or the model ran out of fuel. In particular the debug check
    "Auction did not give a perfect matching" cannot fire. *)
Theorem run_auction_phase_failures (fuel : nat) st st1 (f : fault) :
  sized st → flush_assignment st = Ok st1 →
  run_auction_phase fuel st1 = Fail f →
  f = Undefined ∨ f = OutOfFuel.
Proof. apply phase_failures. Qed.

(** *** getDistanceToQthPowerInternal *)

Lemma for_each_app {S : Type} (l1 l2 : list nat) (body : nat → S → res S)
    (s : S) :
  for_each (l1 ++ l2) body s = (s' ← for_each l1 body s; for_each l2 body s').
Proof.
  revert s. induction l1 as [|i l1 IH]; intros s; simpl; [done|].
  destruct (body i s) as [s1|f]; simpl; [apply IH|done].
Qed.

Lemma add_bidder_cost_Ok st (b : nat) (i : Z) (r : R) :
  sized st → length st.(bidders) = st.(num_bidders) →
  length st.(items) = st.(num_bidders) →
  st.(bidders_to_items) !! b = Some i → valid_index st.(num_bidders) i →
  add_bidder_cost st b r = Ok (r + pair_cost st b)%real.
Proof.
  intros Hsz HlA HlB Hi [Hi0 HiN].
  assert (b < st.(num_bidders))%nat as Hb.
  { apply lookup_lt_Some in Hi.
    by rewrite (sized_bidders_to_items _ Hsz) in Hi. }
  destruct (lookup_lt_is_Some_2 st.(bidders) b) as [pb Hpb]; [lia|].
  destruct (lookup_lt_is_Some_2 st.(items) (Z.to_nat i)) as [pi Hpi]; [lia|].
  unfold add_bidder_cost. rewrite (vec_get_of_nat _ _ _ Hi). simpl.
  rewrite (get_item_bidder_cost_valid st i (Z.of_nat b) _ pb pi);
    try done; try lia.
  - simpl. unfold pair_cost. by rewrite Hpb, Hi, Hpi.
  - intros ->. apply (sized_sentinel _ Hsz). by split.
  - by apply (sentinel_not_index st).
  - by rewrite Nat2Z.id.
Qed.

Lemma for_each_add_bidder_cost_Ok st (l : list nat) (r0 : R) :
  sized st → length st.(bidders) = st.(num_bidders) →
  length st.(items) = st.(num_bidders) →
  (∀ b : nat, b ∈ l →
     ∃ i : Z, st.(bidders_to_items) !! b = Some i
              ∧ valid_index st.(num_bidders) i) →
  for_each l (add_bidder_cost st) r0
  = Ok (foldl (λ r b, (r + pair_cost st b)%real) r0 l).
Proof.
  intros Hsz HlA HlB. revert r0. induction l as [|b l IH]; intros r0 Hl;
    simpl; [done|].
  destruct (Hl b) as (i & Hi & Hv); [by left|].
  rewrite (add_bidder_cost_Ok _ _ _ _ Hsz HlA HlB Hi Hv). simpl.
  apply IH. intros b' Hb'. apply Hl. by right.
Qed.

Lemma getDistanceToQthPowerInternal_Ok st :
  ledger_ok st → complete_matching st →
  length st.(bidders) = st.(num_bidders) →
  length st.(items) = st.(num_bidders) →
  getDistanceToQthPowerInternal st
  = Ok (matching_cost st,
        with_result (set_cost (matching_cost st) st.(result)) st).
Proof.
  intros Hok Hcomplete HlA HlB. unfold getDistanceToQthPowerInternal.
  rewrite (sanity_check_Ok _ Hok). simpl.
  rewrite (for_each_add_bidder_cost_Ok _ _ _ (ledger_sized _ Hok) HlA HlB).
  - done.
  - intros b Hb%elem_of_seq. apply Hcomplete. lia.
Qed.

(** X10. On a consistent ledger in which every bidder holds an item,
    [getDistanceToQthPowerInternal] returns the sum over the bidders of
    [dist_lp(bidder, its item)^q], stores it in [result.cost] and changes
    nothing else; it throws nothing, in any build. *)
Theorem getDistanceToQthPowerInternal_complete st :
  ledger_ok st → complete_matching st →
  length st.(bidders) = st.(num_bidders) →
  length st.(items) = st.(num_bidders) →
  getDistanceToQthPowerInternal st
  = Ok (matching_cost st,
        with_result (set_cost (matching_cost st) st.(result)) st).
Proof. apply getDistanceToQthPowerInternal_Ok. Qed.

(** X11. When some bidder holds no item and invalid indices are not
    tolerated, [getDistanceToQthPowerInternal] throws the "Invalid idx"
    error of [get_item_bidder_cost] for the first such bidder; it does not
    return a partial sum. *)
Theorem getDistanceToQthPowerInternal_unassigned st (b : nat) :
  ledger_ok st → tolerate_invalid_idx_default = false →
  length st.(bidders) = st.(num_bidders) →
  length st.(items) = st.(num_bidders) →
  st.(bidders_to_items) !! b = Some k_invalid_index →
  (∀ b' : nat, (b' < b)%nat →
     ∃ i : Z, st.(bidders_to_items) !! b' = Some i ∧ i ≠ k_invalid_index) →
  getDistanceToQthPowerInternal st
  = Fail (Thrown (runtime_error
                    (invalid_idx_message k_invalid_index (Z.of_nat b)))).
Proof.
  intros Hok Htol HlA HlB Hb Hbefore.
  pose proof (ledger_sized _ Hok) as Hsz.
  assert (b < st.(num_bidders))%nat as HbN.
  { apply lookup_lt_Some in Hb.
    by rewrite (sized_bidders_to_items _ Hsz) in Hb. }
  unfold getDistanceToQthPowerInternal.
  rewrite (sanity_check_Ok _ Hok). simpl.
  assert (seq 0 st.(num_bidders)
          = seq 0 b ++ b :: seq (S b) (st.(num_bidders) - S b)) as ->.
  { replace st.(num_bidders) with (b + S (st.(num_bidders) - S b))%nat
      at 1 by lia.
    by rewrite seq_app. }
  rewrite for_each_app.
  rewrite (for_each_add_bidder_cost_Ok _ _ _ Hsz HlA HlB).
  - assert (∀ r : R,
              add_bidder_cost st b r
              = Fail (Thrown (runtime_error
                   (invalid_idx_message k_invalid_index (Z.of_nat b)))))
      as Hstep.
    { intros r. unfold add_bidder_cost.
      rewrite (vec_get_of_nat _ _ _ Hb). simpl.
      unfold get_item_bidder_cost. by rewrite Z.eqb_refl, Htol. }
    simpl. by rewrite Hstep.
  - intros b' Hb'%elem_of_seq.
    destruct (Hbefore b') as (i & Hi & Hne); [lia|].
    exists i. split; [done|]. by apply (ledger_entry_valid st b').
Qed.

End LedgerChecks.

(** ** The phase loop and the run *)

Section RunChecks.
Context {R : Type} {RT : RealType R} {RL : RealLaws R} {Point AO : Type}.
Context {OR : AuctionOracle R Point (AuctionParams R) AO}.
Context {OL : AuctionOracleLaws R Point (AuctionParams R) AO}.
Context {US : UnorderedSetBegin} {DC : Declarations R Point}.

Implicit Types st : @AuctionRunnerGS R Point AO.

Lemma phase_loop_start_epsilon (fuel left : nat) st st'
    (tr : phases_trace R) :
  phase_loop fuel left st = Ok (tr, st') →
  st'.(result).(start_epsilon) = st.(result).(start_epsilon).
Proof.
  revert st tr st'. induction left as [|left IH]; intros st0 tr st1 Hrun;
    simpl in Hrun.
  { by injection Hrun as <- <-. }
  apply bind_Ok in Hrun as ([[stop e] st2] & Hiter & Hrun).
  assert (st2.(result).(start_epsilon) = st0.(result).(start_epsilon))
    as Hstart.
  { destruct (phase_iteration_inv _ _ _ _ _ Hiter)
      as (sa & sb & sc & C & Hflush & Hphase & Hcost & _ & _ & ->).
    destruct (flush_assignment_frame _ _ Hflush) as (_ & Hr1 & _).
    destruct (run_auction_phase_frame _ _ _ Hphase)
      as (_ & (_ & _ & _ & Hs2 & _) & _).
    destruct (getDistanceToQthPowerInternal_inv _ _ _ Hcost) as [_ ->].
    rewrite <- Hr1, <- Hs2. by repeat case_match. }
  destruct stop.
  { by injection Hrun as <- <-. }
  apply bind_Ok in Hrun as ([tr1 st3] & Hloop & Hrun).
  injection Hrun as <- <-. by rewrite (IH _ _ _ Hloop).
Qed.

(** X12. The phases of a run follow a geometric schedule: the first runs
    at [initial_epsilon] (recorded as [start_epsilon]), and each further
    one at the epsilon of the one before divided by
    [epsilon_common_ratio]. *)
Theorem phase_epsilons_schedule (fuel : nat) st st' (tr : phases_trace R) :
  run_auction_phases_traced fuel st = Ok (tr, st') →
  tr.(trace_epsilons)
  = epsilon_schedule st.(params).(epsilon_common_ratio)
      st.(params).(initial_epsilon) (length tr.(trace_epsilons))
  ∧ st'.(result).(start_epsilon) = st.(params).(initial_epsilon).
Proof.
  intros Hrun.
  destruct (run_auction_phases_traced_inv _ _ _ _ Hrun)
    as (st0 & st1 & Hpro & Hloop & ->).
  destruct (phases_prologue_inv _ _ Hpro)
    as ((_ & _ & _ & _ & Hpar) & He0 & _ & Hstart & _).
  destruct (phase_loop_facts _ _ _ _ _ Hloop) as (_ & Hsched & _).
  rewrite Hpar, He0 in Hsched. split; [done|]. simpl.
  by rewrite (phase_loop_start_epsilon _ _ _ _ _ Hloop).
Qed.

(** X13. [max_num_phases] caps the phases: a run of the phase loop adds to
    [num_phases] the number of phases it ran, which is at most
    [max_num_phases], exactly [max_num_phases] (or none, when the cap is
    not positive) when the loop was exhausted, and at least one when it
    converged. *)
Theorem run_auction_phases_count (fuel : nat) st st' (tr : phases_trace R) :
  run_auction_phases_traced fuel st = Ok (tr, st') →
  st'.(result).(num_phases)
  = st.(result).(num_phases) + Z.of_nat (length tr.(trace_epsilons))
  ∧ Z.of_nat (length tr.(trace_epsilons))
    ≤ Z.max 0 st.(params).(max_num_phases)
  ∧ (tr.(trace_exit) = Exhausted →
     Z.of_nat (length tr.(trace_epsilons))
     = Z.max 0 st.(params).(max_num_phases))
  ∧ (tr.(trace_exit) = Converged → 1 ≤ Z.of_nat (length tr.(trace_epsilons))).
Proof.
  intros Hrun.
  destruct (run_auction_phases_traced_inv _ _ _ _ Hrun)
    as (st0 & st1 & Hpro & Hloop & ->).
  destruct (phases_prologue_inv _ _ Hpro)
    as (_ & _ & _ & _ & _ & Hp0 & _).
  destruct (phase_loop_facts _ _ _ _ _ Hloop) as (_ & _ & _ & Hp & _).
  destruct (phase_loop_length _ _ _ _ _ Hloop) as (Hle & Hconv & Hexh).
  simpl. rewrite Hp, Hp0. split; [done|].
  split; [lia|]. split.
  - intros Hexit. rewrite (Hexh Hexit). lia.
  - intros Hexit. specialize (Hconv Hexit). lia.
Qed.

(** An iteration of the phase loop takes a runner that is ready to one
    that is ready, and costs at least [num_bidders] rounds. *)
Lemma phase_iteration_ready (fuel : nat) st st' (stop : bool) (e : R) :
  loop_ready st → phase_iteration fuel st = Ok (stop, e, st') →
  loop_ready st'
  ∧ st.(result).(num_rounds) + Z.of_nat st.(num_bidders)
    ≤ st'.(result).(num_rounds).
Proof.
  intros (Hsz & Hempty & HlA & HlB) Hiter.
  destruct (phase_iteration_matching _ _ _ _ _ Hsz Hiter)
    as (Hok' & _ & Hempty' & _).
  destruct (phase_iteration_facts _ _ _ _ _ Hiter)
    as ((HA & HB & HN & _) & _).
  split.
  - split; [apply Hok'|]. split; [done|]. by rewrite HA, HB, HN.
  - destruct (phase_iteration_inv _ _ _ _ _ Hiter)
      as (st1 & st2 & st3 & C & Hflush & Hphase & Hcost & _ & _ & ->).
    destruct (completed_phase_rounds _ _ _ _ Hsz Hflush Hphase)
      as (_ & Hrounds & _).
    destruct (getDistanceToQthPowerInternal_inv _ _ _ Hcost) as [_ ->].
    assert (∀ s : AuctionRunnerGS,
              (decrease_epsilon s).(result).(num_rounds)
              = s.(result).(num_rounds)) as Hdec by done.
    repeat case_match; rewrite ?Hdec; simpl; lia.
Qed.

Lemma phase_loop_ready (fuel left : nat) st st' (tr : phases_trace R) :
  loop_ready st → phase_loop fuel left st = Ok (tr, st') →
  loop_ready st'
  ∧ st.(result).(num_rounds)
    + Z.of_nat st.(num_bidders) * Z.of_nat (length tr.(trace_epsilons))
    ≤ st'.(result).(num_rounds).
Proof.
  revert st tr st'. induction left as [|left IH]; intros st tr st' Hready Hrun;
    simpl in Hrun.
  { injection Hrun as <- <-. simpl. split; [done|lia]. }
  apply bind_Ok in Hrun as ([[stop e] st1] & Hiter & Hrun).
  destruct (phase_iteration_ready _ _ _ _ _ Hready Hiter) as [Hready1 Hr1].
  destruct stop.
  { injection Hrun as <- <-. simpl. split; [done|lia]. }
  apply bind_Ok in Hrun as ([tr1 st2] & Hloop & Hrun).
  injection Hrun as <- <-. simpl.
  destruct (IH _ _ _ Hready1 Hloop) as [Hready2 Hr2].
  destruct (phase_iteration_facts _ _ _ _ _ Hiter)
    as ((_ & _ & HN & _) & _).
  rewrite HN in Hr2. split; [done|]. lia.
Qed.

Lemma loop_ready_prologue st st0 :
  loop_ready st → phases_prologue st = Ok st0 → loop_ready st0.
Proof.
  intros (Hsz & Hempty & HlA & HlB) Hpro.
  destruct (phases_prologue_inv _ _ Hpro)
    as ((HA & HB & HN & HNi & _) & _ & _ & _ & _ & _ & _ & Hb2i & Hi2b
        & Hun).
  split; [by apply (sized_ext st)|]. split; [congruence|].
  by rewrite HA, HB, HN.
Qed.

(** X14. Every phase costs at least one round per bidder: a run of the
    phase loop on a runner with an empty unassigned set adds at least
    [num_bidders * (number of phases run)] to [num_rounds]. *)
Theorem run_auction_phases_rounds (fuel : nat) st st'
    (tr : phases_trace R) :
  loop_ready st →
  run_auction_phases_traced fuel st = Ok (tr, st') →
  st.(result).(num_rounds)
  + Z.of_nat st.(num_bidders)
    * (st'.(result).(num_phases) - st.(result).(num_phases))
  ≤ st'.(result).(num_rounds).
Proof.
  intros Hready Hrun.
  destruct (run_auction_phases_traced_inv _ _ _ _ Hrun)
    as (st0 & st1 & Hpro & Hloop & ->).
  pose proof (loop_ready_prologue _ _ Hready Hpro) as Hready0.
  destruct (phase_loop_ready _ _ _ _ _ Hready0 Hloop) as [_ Hrounds].
  destruct (phase_loop_facts _ _ _ _ _ Hloop) as (_ & _ & _ & Hp & _).
  unfold phases_prologue in Hpro.
  apply bind_Ok in Hpro as (_ & _ & Hpro). injection Hpro as <-.
  simpl in *. rewrite Hp. lia.
Qed.

(** X15. A run whose phase loop converged reports a
    [final_relative_error] of at most [delta] and returns: the
    "Maximum iteration number exceeded" error is not thrown, whatever the
    build and [tolerate_max_iter_exceeded]. *)
Theorem run_auction_converged (fuel : nat) st st1 (tr : phases_trace R) :
  st.(num_bidders) ≠ 1%nat →
  run_auction_phases_traced fuel st = Ok (tr, st1) →
  tr.(trace_exit) = Converged →
  ∃ st',
    run_auction fuel st = Ok st'
    ∧ (st'.(result).(final_relative_error) <=? st.(params).(delta))%real
      = true
    ∧ st'.(result).(cost) = st1.(result).(cost)
    ∧ st'.(bidders_to_items) = st1.(bidders_to_items)
    ∧ st'.(items_to_bidders) = st1.(items_to_bidders).
Proof.
  intros HN Hrun Hexit.
  destruct (run_auction_phases_traced_inv _ _ _ _ Hrun)
    as (st0 & st2 & Hpro & Hloop & Hst1).
  destruct (phases_prologue_inv _ _ Hpro)
    as ((_ & _ & _ & _ & Hpar0) & _).
  destruct (phase_loop_facts _ _ _ _ _ Hloop)
    as ((_ & _ & _ & _ & Hpar2) & _ & _ & _ & Hfacts).
  rewrite Hexit in Hfacts. destruct Hfacts as [_ Hfre].
  rewrite Hpar0 in Hfre.
  assert (st1.(params) = st.(params)) as Hpar1.
  { rewrite Hst1. simpl. congruence. }
  assert ((st1.(result).(final_relative_error) <=? st.(params).(delta))%real
          = true) as Hfre1 by by rewrite Hst1.
  unfold run_auction, run_auction_phases.
  apply Nat.eqb_neq in HN. rewrite HN, Hrun. simpl.
  unfold check_max_iter_exceeded.
  rewrite Hpar1.
  assert ((st.(params).(delta) <? st1.(result).(final_relative_error))%real
          = false) as ->.
  { destruct (_ <? _)%real eqn:Hlt; [|done].
    by rewrite (real_ltb_not_ge _ _ Hlt) in Hfre1. }
  simpl.
  assert ((if DEBUG_AUCTION then Ok () else Ok ()) = Ok ()) as ->
    by by destruct DEBUG_AUCTION.
  simpl. eexists. split; [done|].
  unfold fill_matching. by destruct (return_matching _).
Qed.

(** X16. With a cap [max_num_phases] that is not positive,
    [run_auction_phases] runs no phase: the ledger and the counters stay
    as they were, [final_relative_error] is the largest scalar, and
    [start_epsilon] and [final_epsilon] are both [initial_epsilon]. *)
Theorem run_auction_phases_no_phase (fuel : nat) st :
  st.(params).(max_num_phases) ≤ 0 →
  NDEBUG = true
  ∨ (real_of_Z 0 <? st.(params).(initial_epsilon))%real = true →
  ∃ st',
    run_auction_phases fuel st = Ok st'
    ∧ st'.(bidders_to_items) = st.(bidders_to_items)
    ∧ st'.(items_to_bidders) = st.(items_to_bidders)
    ∧ st'.(unassigned_bidders) = st.(unassigned_bidders)
    ∧ st'.(result).(num_phases) = st.(result).(num_phases)
    ∧ st'.(result).(num_rounds) = st.(result).(num_rounds)
    ∧ st'.(result).(cost) = st.(result).(cost)
    ∧ st'.(result).(final_relative_error) = real_max
    ∧ st'.(result).(start_epsilon) = st.(params).(initial_epsilon)
    ∧ st'.(result).(final_epsilon) = st.(params).(initial_epsilon)
    ∧ oracle_get_epsilon st'.(oracle) = st.(params).(initial_epsilon).
Proof.
  intros Hmax Hassert.
  unfold run_auction_phases, run_auction_phases_traced, phases_prologue.
  simpl. rewrite get_set_epsilon.
  rewrite (proj2 (assert_Ok _)); simpl.
  2:{ destruct Hassert as [->| ->]; [by left|by right]. }
  replace (Z.to_nat st.(params).(max_num_phases)) with 0%nat by lia.
  simpl. eexists. split; [done|]. simpl. rewrite get_set_epsilon.
  repeat split; done.
Qed.

(** What a returning [run_auction] did. *)
Lemma run_auction_inv (fuel : nat) st st' :
  run_auction fuel st = Ok st' →
  ∃ st2,
    st' = fill_matching
            (with_is_distance_computed true
               (with_result
                  (compute_distance st2.(params).(wasserstein_power)
                     st2.(result)) st2))
    ∧ ((st.(num_bidders) = 1%nat
        ∧ ∃ st1 (c : R),
            assign_item_to_bidder 0 0 st = Ok st1
            ∧ get_item_bidder_cost 0 0 tolerate_invalid_idx_default st1
              = Ok c
            ∧ st2 = with_result (set_cost c st1.(result)) st1)
       ∨ (st.(num_bidders) ≠ 1%nat
          ∧ ∃ tr : phases_trace R,
              run_auction_phases_traced fuel st = Ok (tr, st2))).
Proof.
  unfold run_auction, run_auction_phases. intros Hrun.
  apply bind_Ok in Hrun as (st2 & Hrun & Hfin). injection Hfin as <-.
  exists st2. split; [done|].
  destruct (Nat.eqb_spec st.(num_bidders) 1) as [Hone|Hone].
  - left. split; [done|].
    apply bind_Ok in Hrun as (st1 & Hassign & Hrun).
    apply bind_Ok in Hrun as (c & Hcost & Hrun). injection Hrun as <-.
    by exists st1, c.
  - right. split; [done|].
    apply bind_Ok in Hrun as (st1 & Hrun & Hcheck).
    apply bind_Ok in Hrun as ([tr st1'] & Hphases & Hrun).
    injection Hrun as ->.
    apply bind_Ok in Hcheck as (_ & _ & Hcheck). injection Hcheck as <-.
    by exists tr.
Qed.

Lemma fill_matching_frame st :
  (fill_matching st).(bidders) = st.(bidders)
  ∧ (fill_matching st).(items) = st.(items)
  ∧ (fill_matching st).(num_bidders) = st.(num_bidders)
  ∧ (fill_matching st).(num_items) = st.(num_items)
  ∧ (fill_matching st).(params) = st.(params)
  ∧ (fill_matching st).(bidders_to_items) = st.(bidders_to_items)
  ∧ (fill_matching st).(items_to_bidders) = st.(items_to_bidders)
  ∧ (fill_matching st).(unassigned_bidders) = st.(unassigned_bidders)
  ∧ (fill_matching st).(is_distance_computed) = st.(is_distance_computed)
  ∧ (fill_matching st).(result).(cost) = st.(result).(cost).
Proof. unfold fill_matching. by destruct (return_matching _). Qed.

Lemma run_auction_same_input (fuel : nat) st st' :
  run_auction fuel st = Ok st' → same_input st st'.
Proof.
  intros Hrun.
  destruct (run_auction_inv _ _ _ Hrun) as (st2 & -> & Hcase).
  destruct (fill_matching_frame
              (with_is_distance_computed true
                 (with_result
                    (compute_distance st2.(params).(wasserstein_power)
                       st2.(result)) st2)))
    as (HA & HB & HN & HNi & Hpar & _).
  unfold same_input. rewrite HA, HB, HN, HNi, Hpar. simpl.
  destruct Hcase as [(_ & st1 & c & Hassign & _ & ->)
                    |(_ & tr & Hphases)].
  - destruct (assign_item_to_bidder_inv _ _ _ _ Hassign)
      as (_ & _ & _ & _ & _ & _ & _ & _ & _ & ? & ? & ? & ? & ? & _).
    by repeat split.
  - destruct (run_auction_phases_traced_inv _ _ _ _ Hphases)
      as (st0 & st1 & Hpro & Hloop & ->).
    destruct (phases_prologue_inv _ _ Hpro) as [Hi0 _].
    destruct (phase_loop_facts _ _ _ _ _ Hloop) as [Hi1 _].
    apply (same_input_trans _ _ _ Hi0 Hi1).
Qed.

(** X17. A run never touches its input: the points of both sets, the
    sizes and the parameters of the runner are the same after
    [run_auction] as before. *)
Theorem run_auction_keeps_input (fuel : nat) st st' :
  run_auction fuel st = Ok st' →
  st'.(bidders) = st.(bidders) ∧ st'.(items) = st.(items)
  ∧ st'.(num_bidders) = st.(num_bidders)
  ∧ st'.(num_items) = st.(num_items)
  ∧ st'.(params) = st.(params).
Proof. apply run_auction_same_input. Qed.

(** X18. After a run that returned, the accessors return: in every build
    [get_wasserstein_cost] gives [result.cost] and
    [get_wasserstein_distance] gives its [1/q]-th power, without failing
    their assertion. *)
Theorem accessors_after_run (fuel : nat) st st' :
  run_auction fuel st = Ok st' →
  st'.(is_distance_computed) = true
  ∧ get_wasserstein_cost st' = Ok st'.(result).(cost)
  ∧ get_wasserstein_distance st'
    = Ok (real_pow st'.(result).(cost)
            (real_of_Z 1 / st.(params).(wasserstein_power))%real).
Proof.
  intros Hrun.
  destruct (run_auction_same_input _ _ _ Hrun) as (_ & _ & _ & _ & Hpar).
  destruct (run_auction_inv _ _ _ Hrun) as (st2 & Hst' & _).
  assert (st'.(is_distance_computed) = true) as Hflag.
  { rewrite Hst'.
    by destruct (fill_matching_frame
                   (with_is_distance_computed true
                      (with_result
                         (compute_distance st2.(params).(wasserstein_power)
                            st2.(result)) st2)))
      as (_ & _ & _ & _ & _ & _ & _ & _ & -> & _). }
  split; [done|].
  unfold get_wasserstein_distance, get_wasserstein_cost.
  rewrite Hflag, !assert_true by done. simpl. by rewrite Hpar.
Qed.

Lemma constructor_loop_ready (A B : list Point) (p : AuctionParams R)
    (prices0 : list R) st :
  length A = length B → ¬ valid_index (length A) k_invalid_index →
  constructor A B p prices0 = Ok st → loop_ready st.
Proof.
  intros Hlen Hsent Hctor.
  pose proof (constructor_ledger_ok _ _ _ _ _ Hlen Hsent Hctor) as Hok.
  destruct (constructor_inv _ _ _ _ _ Hctor)
    as (HA & HB & HN & _ & _ & _ & Hun & _).
  split; [apply Hok|]. split; [done|]. by rewrite HA, HB, HN.
Qed.

(** X19. The matching a run leaves is a bijection: on a constructed runner
    (sets of equal size), after a run with one bidder or with at least one
    phase, no bidder is unassigned, [bidders_to_items] holds every value of
    [[0,N)] exactly once, and [items_to_bidders] maps the item of each
    bidder back to the bidder. *)
Theorem run_auction_final_matching (fuel : nat) (A B : list Point)
    (p : AuctionParams R) (prices0 : list R) st st' :
  length A = length B → ¬ valid_index (length A) k_invalid_index →
  constructor A B p prices0 = Ok st →
  run_auction fuel st = Ok st' →
  length A = 1%nat ∨ 0 < p.(max_num_phases) →
  st'.(unassigned_bidders) = ∅
  ∧ st'.(bidders_to_items) ≡ₚ seqZ 0 (Z.of_nat (length A))
  ∧ (∀ b : nat, (b < length A)%nat →
       ∃ i : Z, st'.(bidders_to_items) !! b = Some i
                ∧ st'.(items_to_bidders) !! Z.to_nat i = Some (Z.of_nat b)).
Proof.
  intros Hlen Hsent Hctor Hrun Hcase.
  destruct (constructor_loop_ready _ _ _ _ _ Hlen Hsent Hctor)
    as (Hsz & _).
  destruct (constructor_inv _ _ _ _ _ Hctor)
    as (HA & HB & HN & HNi & Hi2b & Hb2i & Hun & Hres & _ & _ & _ & _ & _
        & _ & _ & Hmax & _).
  destruct (run_auction_inv _ _ _ Hrun) as (st2 & Hst' & Hpath).
  destruct (fill_matching_frame
              (with_is_distance_computed true
                 (with_result
                    (compute_distance st2.(params).(wasserstein_power)
                       st2.(result)) st2)))
    as (_ & _ & _ & _ & _ & Hbf & Hif & Huf & _).
  rewrite <- Hst' in Hbf, Hif, Huf. simpl in Hbf, Hif, Huf.
  rewrite Hbf, Hif, Huf.
  destruct Hpath as [(Hone & st1 & c & Hassign & _ & ->)
                    |(Hone & tr & Hphases)].
  - destruct (assign_item_to_bidder_inv _ _ _ _ Hassign)
      as (old & _ & _ & Hold & _ & Hi2b1 & Hb2i1 & Hun1 & _).
    rewrite HN in Hone. rewrite <- Hlen, Hone in *. simpl in *.
    rewrite Hi2b in Hold. injection Hold as <-.
    rewrite Z.eqb_refl in Hb2i1, Hun1.
    rewrite Hb2i1, Hi2b1, Hun1, Hun, Hb2i, Hi2b. simpl.
    split; [set_solver|]. split; [done|].
    intros b Hb. assert (b = 0%nat) as -> by lia. by exists 0.
  - destruct Hcase as [Hcase|Hpos]; [congruence|].
    destruct (run_auction_phases_traced_inv _ _ _ _ Hphases)
      as (st0 & stl & Hpro & Hloop & ->).
    destruct (phases_prologue_inv _ _ Hpro)
      as ((_ & _ & HN0 & HNi0 & _) & _ & _ & _ & _ & _ & _ & Hb2i0 & Hi2b0
          & _).
    assert (sized st0) as Hsz0 by by apply (sized_ext st).
    destruct (phase_loop_length _ _ _ _ _ Hloop) as (_ & Hconv & Hexh).
    destruct (phase_loop_facts _ _ _ _ _ Hloop)
      as ((_ & _ & HNl & _) & _).
    destruct (phase_loop_matching _ _ _ _ _ Hsz0 Hloop) as [_ Hcons].
    destruct Hcons as (Hokl & Hunl & Hemptyl & _).
    { intros Hnil. rewrite Hmax in Hexh. rewrite Hnil in Hconv, Hexh.
      simpl in Hconv, Hexh. destruct tr.(trace_exit).
      - specialize (Hconv eq_refl). lia.
      - specialize (Hexh eq_refl). lia. }
    destruct (ledger_ok_perfect_matching _ Hokl Hunl Hemptyl)
      as [Hheld Hperm].
    rewrite HNl, HN0, HN in Hheld, Hperm. simpl.
    split; [done|]. split; [done|].
    intros b Hb. destruct (Hheld b Hb) as (i & Hi & _ & Hback).
    by exists i.
Qed.

(** ** What a run can fail with *)

Lemma phase_iteration_failure (fuel : nat) st (f : fault) :
  loop_ready st → phase_iteration fuel st = Fail f →
  f = Undefined ∨ f = OutOfFuel.
Proof.
  intros (Hsz & Hempty & HlA & HlB) Hiter.
  destruct (flush_assignment_returns _ Hempty HlA) as [st1 Hflush].
  unfold phase_iteration in Hiter. rewrite Hflush in Hiter. simpl in Hiter.
  destruct (run_auction_phase fuel st1) as [st2|f'] eqn:Hphase.
  2:{ simpl in Hiter. injection Hiter as <-.
      by apply (phase_failures fuel st st1). }
  simpl in Hiter.
  destruct (flush_assignment_ledger_ok _ _ Hsz Hflush) as [Hok1 Hun1].
  destruct (run_auction_phase_ledger_ok _ _ _ Hok1 Hun1 Hphase)
    as (Hok2 & Hun2 & Hempty2).
  destruct (ledger_ok_perfect_matching _ Hok2 Hun2 Hempty2) as [Hheld _].
  destruct (flush_assignment_frame _ _ Hflush) as ((HA1 & HB1 & HN1 & _) & _).
  destruct (run_auction_phase_frame _ _ _ Hphase)
    as ((HA2 & HB2 & HN2 & _) & _).
  rewrite getDistanceToQthPowerInternal_Ok in Hiter.
  - simpl in Hiter. repeat case_match; done.
  - done.
  - intros b Hb. destruct (Hheld b Hb) as (i & Hi & Hv & _). by exists i.
  - congruence.
  - congruence.
Qed.

Lemma phase_loop_failure (fuel left : nat) st (f : fault) :
  loop_ready st → phase_loop fuel left st = Fail f →
  f = Undefined ∨ f = OutOfFuel.
Proof.
  revert st. induction left as [|left IH]; intros st Hready Hrun;
    simpl in Hrun; [done|].
  apply bind_Fail in Hrun as [Hiter|([[stop e] st1] & Hiter & Hrun)].
  { by apply (phase_iteration_failure fuel st). }
  destruct (phase_iteration_ready _ _ _ _ _ Hready Hiter) as [Hready1 _].
  destruct stop; [done|].
  apply bind_Fail in Hrun as [Hloop|([tr st2] & _ & Hrun)]; [|done].
  by apply (IH st1).
Qed.

(** X20. What a run on a constructed runner can fail with.  With one bidder
    it cannot fail.  Otherwise the failure is an index outside a vector or
    the dereference of [end()] (what an oracle that returns a wrong item
    causes), the model's fuel running out, or, in a build with
    [DEBUG_AUCTION] and without [tolerate_max_iter_exceeded], the
    exception "Maximum iteration number exceeded" thrown after phases that
    returned with [final_relative_error] above [delta]; no [assert] of the
    run fails, and neither [sanity_check] nor the cost of a pair throws. *)
Theorem run_auction_failures (fuel : nat) (A B : list Point)
    (p : AuctionParams R) (prices0 : list R) st (f : fault) :
  length A = length B → ¬ valid_index (length A) k_invalid_index →
  constructor A B p prices0 = Ok st →
  run_auction fuel st = Fail f →
  length A ≠ 1%nat
  ∧ (f = Undefined ∨ f = OutOfFuel
     ∨ (f = Thrown (runtime_error "Maximum iteration number exceeded")
        ∧ DEBUG_AUCTION = true
        ∧ p.(tolerate_max_iter_exceeded) = false
        ∧ ∃ st1, run_auction_phases fuel st = Ok st1
                 ∧ (p.(delta) <? st1.(result).(final_relative_error))%real
                   = true)).
Proof.
  intros Hlen Hsent Hctor Hrun.
  pose proof (constructor_loop_ready _ _ _ _ _ Hlen Hsent Hctor) as Hready.
  destruct (constructor_inv _ _ _ _ _ Hctor)
    as (HA & HB & HN & _ & _ & _ & _ & _ & _ & _ & _ & _ & _ & _ & Hdelta
        & _ & Htol & _ & Hassert).
  destruct (decide (length A = 1%nat)) as [Hone|Hone].
  { destruct A as [|a [|]]; try done. destruct B as [|b [|]]; try done.
    destruct (single_point_run fuel a b p prices0 st) as (st' & Hok & _);
      [|done|congruence].
    intros H0. apply Hsent. rewrite H0. unfold valid_index. simpl. lia. }
  split; [done|].
  unfold run_auction in Hrun. rewrite HN in Hrun.
  rewrite (proj2 (Nat.eqb_neq _ _) Hone) in Hrun.
  apply bind_Fail in Hrun as [Hrun|(st2 & _ & Hrun)]; [|done].
  apply bind_Fail in Hrun as [Hrun|(st1 & Hphases & Hrun)].
  - unfold run_auction_phases in Hrun.
    apply bind_Fail in Hrun as [Hrun|([tr st1] & _ & Hrun)]; [|done].
    unfold run_auction_phases_traced in Hrun.
    apply bind_Fail in Hrun as [Hpro|(st0 & Hpro & Hrun)].
    + exfalso. unfold phases_prologue in Hpro. simpl in Hpro.
      rewrite get_set_epsilon in Hpro.
      rewrite (proj2 (assert_Ok _)) in Hpro; [done|].
      destruct NDEBUG eqn:HND; [by left|right].
      by rewrite (proj1 (Hassert eq_refl)).
    + apply bind_Fail in Hrun as [Hloop|([tr st1] & _ & Hrun)]; [|done].
      pose proof (loop_ready_prologue _ _ Hready Hpro) as Hready0.
      destruct (phase_loop_failure _ _ _ _ Hready0 Hloop) as [->| ->]; auto.
  - apply bind_Fail in Hrun as [Hchk|(? & _ & Hrun)]; [|done].
    right; right.
    assert (st1.(params) = st.(params)) as Hp.
    { unfold run_auction_phases in Hphases.
      apply bind_Ok in Hphases as ([tr st3] & Htraced & [= ->]).
      destruct (run_auction_phases_traced_inv _ _ _ _ Htraced)
        as (st0 & stl & Hpro & Hloop & ->).
      destruct (phases_prologue_inv _ _ Hpro)
        as ((_ & _ & _ & _ & Hp0) & _).
      destruct (phase_loop_facts _ _ _ _ _ Hloop)
        as ((_ & _ & _ & _ & Hpl) & _).
      simpl. congruence. }
    unfold check_max_iter_exceeded in Hchk. rewrite Hp, Hdelta, Htol in Hchk.
    destruct DEBUG_AUCTION; [|done].
    destruct (_ <? _)%real eqn:Hlt; simpl in Hchk; [|done].
    destruct p.(tolerate_max_iter_exceeded); simpl in Hchk; [done|].
    injection Hchk as <-. do 3 (split; [done|]). by exists st1.
Qed.

(** ** The constructor *)

(** X21. The constructor's assertions.  In a build with assertions the
    constructor returns exactly when the first epsilon and the ratio it
    stores are positive and the two sets have the same size, and otherwise
    an [assert] fails; with [NDEBUG] it always returns.  It never throws.
    A configured ratio of zero is stored as 5 and passes; a negative ratio
    is kept and passes only with [NDEBUG]. *)
Theorem constructor_asserts (A B : list Point) (p : AuctionParams R)
    (prices0 : list R) :
  (NDEBUG = true
   ∨ ((real_of_Z 0 <? effective_epsilon A B p prices0)%real = true
      ∧ (real_of_Z 0 <? effective_ratio p)%real = true
      ∧ length A = length B)
   ↔ ∃ st, constructor A B p prices0 = Ok st)
  ∧ (∀ f, constructor A B p prices0 = Fail f → f = AssertionFailed)
  ∧ ((p.(epsilon_common_ratio) =? real_of_Z 0)%real = true →
     effective_ratio p = real_of_Z 5
     ∧ (real_of_Z 0 <? effective_ratio p)%real = true)
  ∧ ((p.(epsilon_common_ratio) <? real_of_Z 0)%real = true →
     effective_ratio p = p.(epsilon_common_ratio)
     ∧ (real_of_Z 0 <? effective_ratio p)%real = false).
Proof.
  assert (Hshape :
    constructor A B p prices0
    = (assert_ (Ok (real_of_Z 0 <? effective_epsilon A B p prices0)%real);;
       assert_ (Ok (real_of_Z 0 <? effective_ratio p)%real);;
       assert_ (Ok (bool_decide (length A = length B)));;
       Ok (mkRunner A B (length A) (length B)
             (replicate (length B) k_invalid_index)
             (replicate (length A) k_invalid_index)
             (let p' := if (p.(epsilon_common_ratio) =? real_of_Z 0)%real
                        then set_epsilon_common_ratio (real_of_Z 5) p
                        else p in
              if (p'.(initial_epsilon) =? real_of_Z 0)%real
              then set_initial_epsilon
                     (effective_epsilon A B p prices0) p'
              else p')
             (match prices0 with
              | [] => oracle_make A B p
              | _ => oracle_set_prices prices0 (oracle_make A B p)
              end) ∅ AuctionResult_default false))).
  { unfold constructor, effective_epsilon, effective_ratio.
    destruct (p.(epsilon_common_ratio) =? real_of_Z 0)%real; simpl;
      destruct (p.(initial_epsilon) =? real_of_Z 0)%real; simpl; done. }
  split; [|split; [|split]].
  - rewrite Hshape. unfold assert_. split.
    + intros [->|(-> & -> & Hlen)]; [by eexists|].
      rewrite (bool_decide_eq_true_2 _ Hlen).
      destruct NDEBUG; by eexists.
    + intros [st Hst]. destruct NDEBUG; [by left|right]. simpl in Hst.
      destruct (_ <? effective_epsilon _ _ _ _)%real; [|done].
      destruct (_ <? effective_ratio _)%real; [|done].
      destruct (bool_decide (length A = length B)) eqn:Hlen; [|done].
      by apply bool_decide_eq_true_1 in Hlen.
  - intros f. rewrite Hshape. unfold assert_. destruct NDEBUG; [done|].
    simpl.
    destruct (_ <? effective_epsilon _ _ _ _)%real; [|by intros [= <-]].
    destruct (_ <? effective_ratio _)%real; [|by intros [= <-]].
    destruct (bool_decide (length A = length B)); [done|by intros [= <-]].
  - intros Hzero. unfold effective_ratio. rewrite Hzero. split; [done|].
    apply real_of_Z_ltb; lia.
  - intros Hneg. unfold effective_ratio.
    assert ((p.(epsilon_common_ratio) =? real_of_Z 0)%real = false)
      as ->.
    { by apply real_ltb_eqb. }
    split; [done|].
    destruct (real_of_Z 0 <? p.(epsilon_common_ratio))%real eqn:Hpos;
      [|done].
    pose proof (real_ltb_trans _ _ _ Hneg Hpos) as Habs.
    by rewrite real_ltb_irrefl in Habs.
Qed.

(** X22. The ledger of a new runner.  The constructor leaves both vectors
    filled with the sentinel, which [sanity_check] accepts, and the set of
    unassigned bidders empty, so the set does not yet list the bidders
    without an item; the first [flush_assignment], with which every phase
    starts, returns and puts every bidder in the set. *)
Theorem constructor_then_flush_assignment (A B : list Point)
    (p : AuctionParams R) (prices0 : list R) st :
  length A = length B → ¬ valid_index (length A) k_invalid_index →
  constructor A B p prices0 = Ok st →
  sanity_check st = Ok tt
  ∧ (∀ b : nat, (b < length A)%nat →
       st.(bidders_to_items) !! b = Some k_invalid_index
       ∧ Z.of_nat b ∉ st.(unassigned_bidders))
  ∧ ∃ st1,
      flush_assignment st = Ok st1
      ∧ ledger_ok st1 ∧ unassigned_ok st1
      ∧ (∀ b : Z, b ∈ st1.(unassigned_bidders)
                  ↔ valid_index (length A) b)
      ∧ st1.(oracle) = oracle_adjust_prices st.(oracle).
Proof.
  intros Hlen Hsent Hctor.
  pose proof (constructor_ledger_ok _ _ _ _ _ Hlen Hsent Hctor) as Hok.
  destruct (constructor_loop_ready _ _ _ _ _ Hlen Hsent Hctor)
    as (Hsz & Hempty & HlA & _).
  destruct (constructor_inv _ _ _ _ _ Hctor)
    as (_ & _ & HN & _ & _ & Hb2i & _).
  split; [by apply sanity_check_Ok|]. split.
  { intros b Hb. rewrite Hb2i, Hempty. split; [|set_solver].
    by apply lookup_replicate_2. }
  destruct (flush_assignment_returns _ Hempty HlA) as [st1 Hflush].
  exists st1. split; [done|].
  destruct (flush_assignment_ledger_ok _ _ Hsz Hflush) as [Hok1 Hun1].
  destruct (flush_assignment_inv _ _ Hflush)
    as (_ & _ & Hun & Hor & _).
  do 2 (split; [done|]). split; [|done].
  intros b. rewrite Hun, Hempty, (left_id_L ∅ (∪)), HN.
  apply elem_of_all_bidders.
Qed.
End RunChecks.

(** ** The concrete instantiation satisfies the laws *)

Module InstanceLaws.
Import Instances.

Lemma Qle_bool_false (a b : Q) : Qle_bool a b = false → (b < a)%Q.
Proof.
  intros Hf. apply Qnot_le_lt. intros Hle%Qle_bool_iff. congruence.
Qed.

Lemma Qlt_bool_true (a b : Q) : negb (Qle_bool b a) = true ↔ (a < b)%Q.
Proof.
  split.
  - intros Hf%negb_true_iff. by apply Qle_bool_false.
  - intros Hlt. apply negb_true_iff. destruct (Qle_bool b a) eqn:Hle; [|done].
    apply Qle_bool_iff in Hle. by apply Qle_not_lt in Hle.
Qed.

#[export] Instance Q_RealLaws : RealLaws Q.
Proof.
  split; simpl.
  - intros a b Hab%Qlt_bool_true. by apply Qle_bool_iff, Qlt_le_weak.
  - intros a b Hab%negb_true_iff. done.
  - intros a b c Hab%Qle_bool_iff Hbc%Qle_bool_iff.
    apply Qle_bool_iff. by eapply Qle_trans.
  - intros a b c Hab%Qlt_bool_true Hbc%Qle_bool_iff.
    apply Qlt_bool_true. by eapply Qlt_le_trans.
  - intros a b c Hab%Qle_bool_iff Hbc%Qlt_bool_true.
    apply Qlt_bool_true. by eapply Qle_lt_trans.
  - done.
  - intros m n _ Hmn _. apply Qlt_bool_true. by rewrite <- Zlt_Qlt.
Qed.

#[export] Instance Q_RealSum : RealSum Q.
Proof.
  split. intros [n d]. simpl. unfold Qplus. simpl. by rewrite Z.mul_1_r.
Qed.

#[export] Instance Script_AuctionOracleLaws
  : AuctionOracleLaws Q Q (AuctionParams Q) ScriptOracle.
Proof.
  split; simpl; try done.
  intros b o. by destruct o.(so_script).
Qed.

Lemma first_element_elem (s : gset Z) (x : Z) : first_element s = Some x → x ∈ s.
Proof.
  unfold first_element. intros Hhead. apply elem_of_elements.
  destruct (elements s); simplify_eq/=. by left.
Qed.

#[export] Instance first_UnorderedSetBegin : UnorderedSetBegin :=
  {| uset_begin := first_element; uset_begin_elem := first_element_elem |}.

End InstanceLaws.

(** ** The theorems on concrete runs *)

Section Witnesses.
Import Instances InstanceLaws.

(** The value an evaluation returns. *)
Ltac returned m :=
  let v := eval vm_compute in m in
  lazymatch v with
  | Ok ?a => a
  end.

Example get_item_bidder_cost_sentinel :
  get_item_bidder_cost (DC := test_build true false) int_max 0 false
    half_assigned
  = Fail (Thrown (runtime_error
      "Invalid idx in get_item_bidder_cost, item_idx = 2147483647, bidder_idx = 0"))
  ∧ get_item_bidder_cost (DC := test_build true false) int_max 0 true
      half_assigned
    = Ok (inject_Z 0)
  ∧ get_item_bidder_cost (DC := test_build true false) 1 0 false
      half_assigned
    = Ok (inject_Z 5).
Proof. repeat split; vm_compute; reflexivity. Qed.

(** With no bidder at all the first round dereferences [begin()] of an
    empty set. *)
Example run_auction_no_bidder :
  (st ← constructor (DC := test_build true false) [] []
          (test_params 5 1 (1 # 100) 3 false) [];
   run_auction (DC := test_build true false) 10 st)
  = Fail Undefined.
Proof. vm_compute; reflexivity. Qed.

(** A run that converges in its fifth phase, the epsilon defaulted to
    [8 / 4] and the ratio to 5. *)
Example run_auction_converges :
  ∃ st',
    (st ← constructor (DC := test_build true false) two_bidders two_items
            (test_params 0 0 (1 # 100) 10 false) [];
     run_auction (DC := test_build true false) 10 st) = Ok st'
    ∧ st'.(result).(num_phases) = 5
    ∧ st'.(result).(cost) = inject_Z 3
    ∧ st'.(bidders_to_items) = [0; 1]
    ∧ Qeq st'.(result).(final_epsilon) (2 # 625)
    ∧ (st'.(result).(final_relative_error) <=? 1 # 100)%real = true.
Proof.
  let st' := returned
               (st ← constructor (DC := test_build true false) two_bidders
                       two_items (test_params 0 0 (1 # 100) 10 false) [];
                run_auction (DC := test_build true false) 10 st) in
  exists st'.
  repeat split; vm_compute; reflexivity.
Qed.

Lemma half_assigned_ledger_ok (debug ndebug : bool) :
  ledger_ok (DC := test_build debug ndebug) half_assigned.
Proof.
  split; [split|..]; simpl; try done.
  - unfold valid_index, int_max. simpl. lia.
  - intros [|[|b]] i Hl Hne; simplify_eq/=. done.
  - intros [|[|i]] b Hl Hne; simplify_eq/=. done.
Qed.

(** Bidder 1 takes item 0 from bidder 0. *)
Lemma assign_item_to_bidder_effect_witness :
  ∃ st',
    assign_item_to_bidder (DC := test_build true false) 0 1 half_assigned
    = Ok st'
    ∧ st'.(bidders_to_items) !! 0%nat = Some int_max
    ∧ 0 ∈ st'.(unassigned_bidders)
    ∧ st'.(bidders_to_items) !! 1%nat = Some 0
    ∧ st'.(items_to_bidders) !! 0%nat = Some 1
    ∧ (1 ∉ st'.(unassigned_bidders))
    ∧ st'.(result).(num_rounds) = 1
    ∧ (∀ b : Z,
         b ∈ st'.(unassigned_bidders)
         ↔ b ≠ 1 ∧ (b ∈ half_assigned.(unassigned_bidders)
                    ∨ (0 ≠ int_max ∧ b = 0))).
Proof.
  destruct (assign_item_to_bidder_effect (DC := test_build true false)
              half_assigned 0 1 0)
    as (st' & Hrun & Hold & Hb & Hi & Hun & Hrounds & _ & _ & Hset & _).
  - apply half_assigned_ledger_ok.
  - unfold valid_index. simpl. lia.
  - unfold valid_index. simpl. lia.
  - reflexivity.
  - reflexivity.
  - exists st'. destruct Hold as (_ & Hold & Hin); [done|].
    split; [exact Hrun|]. split; [exact Hold|]. split; [exact Hin|].
    split; [exact Hb|]. split; [exact Hi|]. split; [exact Hun|].
    split; [exact Hrounds|exact Hset].
Defined.

Lemma int_max_not_index (n : nat) :
  (n ≤ 1000)%nat → ¬ valid_index n int_max.
Proof. unfold valid_index, int_max. lia. Qed.

(** One phase in which item 0 changes hands: the oracle sends the first two
    bids to item 0 and the third to item 1, so two bidders take three
    rounds. *)
Lemma completed_phase_perfect_matching_witness :
  ∃ st st1 st',
    test_runner true false (test_params 5 1 (1 # 100) 3 false) [0; 0; 1]
    = Ok st
    ∧ flush_assignment (DC := test_build true false) st = Ok st1
    ∧ run_auction_phase (DC := test_build true false) 10 st1 = Ok st'
    ∧ st'.(bidders_to_items) = [0; 1]
    ∧ st'.(result).(num_rounds) = 3
    ∧ st'.(unassigned_bidders) = ∅
    ∧ st'.(bidders_to_items) ≡ₚ seqZ 0 2.
Proof.
  let st := returned (test_runner true false
                        (test_params 5 1 (1 # 100) 3 false) [0; 0; 1]) in
  let st1 := returned (flush_assignment (DC := test_build true false) st) in
  let st' := returned (run_auction_phase (DC := test_build true false) 10
                         st1) in
  exists st, st1, st';
  destruct (completed_phase_perfect_matching (DC := test_build true false)
              10 st st1 st')
    as (Hempty & _ & Hperm).
  - split; [reflexivity..|]. apply int_max_not_index. simpl. lia.
  - vm_compute; reflexivity.
  - vm_compute; reflexivity.
  - split; [vm_compute; reflexivity|].
    split; [vm_compute; reflexivity|].
    split; [vm_compute; reflexivity|].
    split; [reflexivity|]. split; [reflexivity|].
    split; [exact Hempty|exact Hperm].
Defined.

(** One bidder at 0, one item at 1. *)
Lemma run_auction_single_point_witness :
  ∃ st st',
    constructor (DC := test_build true false) [inject_Z 0] [inject_Z 1]
      (test_params 5 1 (1 # 100) 3 false) [] = Ok st
    ∧ run_auction (DC := test_build true false) 0 st = Ok st'
    ∧ st'.(bidders_to_items) = [0]
    ∧ st'.(result).(cost) = inject_Z 1
    ∧ st'.(result).(num_phases) = 0.
Proof.
  let st := returned (constructor (DC := test_build true false)
                        [inject_Z 0] [inject_Z 1]
                        (test_params 5 1 (1 # 100) 3 false) []) in
  exists st;
  destruct (run_auction_single_point (DC := test_build true false) 0
              (inject_Z 0) (inject_Z 1) (test_params 5 1 (1 # 100) 3 false)
              [] st)
    as (st' & Hrun & Hb2i & _ & Hcost & Hphases & _).
  - unfold k_invalid_index, test_build, int_max. discriminate.
  - vm_compute; reflexivity.
  - exists st'. split; [vm_compute; reflexivity|]. split; [exact Hrun|].
    split; [exact Hb2i|]. split; [exact Hcost|exact Hphases].
Defined.

(** A configured epsilon of zero becomes [max_val_ / 4 = 8 / 4], which the
    assertion finds above zero. *)
Lemma constructor_initial_epsilon_witness :
  ∃ st,
    constructor (DC := test_build true false) two_bidders two_items
      (test_params 5 0 (1 # 100) 3 false) [] = Ok st
    ∧ st.(params).(initial_epsilon) = (8 # 4)%Q
    ∧ (real_of_Z 0 <? st.(params).(initial_epsilon))%real = true.
Proof.
  let st := returned (constructor (DC := test_build true false)
                        two_bidders two_items
                        (test_params 5 0 (1 # 100) 3 false) []) in
  exists st;
  pose proof (constructor_initial_epsilon (DC := test_build true false)
                two_bidders two_items (test_params 5 0 (1 # 100) 3 false)
                [])
    as Hctor;
  cbv zeta in Hctor; destruct Hctor as [Hzero _];
  destruct (Hzero eq_refl) as (Hinv & _ & _);
  destruct (Hinv st) as [Heps Hpos].
  - vm_compute; reflexivity.
  - split; [vm_compute; reflexivity|].
    split; [exact Heps|exact (Hpos eq_refl)].
Defined.


(** A debug build, one phase allowed, [delta = 1/100] not reached, the flag
    not set: the run throws. *)
Lemma run_auction_max_iter_exceeded_witness :
  ∃ st tr st1,
    test_runner true false (test_params 5 1 (1 # 100) 1 false) [] = Ok st
    ∧ run_auction_phases_traced (DC := test_build true false) 10 st
      = Ok (tr, st1)
    ∧ tr.(trace_exit) = Exhausted
    ∧ st1.(result).(final_relative_error) = (2 # 1)%Q
    ∧ run_auction (DC := test_build true false) 10 st
      = Fail (Thrown (runtime_error "Maximum iteration number exceeded")).
Proof.
  let st := returned (test_runner true false
                        (test_params 5 1 (1 # 100) 1 false) []) in
  let r := returned (run_auction_phases_traced
                       (DC := test_build true false) 10 st) in
  exists st, r.1, r.2;
  destruct (run_auction_max_iter_exceeded (DC := test_build true false)
              10 st r.2 r.1)
    as (_ & _ & Hthrow & _).
  - simpl. lia.
  - vm_compute; reflexivity.
  - reflexivity.
  - split; [vm_compute; reflexivity|].
    split; [vm_compute; reflexivity|].
    split; [reflexivity|]. split; [reflexivity|].
    exact (Hthrow eq_refl eq_refl eq_refl).
Defined.

(** C1 as stated fails in a build without [DEBUG_AUCTION]: the same run,
    the flag not set and the bound still above [delta], returns. *)
Lemma run_auction_returns_without_debug :
  ∃ st tr st1 st',
    test_runner false false (test_params 5 1 (1 # 100) 1 false) [] = Ok st
    ∧ st.(params).(tolerate_max_iter_exceeded) = false
    ∧ run_auction_phases_traced (DC := test_build false false) 10 st
      = Ok (tr, st1)
    ∧ tr.(trace_exit) = Exhausted
    ∧ (st1.(result).(final_relative_error) <=? st.(params).(delta))%real
      = false
    ∧ run_auction (DC := test_build false false) 10 st = Ok st'.
Proof.
  let st := returned (test_runner false false
                        (test_params 5 1 (1 # 100) 1 false) []) in
  let r := returned (run_auction_phases_traced
                       (DC := test_build false false) 10 st) in
  let st' := returned (run_auction (DC := test_build false false) 10 st) in
  exists st, r.1, r.2, st'.
  repeat split; vm_compute; reflexivity.
Qed.

(** C2 as stated fails for a negative [initial_epsilon]: with assertions
    the constructor aborts, and without them it keeps the negative value
    rather than [max_val_ / 4 = 8 / 4]. *)
Lemma constructor_keeps_negative_epsilon :
  constructor (DC := test_build true false) two_bidders two_items
    (test_params 5 (-1) (1 # 100) 3 false) [] = Fail AssertionFailed
  ∧ ∃ st,
      constructor (DC := test_build true true) two_bidders two_items
        (test_params 5 (-1) (1 # 100) 3 false) [] = Ok st
      ∧ oracle_max_val_ st.(oracle) = inject_Z 8
      ∧ st.(params).(initial_epsilon) = inject_Z (-1)
      ∧ (real_of_Z 0 <? st.(params).(initial_epsilon))%real = false.
Proof.
  split; [vm_compute; reflexivity|].
  let st := returned (constructor (DC := test_build true true) two_bidders
                        two_items (test_params 5 (-1) (1 # 100) 3 false) [])
  in exists st.
  repeat split; vm_compute; reflexivity.
Qed.

(** C3 does not hold of the code.  The loop divides epsilon by
    [epsilon_common_ratio] "to decrease epsilon for the next iteration",
    but the constructor only asserts that the ratio is above zero: with a
    ratio of 1/2, in a build with assertions, the second phase runs at
    twice the epsilon of the first. *)
Lemma phase_epsilons_increase :
  ∃ st tr st',
    test_runner true false (test_params (1 # 2) 1 (1 # 100) 2 true) []
    = Ok st
    ∧ run_auction_phases_traced (DC := test_build true false) 10 st
      = Ok (tr, st')
    ∧ tr.(trace_epsilons) = [1; 2]%Q
    ∧ (inject_Z 2 <=? inject_Z 1)%real = false.
Proof.
  let st := returned (test_runner true false
                        (test_params (1 # 2) 1 (1 # 100) 2 true) []) in
  let r := returned (run_auction_phases_traced
                       (DC := test_build true false) 10 st) in
  exists st, r.1, r.2.
  repeat split; vm_compute; reflexivity.
Qed.

(** Three phases on the two bidders: the cost is [|0 - 1| + |3 - 5| = 3]. *)
Lemma run_auction_cost_consistent_witness :
  ∃ st st',
    constructor (DC := test_build true false) two_bidders two_items
      (test_params 5 1 (1 # 100) 3 true) [] = Ok st
    ∧ run_auction (DC := test_build true false) 10 st = Ok st'
    ∧ st'.(result).(cost) = inject_Z 3
    ∧ complete_matching st'
    ∧ st'.(result).(cost) = matching_cost (DC := test_build true false) st'.
Proof.
  let st := returned (constructor (DC := test_build true false) two_bidders
                        two_items (test_params 5 1 (1 # 100) 3 true) []) in
  let st' := returned (run_auction (DC := test_build true false) 10 st) in
  exists st, st';
  destruct (run_auction_cost_consistent (DC := test_build true false) 10
              two_bidders two_items (test_params 5 1 (1 # 100) 3 true) []
              st st')
    as [Hcost Hcomplete].
  - reflexivity.
  - apply int_max_not_index. simpl. lia.
  - vm_compute; reflexivity.
  - vm_compute; reflexivity.
  - pose proof (Hcomplete (or_intror eq_refl)) as Hm.
    split; [vm_compute; reflexivity|].
    split; [vm_compute; reflexivity|].
    split; [reflexivity|]. split; [exact Hm|exact (Hcost Hm)].
Defined.

(** Two phases at ratio 5 without convergence: the phases ran at 1 and
    1/5, and [final_epsilon] is 1/25. *)
Lemma final_epsilon_after_phases_witness :
  ∃ st tr st',
    test_runner true false (test_params 5 1 (1 # 1000) 2 true) [] = Ok st
    ∧ run_auction_phases_traced (DC := test_build true false) 10 st
      = Ok (tr, st')
    ∧ tr.(trace_exit) = Exhausted
    ∧ tr.(trace_epsilons) = [1; 1 # 5]%Q
    ∧ run_auction_phases (DC := test_build true false) 10 st = Ok st'
    ∧ st'.(result).(final_epsilon) = ((1 # 5) / 5)%Q
    ∧ st'.(result).(final_epsilon) ∉ tr.(trace_epsilons).
Proof.
  let st := returned (test_runner true false
                        (test_params 5 1 (1 # 1000) 2 true) []) in
  let r := returned (run_auction_phases_traced
                       (DC := test_build true false) 10 st) in
  exists st, r.1, r.2;
  pose proof (final_epsilon_after_phases (DC := test_build true false)
                10 st r.2 r.1) as Hfin.
  simpl in Hfin. destruct Hfin as (Hphases & Hlast & _ & Hfresh).
  - vm_compute; reflexivity.
  - split; [vm_compute; reflexivity|].
    split; [vm_compute; reflexivity|].
    split; [reflexivity|]. split; [reflexivity|].
    split; [exact Hphases|].
    split; [exact (Hlast _ eq_refl)|].
    apply (Hfresh (1 # 5)%Q eq_refl eq_refl).
    intros [|[|i]] a b Ha Hb; [|discriminate Hb..].
    injection Ha as <-. injection Hb as <-. reflexivity.
Defined.

(** C10 as stated fails for a ratio of 1, which the constructor accepts:
    after two phases without convergence [final_epsilon] is the epsilon
    both phases ran at. *)
Lemma final_epsilon_used_at_ratio_one :
  ∃ st tr st',
    test_runner true false (test_params 1 1 (1 # 100) 2 true) [] = Ok st
    ∧ run_auction_phases_traced (DC := test_build true false) 10 st
      = Ok (tr, st')
    ∧ tr.(trace_exit) = Exhausted
    ∧ tr.(trace_epsilons) = [1; 1]%Q
    ∧ st'.(result).(final_epsilon) = 1%Q
    ∧ st'.(result).(final_epsilon) ∈ tr.(trace_epsilons).
Proof.
  let st := returned (test_runner true false
                        (test_params 1 1 (1 # 100) 2 true) []) in
  let r := returned (run_auction_phases_traced
                       (DC := test_build true false) 10 st) in
  exists st, r.1, r.2.
  repeat split; try (vm_compute; reflexivity). simpl. left.
Qed.

(** *** The ledger checks on concrete ledgers *)

Lemma half_assigned_unassigned_ok (debug ndebug : bool) :
  unassigned_ok (DC := test_build debug ndebug) half_assigned.
Proof.
  split; simpl.
  - intros [|[|b]] Hl; simplify_eq/=. set_solver.
  - intros b Hb%elem_of_singleton _. by subst b.
Qed.

Lemma crossed_ledger_ok (debug ndebug : bool) :
  ledger_ok (DC := test_build debug ndebug) crossed.
Proof.
  split; [split|..]; simpl; try done.
  - unfold valid_index, int_max. simpl. lia.
  - intros [|[|b]] i Hl Hne; simplify_eq/=; done.
  - intros [|[|i]] b Hl Hne; simplify_eq/=; done.
Qed.

Lemma sanity_check_sound_witness :
  sanity_check (DC := test_build true false) half_assigned = Ok tt
  ∧ ∀ (b : nat) (i : Z),
      half_assigned.(bidders_to_items) !! b = Some i → i ≠ int_max →
      0 ≤ i ∧ half_assigned.(items_to_bidders) !! Z.to_nat i
              = Some (Z.of_nat b).
Proof.
  split; [vm_compute; reflexivity|].
  destruct (sanity_check_sound (DC := test_build true false) half_assigned)
    as (_ & _ & Hb & _).
  - reflexivity.
  - vm_compute; reflexivity.
  - exact Hb.
Defined.

Lemma sanity_check_complete_witness :
  sanity_check (DC := test_build true false) half_assigned = Ok tt.
Proof.
  apply (sanity_check_complete (DC := test_build true false)).
  apply half_assigned_ledger_ok.
Defined.

(** Bidder 0 holds item 0 and bids for item 1. *)
Lemma assign_item_to_bidder_held_witness :
  assign_item_to_bidder (DC := test_build true false) 1 0 half_assigned
  = Fail AssertionFailed.
Proof.
  apply (assign_item_to_bidder_held (DC := test_build true false)
           half_assigned 1 0 0).
  - apply half_assigned_ledger_ok.
  - reflexivity.
  - lia.
  - reflexivity.
  - unfold k_invalid_index, test_build, int_max. discriminate.
Defined.

Lemma assign_item_to_bidder_invariant_witness :
  ∃ st',
    assign_item_to_bidder (DC := test_build true false) 0 1 half_assigned
    = Ok st'
    ∧ ledger_ok (DC := test_build true false) st'
    ∧ unassigned_ok (DC := test_build true false) st'
    ∧ (∀ b : Z,
         b ∈ st'.(unassigned_bidders)
         ↔ valid_index 2 b
           ∧ st'.(bidders_to_items) !! Z.to_nat b = Some int_max).
Proof.
  let st' := returned (assign_item_to_bidder (DC := test_build true false)
                         0 1 half_assigned) in
  exists st';
  destruct (assign_item_to_bidder_invariant (DC := test_build true false)
              half_assigned st' 0 1)
    as (Hok & Hun & Hexact).
  - apply half_assigned_ledger_ok.
  - apply half_assigned_unassigned_ok.
  - intros b Hb. simpl in Hb. apply elem_of_singleton in Hb. subst b.
    unfold valid_index. simpl. lia.
  - reflexivity.
  - vm_compute; reflexivity.
  - split; [vm_compute; reflexivity|].
    split; [exact Hok|]. split; [exact Hun|exact Hexact].
Defined.

(** Bidder 1 takes item 0 from bidder 0: one bidder is unassigned before
    and after. *)
Lemma assign_item_to_bidder_unassigned_size_witness :
  ∃ st',
    assign_item_to_bidder (DC := test_build true false) 0 1 half_assigned
    = Ok st'
    ∧ size st'.(unassigned_bidders)
      = size half_assigned.(unassigned_bidders).
Proof.
  let st' := returned (assign_item_to_bidder (DC := test_build true false)
                         0 1 half_assigned) in
  exists st';
  pose proof (assign_item_to_bidder_unassigned_size
                (DC := test_build true false) half_assigned st' 0 1 0)
    as Hsize.
  split; [vm_compute; reflexivity|].
  apply Hsize.
  - apply half_assigned_ledger_ok.
  - apply half_assigned_unassigned_ok.
  - simpl. set_solver.
  - reflexivity.
  - vm_compute; reflexivity.
Defined.

(** In the middle of a phase the unassigned set is not empty. *)
Lemma flush_assignment_asserts_witness :
  flush_assignment (DC := test_build true false) half_assigned
  = Fail AssertionFailed.
Proof.
  destruct (flush_assignment_asserts (DC := test_build true false)
              half_assigned eq_refl)
    as [_ Hfail].
  apply Hfail. intros [Hempty _]. simpl in Hempty. set_solver.
Defined.

Lemma flush_assignment_resets_witness :
  ∃ st',
    flush_assignment (DC := test_build true false) crossed = Ok st'
    ∧ st'.(bidders_to_items) = [int_max; int_max]
    ∧ st'.(items_to_bidders) = [int_max; int_max]
    ∧ size st'.(unassigned_bidders) = 2%nat.
Proof.
  let st' := returned (flush_assignment (DC := test_build true false)
                         crossed) in
  exists st';
  destruct (flush_assignment_resets (DC := test_build true false)
              crossed st')
    as (_ & Hb2i & Hi2b & _ & Hsize & _).
  - apply (ledger_sized _ (crossed_ledger_ok true false)).
  - reflexivity.
  - vm_compute; reflexivity.
  - split; [vm_compute; reflexivity|].
    split; [exact Hb2i|]. split; [exact Hi2b|exact Hsize].
Defined.

(** The phase of three rounds in which item 0 changes hands. *)
Lemma run_auction_phase_rounds_witness :
  ∃ st st1 st2,
    test_runner true false (test_params 5 1 (1 # 100) 3 false) [0; 0; 1]
    = Ok st
    ∧ flush_assignment (DC := test_build true false) st = Ok st1
    ∧ run_auction_phase (DC := test_build true false) 10 st1 = Ok st2
    ∧ st2.(result).(num_rounds) = 3
    ∧ st2.(result).(num_phases) = st.(result).(num_phases) + 1
    ∧ st.(result).(num_rounds) + 2 ≤ st2.(result).(num_rounds).
Proof.
  let st := returned (test_runner true false
                        (test_params 5 1 (1 # 100) 3 false) [0; 0; 1]) in
  let st1 := returned (flush_assignment (DC := test_build true false) st) in
  let st2 := returned (run_auction_phase (DC := test_build true false) 10
                         st1) in
  exists st, st1, st2;
  destruct (run_auction_phase_rounds (DC := test_build true false)
              10 st st1 st2)
    as (Hphases & Hrounds & _).
  - split; [reflexivity..|]. apply int_max_not_index. simpl. lia.
  - vm_compute; reflexivity.
  - vm_compute; reflexivity.
  - split; [vm_compute; reflexivity|].
    split; [vm_compute; reflexivity|].
    split; [vm_compute; reflexivity|].
    split; [reflexivity|]. split; [exact Hphases|exact Hrounds].
Defined.

(** An oracle that names item 7 of two. *)
Lemma run_auction_phase_failures_witness :
  ∃ st st1,
    test_runner true false (test_params 5 1 (1 # 100) 3 false) [7] = Ok st
    ∧ flush_assignment (DC := test_build true false) st = Ok st1
    ∧ ∃ f, run_auction_phase (DC := test_build true false) 10 st1 = Fail f
           ∧ (f = Undefined ∨ f = OutOfFuel).
Proof.
  let st := returned (test_runner true false
                        (test_params 5 1 (1 # 100) 3 false) [7]) in
  let st1 := returned (flush_assignment (DC := test_build true false) st) in
  exists st, st1;
  pose proof (run_auction_phase_failures (DC := test_build true false)
                10 st st1 Undefined)
    as Hfaults.
  split; [vm_compute; reflexivity|].
  split; [vm_compute; reflexivity|].
  exists Undefined. split; [vm_compute; reflexivity|].
  apply Hfaults.
  - split; [reflexivity..|]. apply int_max_not_index. simpl. lia.
  - vm_compute; reflexivity.
  - vm_compute; reflexivity.
Defined.

(** [|0 - 5| + |3 - 1| = 7]. *)
Lemma getDistanceToQthPowerInternal_complete_witness :
  getDistanceToQthPowerInternal (DC := test_build true false) crossed
  = Ok (matching_cost (DC := test_build true false) crossed,
        with_result
          (set_cost (matching_cost (DC := test_build true false) crossed)
             crossed.(result)) crossed)
  ∧ matching_cost (DC := test_build true false) crossed = inject_Z 7.
Proof.
  split; [|vm_compute; reflexivity].
  apply (getDistanceToQthPowerInternal_complete
           (DC := test_build true false)).
  - apply crossed_ledger_ok.
  - intros [|[|b]] Hb; simpl in Hb; [by exists 1|by exists 0|lia].
  - reflexivity.
  - reflexivity.
Defined.

(** Bidder 1 holds no item. *)
Lemma getDistanceToQthPowerInternal_unassigned_witness :
  getDistanceToQthPowerInternal (DC := test_build true false) half_assigned
  = Fail (Thrown (runtime_error
      "Invalid idx in get_item_bidder_cost, item_idx = 2147483647, bidder_idx = 1")).
Proof.
  etransitivity;
    [apply (getDistanceToQthPowerInternal_unassigned
              (DC := test_build true false) half_assigned 1)
    |vm_compute; reflexivity].
  - apply half_assigned_ledger_ok.
  - reflexivity.
  - reflexivity.
  - reflexivity.
  - reflexivity.
  - intros [|b'] Hb'; [|lia]. exists 0. split; [reflexivity|].
    unfold k_invalid_index, test_build, int_max. discriminate.
Defined.

(** *** The phase loop and the run on concrete runs *)

(** Three phases at ratio 5 that do not reach [delta = 1/1000]. *)
Lemma phase_epsilons_schedule_witness :
  ∃ st tr st',
    test_runner true false (test_params 5 1 (1 # 1000) 3 true) [] = Ok st
    ∧ run_auction_phases_traced (DC := test_build true false) 10 st
      = Ok (tr, st')
    ∧ tr.(trace_epsilons)
      = epsilon_schedule st.(params).(epsilon_common_ratio)
          st.(params).(initial_epsilon) (length tr.(trace_epsilons))
    ∧ length tr.(trace_epsilons) = 3%nat
    ∧ st'.(result).(start_epsilon) = st.(params).(initial_epsilon).
Proof.
  let st := returned (test_runner true false
                        (test_params 5 1 (1 # 1000) 3 true) []) in
  let r := returned (run_auction_phases_traced
                       (DC := test_build true false) 10 st) in
  exists st, r.1, r.2;
  destruct (phase_epsilons_schedule (DC := test_build true false)
              10 st r.2 r.1)
    as [Hsched Hstart].
  - vm_compute; reflexivity.
  - split; [vm_compute; reflexivity|].
    split; [vm_compute; reflexivity|].
    split; [exact Hsched|]. split; [reflexivity|exact Hstart].
Defined.

Lemma run_auction_phases_count_witness :
  ∃ st tr st',
    test_runner true false (test_params 5 1 (1 # 1000) 3 true) [] = Ok st
    ∧ run_auction_phases_traced (DC := test_build true false) 10 st
      = Ok (tr, st')
    ∧ tr.(trace_exit) = Exhausted
    ∧ st'.(result).(num_phases)
      = st.(result).(num_phases) + Z.of_nat (length tr.(trace_epsilons))
    ∧ Z.of_nat (length tr.(trace_epsilons))
      = Z.max 0 st.(params).(max_num_phases).
Proof.
  let st := returned (test_runner true false
                        (test_params 5 1 (1 # 1000) 3 true) []) in
  let r := returned (run_auction_phases_traced
                       (DC := test_build true false) 10 st) in
  exists st, r.1, r.2;
  destruct (run_auction_phases_count (DC := test_build true false)
              10 st r.2 r.1)
    as (Hcount & _ & Hexh & _).
  - vm_compute; reflexivity.
  - split; [vm_compute; reflexivity|].
    split; [vm_compute; reflexivity|].
    split; [reflexivity|]. split; [exact Hcount|exact (Hexh eq_refl)].
Defined.

Lemma run_auction_phases_rounds_witness :
  ∃ st tr st',
    test_runner true false (test_params 5 1 (1 # 1000) 3 true) [] = Ok st
    ∧ run_auction_phases_traced (DC := test_build true false) 10 st
      = Ok (tr, st')
    ∧ st'.(result).(num_phases) = 3
    ∧ st.(result).(num_rounds)
      + Z.of_nat st.(num_bidders)
        * (st'.(result).(num_phases) - st.(result).(num_phases))
      ≤ st'.(result).(num_rounds).
Proof.
  let st := returned (test_runner true false
                        (test_params 5 1 (1 # 1000) 3 true) []) in
  let r := returned (run_auction_phases_traced
                       (DC := test_build true false) 10 st) in
  exists st, r.1, r.2;
  pose proof (run_auction_phases_rounds (DC := test_build true false)
                10 st r.2 r.1)
    as Hrounds.
  split; [vm_compute; reflexivity|].
  split; [vm_compute; reflexivity|].
  split; [reflexivity|].
  apply Hrounds.
  - split; [|split; [reflexivity|split; reflexivity]].
    split; [reflexivity..|]. apply int_max_not_index. simpl. lia.
  - vm_compute; reflexivity.
Defined.

(** The run that converges in its fifth phase. *)
Lemma run_auction_converged_witness :
  ∃ st tr st1 st',
    constructor (DC := test_build true false) two_bidders two_items
      (test_params 0 0 (1 # 100) 10 false) [] = Ok st
    ∧ run_auction_phases_traced (DC := test_build true false) 10 st
      = Ok (tr, st1)
    ∧ tr.(trace_exit) = Converged
    ∧ run_auction (DC := test_build true false) 10 st = Ok st'
    ∧ (st'.(result).(final_relative_error) <=? st.(params).(delta))%real
      = true.
Proof.
  let st := returned (constructor (DC := test_build true false)
                        two_bidders two_items
                        (test_params 0 0 (1 # 100) 10 false) []) in
  let r := returned (run_auction_phases_traced
                       (DC := test_build true false) 10 st) in
  exists st, r.1, r.2;
  destruct (run_auction_converged (DC := test_build true false)
              10 st r.2 r.1)
    as (st' & Hrun & Hfre & _).
  - simpl. lia.
  - vm_compute; reflexivity.
  - reflexivity.
  - exists st'.
    split; [vm_compute; reflexivity|].
    split; [vm_compute; reflexivity|].
    split; [reflexivity|]. split; [exact Hrun|exact Hfre].
Defined.

(** A cap of zero phases. *)
Lemma run_auction_phases_no_phase_witness :
  ∃ st st',
    constructor (DC := test_build true false) two_bidders two_items
      (test_params 5 1 (1 # 100) 0 false) [] = Ok st
    ∧ run_auction_phases (DC := test_build true false) 10 st = Ok st'
    ∧ st'.(bidders_to_items) = st.(bidders_to_items)
    ∧ st'.(result).(num_phases) = st.(result).(num_phases)
    ∧ st'.(result).(final_relative_error) = real_max.
Proof.
  let st := returned (constructor (DC := test_build true false)
                        two_bidders two_items
                        (test_params 5 1 (1 # 100) 0 false) []) in
  exists st;
  destruct (run_auction_phases_no_phase (DC := test_build true false)
              10 st)
    as (st' & Hrun & Hb2i & _ & _ & Hphases & _ & _ & Hfre & _).
  - simpl. lia.
  - right. reflexivity.
  - exists st'. split; [vm_compute; reflexivity|].
    split; [exact Hrun|]. split; [exact Hb2i|].
    split; [exact Hphases|exact Hfre].
Defined.

Lemma run_auction_keeps_input_witness :
  ∃ st st',
    constructor (DC := test_build true false) two_bidders two_items
      (test_params 0 0 (1 # 100) 10 false) [] = Ok st
    ∧ run_auction (DC := test_build true false) 10 st = Ok st'
    ∧ st'.(bidders) = st.(bidders) ∧ st'.(items) = st.(items)
    ∧ st'.(params) = st.(params).
Proof.
  let st := returned (constructor (DC := test_build true false)
                        two_bidders two_items
                        (test_params 0 0 (1 # 100) 10 false) []) in
  let st' := returned (run_auction (DC := test_build true false) 10 st) in
  exists st, st';
  destruct (run_auction_keeps_input (DC := test_build true false)
              10 st st')
    as (HA & HB & _ & _ & Hp).
  - vm_compute; reflexivity.
  - split; [vm_compute; reflexivity|].
    split; [vm_compute; reflexivity|].
    split; [exact HA|]. split; [exact HB|exact Hp].
Defined.

Lemma accessors_after_run_witness :
  ∃ st st',
    constructor (DC := test_build true false) two_bidders two_items
      (test_params 0 0 (1 # 100) 10 false) [] = Ok st
    ∧ run_auction (DC := test_build true false) 10 st = Ok st'
    ∧ get_wasserstein_cost (DC := test_build true false) st'
      = Ok st'.(result).(cost)
    ∧ st'.(result).(cost) = inject_Z 3.
Proof.
  let st := returned (constructor (DC := test_build true false)
                        two_bidders two_items
                        (test_params 0 0 (1 # 100) 10 false) []) in
  let st' := returned (run_auction (DC := test_build true false) 10 st) in
  exists st, st';
  destruct (accessors_after_run (DC := test_build true false) 10 st st')
    as (_ & Hcost & _).
  - vm_compute; reflexivity.
  - split; [vm_compute; reflexivity|].
    split; [vm_compute; reflexivity|].
    split; [exact Hcost|vm_compute; reflexivity].
Defined.

Lemma run_auction_final_matching_witness :
  ∃ st st',
    constructor (DC := test_build true false) two_bidders two_items
      (test_params 0 0 (1 # 100) 10 false) [] = Ok st
    ∧ run_auction (DC := test_build true false) 10 st = Ok st'
    ∧ st'.(bidders_to_items) = [0; 1]
    ∧ st'.(unassigned_bidders) = ∅
    ∧ st'.(bidders_to_items) ≡ₚ seqZ 0 2.
Proof.
  let st := returned (constructor (DC := test_build true false)
                        two_bidders two_items
                        (test_params 0 0 (1 # 100) 10 false) []) in
  let st' := returned (run_auction (DC := test_build true false) 10 st) in
  exists st, st';
  destruct (run_auction_final_matching (DC := test_build true false)
              10 two_bidders two_items
              (test_params 0 0 (1 # 100) 10 false) [] st st')
    as (Hempty & Hperm & _).
  - reflexivity.
  - apply int_max_not_index. simpl. lia.
  - vm_compute; reflexivity.
  - vm_compute; reflexivity.
  - right. simpl. lia.
  - split; [vm_compute; reflexivity|].
    split; [vm_compute; reflexivity|].
    split; [reflexivity|]. split; [exact Hempty|exact Hperm].
Defined.

(** The debug build's throw after one phase that did not reach
    [delta = 1/100]. *)
Lemma run_auction_failures_witness :
  ∃ st st1,
    constructor (DC := test_build true false) two_bidders two_items
      (test_params 5 1 (1 # 100) 1 false) [] = Ok st
    ∧ run_auction (DC := test_build true false) 10 st
      = Fail (Thrown (runtime_error "Maximum iteration number exceeded"))
    ∧ run_auction_phases (DC := test_build true false) 10 st = Ok st1
    ∧ ((1 # 100)%Q <? st1.(result).(final_relative_error))%real = true.
Proof.
  let st := returned (constructor (DC := test_build true false)
                        two_bidders two_items
                        (test_params 5 1 (1 # 100) 1 false) []) in
  exists st;
  destruct (run_auction_failures (DC := test_build true false)
              10 two_bidders two_items
              (test_params 5 1 (1 # 100) 1 false) [] st
              (Thrown (runtime_error "Maximum iteration number exceeded")))
    as (_ & [Hf|[Hf|(_ & _ & _ & st1 & Hphases & Hfre)]]).
  - reflexivity.
  - apply int_max_not_index. simpl. lia.
  - vm_compute; reflexivity.
  - vm_compute; reflexivity.
  - discriminate Hf.
  - discriminate Hf.
  - exists st1. split; [vm_compute; reflexivity|].
    split; [vm_compute; reflexivity|]. split; [exact Hphases|exact Hfre].
Defined.

(** A configured ratio of zero is stored as 5, and the constructor
    returns. *)
Lemma constructor_asserts_witness :
  effective_ratio (test_params 0 1 (1 # 100) 3 false) = inject_Z 5
  ∧ ∃ st,
      constructor (DC := test_build true false) two_bidders two_items
        (test_params 0 1 (1 # 100) 3 false) [] = Ok st.
Proof.
  destruct (constructor_asserts (DC := test_build true false)
              two_bidders two_items (test_params 0 1 (1 # 100) 3 false) [])
    as (Hreturns & _ & Hzero & _).
  split; [exact (proj1 (Hzero eq_refl))|].
  apply Hreturns. right.
  split; [reflexivity|]. split; [reflexivity|reflexivity].
Defined.

Lemma constructor_then_flush_assignment_witness :
  ∃ st st1,
    constructor (DC := test_build true false) two_bidders two_items
      (test_params 5 1 (1 # 100) 3 false) [] = Ok st
    ∧ st.(unassigned_bidders) = ∅
    ∧ flush_assignment (DC := test_build true false) st = Ok st1
    ∧ ∀ b : Z, b ∈ st1.(unassigned_bidders) ↔ valid_index 2 b.
Proof.
  let st := returned (constructor (DC := test_build true false)
                        two_bidders two_items
                        (test_params 5 1 (1 # 100) 3 false) []) in
  exists st;
  destruct (constructor_then_flush_assignment (DC := test_build true false)
              two_bidders two_items (test_params 5 1 (1 # 100) 3 false) []
              st)
    as (_ & _ & st1 & Hflush & _ & _ & Hun & _).
  - reflexivity.
  - apply int_max_not_index. simpl. lia.
  - vm_compute; reflexivity.
  - exists st1. split; [vm_compute; reflexivity|].
    split; [reflexivity|]. split; [exact Hflush|exact Hun].
Defined.
End Witnesses.
